(** * ToolHub: a shallow embedding of the decision logic

    ToolHub is a Flask application; its own logic is the freemium
    gate ([models/database.py], [routes/ai_tools.py]), the score
    arithmetic of the SEO analyzer ([services/seo_analyzer.py]), the
    argument checks and clean-up of the PDF merger
    ([tools/pdf_merge.py], [routes/tools.py]), the page-range parser
    and the error handlers of the PDF toolkit ([tools/pdf_toolkit.py])
    and the dimension arithmetic of the image resizer
    ([tools/image_resizer.py]).

    Part I embeds those functions, one Rocq module per Python module.
    Part II states and proves the properties.

    Both parts go on with the code around these places: the default
    tool configurations, the retry loop of the Gemini service
    ([services/gemini_service.py]), splitting and rotating in the PDF
    toolkit, the split route, the validation of the merger, and the
    page analyses and findings of the SEO analyzer. *)

From Stdlib Require Import ZArith QArith Qabs Qpower Lia Lra Lqa Bool List Ascii String.
From Stdlib Require SpecFloat.
From stdpp Require Import base option list gmap strings pretty.

Close Scope Q_scope.
Open Scope Z_scope.

(* ===================================================================== *)
(** * Part I: the embedding                                              *)
(* ===================================================================== *)

(** ** Python values shared by all modules *)

Module Py.

(** The exception classes the embedded code raises or catches.  All of
    them derive from [Exception], so an [except Exception] clause
    catches every [exn]. *)
Inductive exn : Type :=
| Exception (msg : string)
| ValueError (msg : string)
| TypeError (msg : string)
| AttributeError (msg : string)
| FileNotFoundError (msg : string)
| OverflowError (msg : string)
| ImportError (msg : string)
| OSError (msg : string)
| ZeroDivisionError (msg : string)
| HTTPException (code : Z)
| LibraryError (msg : string).

(** [str(e)] *)
Definition str_exn (e : exn) : string :=
  match e with
  | Exception m | ValueError m | TypeError m | AttributeError m
  | FileNotFoundError m | OverflowError m | ImportError m | OSError m
  | ZeroDivisionError m | LibraryError m => m
  | HTTPException _ => "http error"
  end.

(** A call either returns or raises. *)
Inductive result (A : Type) : Type :=
| Ok (a : A)
| Raise (e : exn).
Arguments Ok {A} a.
Arguments Raise {A} e.

Definition bind {A B} (r : result A) (k : A -> result B) : result B :=
  match r with
  | Ok a => k a
  | Raise e => Raise e
  end.

Definition is_ok {A} (r : result A) : bool :=
  match r with Ok _ => true | Raise _ => false end.

#[global] Instance result_ret : MRet result := fun A a => Ok a.
#[global] Instance result_bind : MBind result := fun A B k r => bind r k.

(** Code that works on a store of type [S]: a call returns or raises,
    and what it wrote before raising stays written. *)
Definition M (S A : Type) : Type := S -> result A * S.

Definition ret {S A} (a : A) : M S A := fun s => (Ok a, s).
Definition raise {S A} (e : exn) : M S A := fun s => (Raise e, s).
Definition lift {S A} (r : result A) : M S A := fun s => (r, s).
Definition get {S} : M S S := fun s => (Ok s, s).
Definition put {S} (s : S) : M S unit := fun _ => (Ok tt, s).
Definition modify {S} (f : S -> S) : M S unit := fun s => (Ok tt, f s).

Definition mbindM {S A B} (m : M S A) (k : A -> M S B) : M S B :=
  fun s => match m s with
           | (Ok a, s') => k a s'
           | (Raise e, s') => (Raise e, s')
           end.

(** [try: m except Exception as e: handler(e)] *)
Definition try_except {S A} (m : M S A) (handler : exn -> M S A) : M S A :=
  fun s => match m s with
           | (Ok a, s') => (Ok a, s')
           | (Raise e, s') => handler e s'
           end.

#[global] Instance M_ret {S} : MRet (M S) := fun A a => ret a.
#[global] Instance M_bind {S} : MBind (M S) := fun A B k m => mbindM m k.

(** Truthiness of an optional string ([None] and [''] are falsy). *)
Definition truthy_opt_str (s : option string) : bool :=
  match s with
  | None => false
  | Some s => negb (String.eqb s "")
  end.

(** [s[:n]] *)
Definition slice_to (n : nat) (s : string) : string := String.substring 0 n s.

(** *** Strings *)

(** [str.isspace] on the ASCII range: tab, line feed, vertical tab,
    form feed, carriage return, the four separators 28 to 31, space. *)
Definition is_space (c : ascii) : bool :=
  let n := nat_of_ascii c in
  ((9 <=? n) && (n <=? 13) || (28 <=? n) && (n <=? 32))%nat.

Fixpoint lstrip (s : string) : string :=
  match s with
  | EmptyString => EmptyString
  | String c r => if is_space c then lstrip r else s
  end.

Fixpoint rstrip (s : string) : string :=
  match s with
  | EmptyString => EmptyString
  | String c r =>
      let r' := rstrip r in
      if is_space c && String.eqb r' "" then EmptyString else String c r'
  end.

(** [s.strip()] *)
Definition strip (s : string) : string := rstrip (lstrip s).

(** [c in s] *)
Fixpoint contains (c : ascii) (s : string) : bool :=
  match s with
  | EmptyString => false
  | String d r => Ascii.eqb c d || contains c r
  end.

(** [s.split(sep)] for a one-character separator. *)
Fixpoint split (sep : ascii) (s : string) : list string :=
  match s with
  | EmptyString => [EmptyString]
  | String c r =>
      if Ascii.eqb c sep then EmptyString :: split sep r
      else match split sep r with
           | h :: t => String c h :: t
           | [] => [String c EmptyString]
           end
  end.

(** [s.lower()] on the ASCII range. *)
Definition lower_ascii (c : ascii) : ascii :=
  let n := nat_of_ascii c in
  if ((65 <=? n) && (n <=? 90))%nat then ascii_of_nat (n + 32) else c.

Fixpoint lower (s : string) : string :=
  match s with
  | EmptyString => EmptyString
  | String c r => String (lower_ascii c) (lower r)
  end.

Definition digit_val (c : ascii) : option Z :=
  let n := nat_of_ascii c in
  if ((48 <=? n) && (n <=? 57))%nat then Some (Z.of_nat n - 48) else None.

(** The digits of an integer literal: decimal digits, single underscores
    allowed between two digits only. *)
Fixpoint digits_val (acc : Z) (after_digit : bool) (s : string) : option Z :=
  match s with
  | EmptyString => if after_digit then Some acc else None
  | String c r =>
      match digit_val c with
      | Some d => digits_val (10 * acc + d) true r
      | None =>
          if Ascii.eqb c "_" && after_digit
          then match r with
               | EmptyString => None
               | _ => digits_val acc false r
               end
          else None
      end
  end.

(** [int(s)] for a string, on the ASCII range: surrounding white space,
    an optional sign, then the digits; anything else is a [ValueError]. *)
Definition int_of_str (s : string) : result Z :=
  let body := strip s in
  let parsed :=
    match body with
    | String "+" r => digits_val 0 false r
    | String "-" r => Z.opp <$> digits_val 0 false r
    | _ => digits_val 0 false body
    end in
  match parsed with
  | Some n => Ok n
  | None => Raise (ValueError ("invalid literal for int() with base 10: " ++ s))
  end.

End Py.

(** ** Python floats

    A Python [float] is an IEEE 754 binary64 number.  A finite one is
    embedded as the rational it denotes; every operation computes the
    exact rational result and rounds it to the nearest binary64 value,
    ties to even, with the subnormal range and the overflow to infinity
    of the format.  The two zeros are not told apart. *)

Module pyfloat.
Import Py.

Inductive float : Type :=
| Finite (q : Q)
| Inf (negative : bool)
| NaN.

(** [2 ^ k <= n / d], for positive [n] and [d]. *)
Definition ge_pow2 (n d k : Z) : bool :=
  if 0 <=? k then d * 2 ^ k <=? n else d <=? n * 2 ^ (- k).

(** The exponent [e] of the last place of a 53-bit significand:
    [2 ^ 52 <= (n / d) / 2 ^ e < 2 ^ 53]. *)
Definition exponent_of (n d : Z) : Z :=
  let k := Z.log2 n - Z.log2 d in
  if ge_pow2 n d k then k - 52 else k - 53.

(** [n / d] divided by [2 ^ e], as a fraction of integers. *)
Definition scaled (n d e : Z) : Z * Z :=
  if 0 <=? e then (n, d * 2 ^ e) else (n * 2 ^ (- e), d).

(** The integer nearest to [N / D], ties to the even one. *)
Definition nearest_even (N D : Z) : Z :=
  let q := N / D in
  let r := N mod D in
  if 2 * r <? D then q
  else if D <? 2 * r then q + 1
  else if Z.even q then q else q + 1.

(** [n / d] rounded to a multiple of [2 ^ e]. *)
Definition round_at (e n d : Z) : Q :=
  let '(N, D) := scaled n d e in
  (inject_Z (nearest_even N D) * 2 ^ e)%Q.

(** The least exponent of the format: subnormals are multiples of [2 ^ -1074]. *)
Definition emin : Z := -1074.

Definition round_pos (negative : bool) (n d : Z) : float :=
  let v := round_at (Z.max (exponent_of n d) emin) n d in
  if Qle_bool (2 ^ 1024) v then Inf negative
  else Finite (if negative then Qopp v else v).

(** Rounding of an exact result to binary64. *)
Definition round64 (x : Q) : float :=
  match Qnum x with
  | Z0 => Finite 0
  | Zpos n => round_pos false (Zpos n) (Zpos (Qden x))
  | Zneg n => round_pos true (Zpos n) (Zpos (Qden x))
  end.

Definition is_zero (q : Q) : bool := Qnum q =? 0.
Definition is_negative (q : Q) : bool := Qnum q <? 0.

(** [float(n)] for an [int]: too large an integer does not convert. *)
Definition of_int (n : Z) : result float :=
  match round64 (inject_Z n) with
  | Finite q => Ok (Finite q)
  | _ => Raise (OverflowError "int too large to convert to float")
  end.

(** [a / b] for two [int]s: the exact quotient, rounded once. *)
Definition int_truediv (a b : Z) : result float :=
  if b =? 0 then Raise (ZeroDivisionError "division by zero")
  else
    match round64 (inject_Z a / inject_Z b) with
    | Finite q => Ok (Finite q)
    | _ => Raise (OverflowError "integer division result too large for a float")
    end.

(** [a * b] *)
Definition mul (a b : float) : float :=
  match a, b with
  | NaN, _ | _, NaN => NaN
  | Finite x, Finite y => round64 (x * y)
  | Inf s, Inf t => Inf (xorb s t)
  | Inf s, Finite y | Finite y, Inf s =>
      if is_zero y then NaN else Inf (xorb s (is_negative y))
  end.

(** [a / b]: Python raises on a zero divisor, whatever the dividend. *)
Definition div (a b : float) : result float :=
  match a, b with
  | _, Finite y =>
      if is_zero y then Raise (ZeroDivisionError "float division by zero")
      else match a with
           | Finite x => Ok (round64 (x / y))
           | Inf s => Ok (Inf (xorb s (is_negative y)))
           | NaN => Ok NaN
           end
  | NaN, _ | _, NaN => Ok NaN
  | Inf _, Inf _ => Ok NaN
  | Finite _, Inf _ => Ok (Finite 0)
  end.

(** [a + b] *)
Definition add (a b : float) : float :=
  match a, b with
  | NaN, _ | _, NaN => NaN
  | Finite x, Finite y => round64 (x + y)
  | Inf s, Inf t => if Bool.eqb s t then Inf s else NaN
  | Inf s, Finite _ | Finite _, Inf s => Inf s
  end.

(** [a < b]; a comparison with NaN is false. *)
Definition lt (a b : float) : bool :=
  match a, b with
  | NaN, _ | _, NaN => false
  | Finite x, Finite y => negb (Qle_bool y x)
  | Inf s, Inf t => s && negb t
  | Inf s, Finite _ => s
  | Finite _, Inf t => negb t
  end.

(** [a <= b] *)
Definition le (a b : float) : bool :=
  match a, b with
  | NaN, _ | _, NaN => false
  | Finite x, Finite y => Qle_bool x y
  | Inf s, Inf t => s || negb t
  | Inf s, Finite _ => s
  | Finite _, Inf t => negb t
  end.

(** [bool(a)] *)
Definition truthy (a : float) : bool :=
  match a with
  | Finite q => negb (is_zero q)
  | _ => true
  end.

(** [int(a)]: truncation towards zero. *)
Definition to_int (a : float) : result Z :=
  match a with
  | Finite q => Ok (Z.quot (Qnum q) (Zpos (Qden q)))
  | Inf _ => Raise (OverflowError "cannot convert float infinity to integer")
  | NaN => Raise (ValueError "cannot convert float NaN to integer")
  end.

(** The literal of a decimal fraction [n / d]: the nearest binary64. *)
Definition literal (n : Z) (d : positive) : float := round64 (n # d).

End pyfloat.

(** ** What the handlers see of Flask *)

Module flask.

(** A decoded JSON document; an absent key reads as [JNull] ([None]). *)
#[warnings="-register-all"]
Inductive json : Type :=
| JNull
| JBool (b : bool)
| JNum (n : Z)
| JStr (s : string)
| JArr (items : list json)
| JObj (fields : list (string * json)).

(** [bool(v)] *)
Definition truthy (v : json) : bool :=
  match v with
  | JNull => false
  | JBool b => b
  | JNum n => negb (n =? 0)
  | JStr s => negb (String.eqb s "")
  | JArr items => match items with [] => false | _ => true end
  | JObj fields => match fields with [] => false | _ => true end
  end.

(** Lookup in the fields of an object; of two equal keys the decoder
    keeps the later one. *)
Fixpoint dict_get (key : string) (fields : list (string * json)) : option json :=
  match fields with
  | [] => None
  | (k, v) :: rest =>
      match dict_get key rest with
      | Some v' => Some v'
      | None => if String.eqb k key then Some v else None
      end
  end.

(** [data.get(key)]: only a dict has the method. *)
Definition json_get (data : json) (key : string) : Py.result json :=
  match data with
  | JObj fields => Py.Ok (default JNull (dict_get key fields))
  | _ => Py.Raise (Py.AttributeError "object has no attribute 'get'")
  end.

Inductive body : Type :=
| Json (fields : list (string * json))
| File (path : string) (download_name : string)
| Template (name : string)
| LoginRedirect.

(** What a view returns: [jsonify(...)] alone has status 200. *)
Record response : Type := { status : Z; content : body }.

Definition jsonify (fields : list (string * json)) (code : Z) : response :=
  {| status := code; content := Json fields |}.

End flask.

(** ** models/database.py *)

Module database.

Inductive UserRole : Type := FREE | PREMIUM.

#[global] Instance UserRole_eq_dec : EqDecision UserRole.
Proof. solve_decision. Defined.

(** A calendar day as its ordinal, a [datetime] as a day and the
    seconds since midnight. *)
Record datetime : Type := { dt_date : Z; dt_seconds : Z }.

Record User : Type := {
  id : Z;
  username : string;
  role : UserRole;
}.

Record Usage : Type := {
  user_id : Z;
  tool_name : string;
  used_at : datetime;
  input_data : option string;
  output_data : option string;
}.

(** The [usage] table. *)
Abbreviation usage_table := (list Usage).

Definition is_premium (self : User) : bool :=
  bool_decide (role self = PREMIUM).

(** [self.usage_records]: the rows whose foreign key is this user. *)
Definition usage_records (db : usage_table) (self : User) : list Usage :=
  filter (fun r => user_id r = id self) db.

(** [today] is the value of [date.today()] at the call. *)
Definition get_daily_usage_count (db : usage_table) (today : Z) (self : User)
    (tool : option string) (target_date : option Z) : Z :=
  let target_date := match target_date with None => today | Some d => d end in
  let query := filter (fun r => dt_date (used_at r) = target_date)
                      (usage_records db self) in
  let query :=
    if Py.truthy_opt_str tool
    then filter (fun r => Some (tool_name r) = tool) query
    else query in
  Z.of_nat (length query).

Definition can_use_tool (db : usage_table) (today : Z) (self : User)
    (tool : string) : bool :=
  if is_premium self then true
  else
    let daily_usage := get_daily_usage_count db today self None None in
    daily_usage <? 3.

(** [User.record_usage]: one more row, stamped with [datetime.utcnow()]. *)
Definition record_usage (db : usage_table) (utcnow : datetime) (self : User)
    (tool : string) : usage_table :=
  db ++ [ {| user_id := id self; tool_name := tool; used_at := utcnow;
             input_data := None; output_data := None |} ].

End database.

(** ** routes/ai_tools.py *)

Module ai_tools.
Import Py flask database.

(** [current_user]: the anonymous user of Flask-Login or a row of
    [users]; only the latter has [is_authenticated] true. *)
Inductive user_proxy : Type :=
| Anonymous
| LoggedIn (u : User).

Definition is_authenticated (cu : user_proxy) : bool :=
  match cu with Anonymous => false | LoggedIn _ => true end.

(** A call of the Gemini service: the generic method with the prompt
    of the request, or one of the tool methods with its arguments. *)
Inductive ai_request : Type :=
| generate_content (prompt : json)
| tool_method (name : string) (args : list string).

(** What a request runs in.  The service and the database driver are
    outside the repository: [gemini] is the text the service hands
    back (it catches its own errors and always returns a string),
    [db_query_ok] and [db_commit_ok] tell whether the driver answers
    or raises. *)
Record env : Type := {
  current_user : user_proxy;
  today : Z;
  utcnow : datetime;
  gemini : ai_request -> string;
  db_query_ok : bool;
  db_commit_ok : bool;
}.

(** What a request can change: the [usage] table, and the calls made
    to the service, latest last. *)
Record world : Type := {
  usage : usage_table;
  ai_calls : list ai_request;
}.

Definition add_usage (row : Usage) (w : world) : world :=
  {| usage := usage w ++ [row]; ai_calls := ai_calls w |}.

Definition add_ai_call (r : ai_request) (w : world) : world :=
  {| usage := usage w; ai_calls := ai_calls w ++ [r] |}.

(** The dict [check_usage_limit] returns. *)
Record usage_check : Type := {
  allowed : bool;
  message : string;
  redirect : option string;
}.

(** [current_user.get_daily_usage_count()] through the driver. *)
Definition daily_usage_count (e : env) (u : User) : M world Z :=
  w ← get;
  if db_query_ok e
  then mret (get_daily_usage_count (usage w) (today e) u None None)
  else raise (LibraryError "database query failed").

Definition check_usage_limit (e : env) (tool : string) : M world usage_check :=
  if negb (is_authenticated (current_user e)) then
    mret {| allowed := false; message := "Please login to use AI tools";
            redirect := Some "auth.login" |}
  else
    match current_user e with
    | Anonymous => raise (AttributeError "is_premium")
    | LoggedIn u =>
        if is_premium u then
          mret {| allowed := true; message := "Premium user - unlimited access";
                  redirect := None |}
        else
          daily_usage ← daily_usage_count e u;
          if 3 <=? daily_usage then
            mret {| allowed := false;
                    message := "Daily limit reached (" ++ pretty daily_usage
                               ++ "/3). Upgrade to Premium for unlimited access.";
                    redirect := Some "auth.upgrade" |}
          else
            mret {| allowed := true;
                    message := "Free usage: " ++ pretty (daily_usage + 1)
                               ++ "/3 today";
                    redirect := None |}
    end.

(** [input_data[:500] if input_data else None] for the value the caller
    passes: a string is cut, a list is cut too but cannot be bound to
    the text column, the other truthy values cannot be sliced. *)
Definition input_column (input_data : json) : result (option string) :=
  if truthy input_data then
    match input_data with
    | JStr s => Ok (Some (slice_to 500 s))
    | JArr _ => Raise (LibraryError "cannot bind a list to a text column")
    | _ => Raise (TypeError "object is not subscriptable")
    end
  else Ok None.

Definition output_column (output_data : option string) : option string :=
  if truthy_opt_str output_data then slice_to 1000 <$> output_data else None.

(** [db.session.add(usage); db.session.commit()] *)
Definition session_add_commit (e : env) (row : Usage) : M world unit :=
  if db_commit_ok e then modify (add_usage row)
  else raise (LibraryError "database commit failed").

Definition record_usage (e : env) (tool : string) (input_data : json)
    (output_data : option string) : M world unit :=
  match current_user e with
  | LoggedIn u =>
      if negb (is_premium u) then
        try_except
          (input ← lift (input_column input_data);
           session_add_commit e
             {| user_id := id u; tool_name := tool; used_at := utcnow e;
                database.input_data := input;
                database.output_data := output_column output_data |})
          (fun _ => mret tt)
      else mret tt
  | Anonymous => mret tt
  end.

(** [gemini_service.generate_content(prompt)] and its siblings. *)
Definition call_gemini (e : env) (r : ai_request) : M world string :=
  _ ← modify (add_ai_call r);
  mret (gemini e r).

Definition error_json (msg : string) (code : Z) : response :=
  jsonify [("error", JStr msg)] code.

(** The view of [/ai/generate]; [body] is [request.json], which raises
    when the body cannot be decoded. *)
Definition ai_generate (e : env) (body : result json) : M world response :=
  try_except
    (data ← lift body;
     prompt ← lift (json_get data "prompt");
     if negb (truthy prompt) then
       mret (error_json "Prompt is required" 400)
     else
       usage_check ← check_usage_limit e "ai_generate";
       if negb (allowed usage_check) then
         mret (error_json (message usage_check) 403)
       else
         response ← call_gemini e (generate_content prompt);
         if String.prefix "AI service is currently unavailable" response then
           mret (error_json response 503)
         else
           _ ← record_usage e "ai_generate" prompt (Some response);
           mret (jsonify [("output", JStr response)] 200))
    (fun _ => mret (error_json "Content generation failed" 500)).

(** Flask-Login's [login_required]: the view runs for an authenticated
    user only, anyone else is sent to the login page. *)
Definition login_required (e : env) (view : M world response) : M world response :=
  if negb (is_authenticated (current_user e))
  then mret {| status := 302; content := LoginRedirect |}
  else view.

(** The POST branch shared by the ten form tools (blog generator,
    summarizer, paraphraser, ...): the limit check, then the tool's own
    reading of the form, which either answers at once or names the
    service call to make and the summary to store with the usage. *)
Definition tool_failure (msg : string) (redirect : option string) : response :=
  jsonify [("success", JBool false); ("error", JStr msg);
           ("redirect", match redirect with Some r => JStr r | None => JNull end)]
          200.

Definition ai_tool_post (e : env) (tool : string)
    (read_form : result (response + ai_request * string))
    (failure : string) : M world response :=
  limit_check ← check_usage_limit e tool;
  if negb (allowed limit_check) then
    mret (tool_failure (message limit_check) (redirect limit_check))
  else
    try_except
      (form ← lift read_form;
       match form with
       | inl early => mret early
       | inr (request, summary) =>
           result ← call_gemini e request;
           _ ← record_usage e tool (JStr summary) (Some (slice_to 200 result));
           mret (jsonify [("success", JBool true); ("result", JStr result);
                          ("message", JStr (message limit_check))] 200)
       end)
      (fun _ => mret (jsonify [("success", JBool false); ("error", JStr failure)] 200)).

(** [request.form.get(key, default)] *)
Definition form_get (form : list (string * string)) (key default : string) : string :=
  match List.find (fun kv => String.eqb (fst kv) key) form with
  | Some kv => snd kv
  | None => default
  end.

(** The paraphraser reads [text] and [style]. *)
Definition paraphraser_form (form : list (string * string))
  : result (response + ai_request * string) :=
  let text := strip (form_get form "text" "") in
  let style := form_get form "style" "formal" in
  if String.eqb text "" then
    Ok (inl (jsonify [("success", JBool false); ("error", JStr "Text is required")] 200))
  else
    Ok (inr (tool_method "paraphrase_text" [text; style],
             "Style: " +:+ style +:+ ", Length: "
             +:+ pretty (Z.of_nat (String.length text)))).

Definition paraphraser (e : env) (form : list (string * string)) : M world response :=
  ai_tool_post e "paraphraser" (paraphraser_form form)
               "Paraphrasing failed. Please try again.".

End ai_tools.

(** ** The file system and the PDF library, as the tools use them *)

Module os.
Import Py.

(** Regular files by path, each with its bytes. *)
Abbreviation fs := (gmap string string).

Definition path_exists (path : string) : M fs bool :=
  files ← get; mret (bool_decide (is_Some (files !! path))).

Definition remove (path : string) : M fs unit :=
  files ← get;
  match files !! path with
  | Some _ => put (delete path files)
  | None => raise (FileNotFoundError ("No such file or directory: " +:+ path))
  end.

(** [open(path, 'rb').read()] *)
Definition read_bytes (path : string) : M fs string :=
  files ← get;
  match files !! path with
  | Some bytes => mret bytes
  | None => raise (FileNotFoundError ("No such file or directory: " +:+ path))
  end.

(** [open(path, 'wb')]: the file is there and empty from then on. *)
Definition open_wb (path : string) : M fs unit :=
  modify (insert path EmptyString).

Definition write_bytes (path : string) (bytes : string) : M fs unit :=
  modify (insert path bytes).

Fixpoint ends_with_slash (s : string) : bool :=
  match s with
  | EmptyString => false
  | String c EmptyString => Ascii.eqb c "/"
  | String _ r => ends_with_slash r
  end.

(** [os.path.join(directory, name)] for a relative [name]. *)
Definition path_join (directory name : string) : string :=
  if String.eqb directory "" || ends_with_slash directory
  then directory +:+ name
  else directory +:+ "/" +:+ name.

(** [for x in xs: body(x)] *)
Fixpoint for_each {S A} (body : A -> M S unit) (xs : list A) : M S unit :=
  match xs with
  | [] => mret tt
  | x :: rest => _ ← body x; for_each body rest
  end.

(** [[f(x) for x in xs]] with calls that may raise. *)
Fixpoint map_each {S A B} (f : A -> M S B) (xs : list A) : M S (list B) :=
  match xs with
  | [] => mret []
  | x :: rest => y ← f x; ys ← map_each f rest; mret (y :: ys)
  end.

End os.

(** PyPDF2's merger and the temporary-name generator are outside the
    repository; the tools are embedded over any implementation of
    them.  [pdf_read] is [merger.append] taking in one input stream,
    [pdf_write] is [merger.write] producing the output bytes; either
    may raise.  [mkstemp_name] is the name [tempfile.mkstemp] picks. *)
Class PdfBackend : Type := {
  pdf : Type;
  pypdf2_available : bool;
  pdf_read : string -> Py.result pdf;
  pdf_write : list pdf -> Py.result string;
  mkstemp_name : string -> string -> os.fs -> string;
}.

(** ** tools/pdf_merge.py *)

Module pdf_merge.
Import Py os.

Section with_backend.
Context `{backend : PdfBackend}.

(** [tempfile.mkstemp(suffix, prefix)] followed by [os.close]: the
    file is created empty. *)
Definition mkstemp (suffix prefix : string) : M fs string :=
  files ← get;
  let path := mkstemp_name suffix prefix files in
  _ ← put (<[path := EmptyString]> files);
  mret path.

(** [PDFMerger.__init__] *)
Definition PDFMerger_init : result unit :=
  if pypdf2_available then Ok tt
  else Raise (ImportError
    "PyPDF2 is required for PDF operations. Install with: pip install PyPDF2").

Definition merge_pdfs (pdf_paths : list string) (output_filename : option string)
  : M fs string :=
  if bool_decide (pdf_paths = []) || (length pdf_paths <? 2)%nat then
    raise (ValueError "At least 2 PDF files are required for merging")
  else
    _ ← for_each (fun pdf_path =>
           found ← path_exists pdf_path;
           if negb found
           then raise (FileNotFoundError ("PDF file not found: " +:+ pdf_path))
           else mret tt) pdf_paths;
    output_path ← match output_filename with
                  | None => mkstemp ".pdf" "merged_"
                  | Some name => mret name
                  end;
    try_except
      (docs ← map_each (fun pdf_path =>
                 bytes ← read_bytes pdf_path;
                 lift (pdf_read bytes)) pdf_paths;
       _ ← open_wb output_path;
       merged ← lift (pdf_write docs);
       _ ← write_bytes output_path merged;
       mret output_path)
      (fun e =>
         found ← path_exists output_path;
         _ ← (if (found : bool) then remove output_path else mret tt);
         raise (Exception ("Failed to merge PDFs: " +:+ str_exn e))).

End with_backend.
End pdf_merge.

(** ** routes/tools.py: the merge route *)

Module tools_routes.
Import Py os flask.

Definition ALLOWED_EXTENSIONS : list string :=
  ["pdf"; "png"; "jpg"; "jpeg"; "gif"; "bmp"; "svg"; "txt"; "doc"; "docx";
   "mp3"; "mp4"; "avi"; "mov"; "wav"].

Definition tool_extensions : list (string * list string) :=
  [("convert_from_pdf", ["pdf"]);
   ("convert_to_pdf", ["doc"; "docx"; "xls"; "xlsx"; "ppt"; "pptx"]);
   ("extract_text", ["pdf"]); ("merge", ["pdf"]); ("split", ["pdf"]);
   ("compress", ["pdf"]); ("rotate", ["pdf"]); ("protect", ["pdf"]);
   ("watermark", ["pdf"]); ("organize", ["pdf"]); ("unlock", ["pdf"]);
   ("ocr", ["pdf"]); ("compare", ["pdf"]); ("redact", ["pdf"]);
   ("edit", ["pdf"]); ("sign", ["pdf"])].

Definition str_in (x : string) (xs : list string) : bool :=
  existsb (String.eqb x) xs.

(** [filename.rsplit('.', 1)[1]]: what follows the last dot. *)
Definition after_last_dot (filename : string) : string :=
  List.last (split "." filename) EmptyString.

Definition allowed_file (filename : string) (tool : option string) : bool :=
  if negb (contains "." filename) then false
  else
    let ext := lower (after_last_dot filename) in
    let for_tool :=
      if truthy_opt_str tool then
        match tool with
        | Some t => List.find (fun kv => String.eqb (fst kv) t) tool_extensions
        | None => None
        end
      else None in
    match for_tool with
    | Some kv => str_in ext (snd kv)
    | None => str_in ext ALLOWED_EXTENSIONS
    end.

(** An uploaded [FileStorage]: its client file name and its bytes. *)
Record upload : Type := { filename : string; data : string }.

(** What [file.save(path)] comes to.  It opens [path] for writing and
    copies the upload into it: all the bytes are written; or the file
    cannot be opened (a name longer than the file system takes, a
    missing folder) and the call raises with nothing written; or the
    copy breaks off after some bytes and the call raises. *)
Inductive save_outcome : Type :=
| Saved
| Refused (e : exn)
| Broken (written : string) (e : exn).

Section with_backend.
Context `{backend : PdfBackend}.

(** Werkzeug's [secure_filename], the clock and the upload folder come
    from outside: [timestamp k] is what the [k]-th reading of
    [datetime.now().strftime('%Y%m%d_%H%M%S')] in a request gives.  So
    does the file system's answer to a save, [os_save files path data]. *)
Variable secure_filename : string -> string.
Variable timestamp : nat -> string.
Variable UPLOAD_FOLDER : string.
Variable os_save : fs -> string -> string -> save_outcome.

(** [file.save(filepath)] *)
Definition file_save (filepath data : string) : M fs unit :=
  files ← get;
  match os_save files filepath data with
  | Saved => write_bytes filepath data
  | Refused e => raise e
  | Broken written e => _ ← write_bytes filepath written; raise e
  end.

(** [file and file.filename and allowed_file(file.filename, 'merge')] *)
Definition accepted (file : upload) : bool :=
  negb (String.eqb (filename file) "") && allowed_file (filename file) (Some "merge").

(** The path of an accepted upload when the clock is read for the
    [reading]-th time. *)
Definition upload_path (reading : nat) (file : upload) : string :=
  path_join UPLOAD_FOLDER
            (timestamp reading +:+ "_" +:+ secure_filename (filename file)).

(** The loop that saves the accepted uploads and collects their paths;
    the clock is read once for each accepted upload. *)
Fixpoint save_uploads (reading : nat) (files : list upload) : M fs (list string) :=
  match files with
  | [] => mret []
  | file :: rest =>
      if accepted file then
        _ ← file_save (upload_path reading file) (data file);
        paths ← save_uploads (S reading) rest;
        mret (upload_path reading file :: paths)
      else save_uploads reading rest
  end.

(** [request_files] is what [request.files.getlist('pdf_files')] comes
    to: the uploads, or the exception that reading the body raises (a
    body over [MAX_CONTENT_LENGTH], a broken multipart form).  The call
    stands inside the [try]. *)
Definition pdf_merge_process (request_files : result (list upload)) : M fs response :=
  try_except
    (files ← lift request_files;
     if bool_decide (files = []) || (length files <? 2)%nat then
       mret (jsonify [("error", JStr "At least 2 PDF files are required")] 400)
     else
       input_paths ← save_uploads 0 files;
       if (length input_paths <? 2)%nat then
         mret (jsonify [("error", JStr "At least 2 valid PDF files are required")] 400)
       else
         _ ← lift pdf_merge.PDFMerger_init;
         output_path ← pdf_merge.merge_pdfs input_paths None;
         _ ← for_each (fun path =>
                found ← path_exists path;
                if (found : bool) then remove path else mret tt) input_paths;
         mret {| status := 200; content := File output_path "merged.pdf" |})
    (fun e => mret (jsonify [("error", JStr ("Merge failed: " +:+ str_exn e))] 500)).

End with_backend.
End tools_routes.

(** ** tools/pdf_toolkit.py *)

(** PyMuPDF and PyPDF2 as the toolkit meets them: the import flags, the
    work the library does on a document ([library_step], named by the
    operation, its arguments and the output path; it may raise and may
    write files), and the answers of a document about its password. *)
Class ToolkitLibs : Type := {
  PYMUPDF_AVAILABLE : bool;
  PYPDF2_AVAILABLE : bool;
  PYPDF_AVAILABLE : bool;
  DOCX_AVAILABLE : bool;
  OPENPYXL_AVAILABLE : bool;
  PPTX_AVAILABLE : bool;
  REPORTLAB_AVAILABLE : bool;
  library_step : string -> list string -> string -> Py.M os.fs unit;
  authenticate : string -> string -> bool;
  needs_pass : string -> bool;
  temp_name : string -> string -> os.fs -> string;
}.

Module pdf_toolkit.
Import Py os.

(** *** The page-range parser *)

(** [start, end = map(int, part.split('-'))]: the unpacking asks the
    lazy [map] for a third value before it gives up, so [int] meets up
    to three pieces; every failure is a [ValueError]. *)
Definition unpack_two_ints (pieces : list string) : result (Z * Z) :=
  match pieces with
  | [a; b] =>
      start ← int_of_str a; stop ← int_of_str b; Ok (start, stop)
  | a :: b :: c :: _ =>
      _ ← int_of_str a; _ ← int_of_str b; _ ← int_of_str c;
      Raise (ValueError "too many values to unpack (expected 2)")
  | [a] =>
      _ ← int_of_str a;
      Raise (ValueError "not enough values to unpack (expected 2, got 1)")
  | [] => Raise (ValueError "not enough values to unpack (expected 2, got 0)")
  end.

(** One turn of the loop: the pair appended for [part]. *)
Definition parse_part (total_pages : Z) (part : string) : result (Z * Z) :=
  let part := strip part in
  if contains "-" part then
    '(start, stop) ← unpack_two_ints (split "-" part);
    let start := Z.max 1 (Z.min start total_pages) in
    let stop := Z.max start (Z.min stop total_pages) in
    Ok (start, stop)
  else
    page_num ← int_of_str part;
    let page_num := Z.max 1 (Z.min page_num total_pages) in
    Ok (page_num, page_num).

Fixpoint parse_parts (total_pages : Z) (parts : list string)
  : result (list (Z * Z)) :=
  match parts with
  | [] => Ok []
  | part :: rest =>
      range ← parse_part total_pages part;
      ranges ← parse_parts total_pages rest;
      Ok (range :: ranges)
  end.

Definition _parse_page_ranges (pages : string) (total_pages : Z)
  : result (list (Z * Z)) :=
  parse_parts total_pages (split "," pages).

(** *** The toolkit object and its guarded methods *)

(** What an attribute of the instance can hold. *)
Inductive attr : Type :=
| FeatureTable (features : list (string * bool))
| Logger
| Method.

(** The instance: its [__dict__]. *)
Abbreviation instance := (gmap string attr).

(** The names the class itself defines. *)
Definition class_names : list string :=
  ["__init__"; "split_pdf"; "_split_pdf_pymupdf"; "_split_pdf_pypdf2";
   "compress_pdf"; "_compress_pdf_pymupdf"; "_compress_pdf_pypdf2";
   "rotate_pdf"; "_rotate_pdf_pymupdf"; "_rotate_pdf_pypdf2";
   "add_watermark"; "_add_watermark_pymupdf"; "protect_pdf";
   "_protect_pdf_pypdf2"; "get_pdf_info"; "_get_pdf_info_pymupdf";
   "_get_pdf_info_pypdf2"; "_parse_page_ranges"; "validate_pdf_file";
   "organize_pdf"; "unlock_pdf"; "ocr_pdf"; "compare_pdfs"; "redact_pdf";
   "edit_pdf_text"; "sign_pdf"].

(** [self.name]: the instance first, then the class. *)
Definition getattr (self : instance) (name : string) : result attr :=
  match self !! name with
  | Some v => Ok v
  | None =>
      if existsb (String.eqb name) class_names then Ok Method
      else Raise (AttributeError
                    ("'PDFToolkit' object has no attribute '" +:+ name +:+ "'"))
  end.

Section with_libs.
Context `{libs : ToolkitLibs}.

(** [PDFToolkit.__init__] *)
Definition PDFToolkit_init : result instance :=
  let self : instance :=
    {[ "available_features" :=
         FeatureTable [("pymupdf", PYMUPDF_AVAILABLE); ("pypdf2", PYPDF2_AVAILABLE);
                       ("pypdf", PYPDF_AVAILABLE); ("docx", DOCX_AVAILABLE);
                       ("excel", OPENPYXL_AVAILABLE);
                       ("powerpoint", PPTX_AVAILABLE);
                       ("reportlab", REPORTLAB_AVAILABLE)] ]} in
  if negb (PYMUPDF_AVAILABLE || PYPDF2_AVAILABLE || PYPDF_AVAILABLE) then
    Raise (ImportError
      "No PDF processing library available. Install PyMuPDF, PyPDF2, or pypdf.")
  else Ok self.

Definition mkstemp (suffix prefix : string) : M fs string :=
  files ← get;
  let path := temp_name suffix prefix files in
  _ ← put (<[path := EmptyString]> files);
  mret path.

(** [except Exception as e: self.logger.error(log + str(e));
    raise Exception(failure + str(e))] *)
Definition log_and_wrap (self : instance) (log failure : string) (e : exn)
  : M fs string :=
  logger ← lift (getattr self "logger");
  match logger with
  | Logger => raise (Exception (failure +:+ str_exn e))
  | _ => raise (AttributeError "object has no attribute 'error'")
  end.

(** The [try] blocks of the seven methods. *)
Definition organize_pdf_try (input_path : string) (operations : list string)
  : M fs string :=
  if negb PYMUPDF_AVAILABLE then
    raise (Exception "PyMuPDF is required for PDF organization")
  else
    output_path ← mkstemp ".pdf" "organized_";
    _ ← library_step "organize" (input_path :: operations) output_path;
    mret output_path.

Definition unlock_pdf_try (input_path : string) (password : option string)
  : M fs string :=
  output_path ← mkstemp ".pdf" "unlocked_";
  _ ← (if PYMUPDF_AVAILABLE then
         _ ← library_step "open" [input_path] output_path;
         _ ← (match password with
              | Some pw =>
                  if truthy_opt_str password then
                    if negb (authenticate input_path pw)
                    then raise (Exception "Incorrect password provided")
                    else mret tt
                  else if needs_pass input_path
                       then raise (Exception "PDF requires password for unlocking")
                       else mret tt
              | None =>
                  if needs_pass input_path
                  then raise (Exception "PDF requires password for unlocking")
                  else mret tt
              end);
         library_step "save" [input_path] output_path
       else if PYPDF2_AVAILABLE then
         _ ← library_step "read" [input_path] output_path;
         _ ← (if needs_pass input_path then
                match password with
                | Some pw =>
                    if truthy_opt_str password then
                      if negb (authenticate input_path pw)
                      then raise (Exception "Incorrect password provided")
                      else mret tt
                    else raise (Exception "PDF requires password for unlocking")
                | None => raise (Exception "PDF requires password for unlocking")
                end
              else mret tt);
         library_step "write" [input_path] output_path
       else raise (Exception "PDF processing library not available"));
  mret output_path.

(** The five that need PyMuPDF and say so after making the temporary file. *)
Definition pymupdf_try (prefix operation missing : string) (args : list string)
  : M fs string :=
  output_path ← mkstemp ".pdf" prefix;
  _ ← (if PYMUPDF_AVAILABLE then library_step operation args output_path
       else raise (Exception missing));
  mret output_path.

Definition ocr_pdf_try (input_path language : string) : M fs string :=
  pymupdf_try "ocr_" "ocr" "PyMuPDF required for OCR processing" [input_path; language].

Definition compare_pdfs_try (pdf1_path pdf2_path : string) : M fs string :=
  pymupdf_try "comparison_" "compare" "PyMuPDF required for PDF comparison"
              [pdf1_path; pdf2_path].

Definition redact_pdf_try (input_path : string) (redaction_areas : list string)
  : M fs string :=
  pymupdf_try "redacted_" "redact" "PyMuPDF required for PDF redaction"
              (input_path :: redaction_areas).

Definition edit_pdf_text_try (input_path : string) (edits : list string)
  : M fs string :=
  pymupdf_try "edited_" "edit" "PyMuPDF required for PDF text editing"
              (input_path :: edits).

Definition sign_pdf_try (input_path : string) (signature_info : list string)
  : M fs string :=
  pymupdf_try "signed_" "sign" "PyMuPDF required for PDF signing"
              (input_path :: signature_info).

(** The methods: the [try] block under its handler. *)
Definition organize_pdf (self : instance) (input_path : string)
    (operations : list string) : M fs string :=
  try_except (organize_pdf_try input_path operations)
    (log_and_wrap self "PDF organization failed: " "Failed to organize PDF: ").

Definition unlock_pdf (self : instance) (input_path : string)
    (password : option string) : M fs string :=
  try_except (unlock_pdf_try input_path password)
    (log_and_wrap self "PDF unlock failed: " "Failed to unlock PDF: ").

Definition ocr_pdf (self : instance) (input_path language : string) : M fs string :=
  try_except (ocr_pdf_try input_path language)
    (log_and_wrap self "PDF OCR failed: " "Failed to perform OCR on PDF: ").

Definition compare_pdfs (self : instance) (pdf1_path pdf2_path : string)
  : M fs string :=
  try_except (compare_pdfs_try pdf1_path pdf2_path)
    (log_and_wrap self "PDF comparison failed: " "Failed to compare PDFs: ").

Definition redact_pdf (self : instance) (input_path : string)
    (redaction_areas : list string) : M fs string :=
  try_except (redact_pdf_try input_path redaction_areas)
    (log_and_wrap self "PDF redaction failed: " "Failed to redact PDF: ").

Definition edit_pdf_text (self : instance) (input_path : string)
    (edits : list string) : M fs string :=
  try_except (edit_pdf_text_try input_path edits)
    (log_and_wrap self "PDF text editing failed: " "Failed to edit PDF text: ").

Definition sign_pdf (self : instance) (input_path : string)
    (signature_info : list string) : M fs string :=
  try_except (sign_pdf_try input_path signature_info)
    (log_and_wrap self "PDF signing failed: " "Failed to sign PDF: ").

End with_libs.
End pdf_toolkit.

(** ** services/seo_analyzer.py *)

Module seo_analyzer.
Import Py pyfloat.

(** The three values the [_analyze_*] methods give a [status]. *)
Inductive status : Type := good | warning | critical.

(** [headings]: the number of tags found for [h1] to [h6]. *)
Record headings : Type := {
  h1 : nat; h2 : nat; h3 : nat; h4 : nat; h5 : nat; h6 : nat;
}.

(** [headings[f'h{i}']['count']] *)
Definition count (hs : headings) (i : nat) : nat :=
  match i with
  | 1 => h1 hs | 2 => h2 hs | 3 => h3 hs
  | 4 => h4 hs | 5 => h5 hs | 6 => h6 hs
  | _ => 0
  end%nat.

Definition _calculate_heading_hierarchy_score (hs : headings) : Z :=
  let score := 100 in
  let score :=
    if (count hs 1 =? 0)%nat then score - 30
    else if (1 <? count hs 1)%nat then score - 15
    else score in
  let score :=
    fold_left
      (fun score i =>
         if (0 <? count hs i)%nat && (count hs (i - 1) =? 0)%nat
         then score - 10 else score)
      (seq 2 5) score in
  Z.max 0 score.

(** What [_analyze_headings] returns, the heading texts apart. *)
Record heading_analysis : Type := {
  h1_status : status;
  hierarchy_score : Z;
}.

Definition _analyze_headings (hs : headings) : heading_analysis :=
  let h1_count := count hs 1 in
  let h1_status :=
    if (h1_count =? 0)%nat then critical
    else if (1 <? h1_count)%nat then warning
    else good in
  {| h1_status := h1_status;
     hierarchy_score := _calculate_heading_hierarchy_score hs |}.

Record scores : Type := {
  overall : Z;
  technical : Z;
  content : Z;
  performance : Z;
}.

(** [int(t * 0.4 + c * 0.3 + p * 0.3)]: each [int] factor is converted
    to [float], the sum is taken left to right. *)
Definition weighted (t c p : Z) : result Z :=
  tf ← of_int t; cf ← of_int c; pf ← of_int p;
  to_int (add (add (mul tf (literal 4 10)) (mul cf (literal 3 10)))
              (mul pf (literal 3 10))).

(** The image and link analyses are passed too and not read. *)
Definition _calculate_scores (title_status meta_status : status)
    (headings_result : heading_analysis) (content_status speed_status : status)
  : result scores :=
  let technical_score := 100 in
  let technical_score :=
    match title_status with
    | critical => technical_score - 20
    | warning => technical_score - 10
    | good => technical_score
    end in
  let technical_score :=
    match meta_status with
    | critical => technical_score - 20
    | warning => technical_score - 10
    | good => technical_score
    end in
  let technical_score :=
    match h1_status headings_result with
    | critical => technical_score - 15
    | warning => technical_score - 8
    | good => technical_score
    end in
  let content_score := hierarchy_score headings_result in
  let content_score :=
    match content_status with
    | critical => content_score - 30
    | warning => content_score - 15
    | good => content_score
    end in
  let performance_score := 100 in
  let performance_score :=
    match speed_status with
    | critical => performance_score - 40
    | warning => performance_score - 20
    | good => performance_score
    end in
  overall_score ← weighted technical_score content_score performance_score;
  Ok {| overall := Z.max 0 overall_score;
        technical := Z.max 0 technical_score;
        content := Z.max 0 content_score;
        performance := Z.max 0 performance_score |}.

(** [flesch_reading_ease] is textstat's; the bare [except] catches
    whatever it, or [int], raises. *)
Definition _calculate_readability
    (flesch_reading_ease : string -> result float) (text : string) : Z :=
  match (score ← flesch_reading_ease text;
         n ← to_int score;
         Ok (Z.max 0 (Z.min 100 n))) with
  | Ok value => value
  | Raise _ => 50
  end.

End seo_analyzer.

(** ** tools/image_resizer.py *)

Module image_resizer.
Import Py pyfloat.

(** [bool(x)] for an optional [int] and an optional [float]. *)
Definition truthy_int (x : option Z) : bool :=
  match x with Some n => negb (n =? 0) | None => false end.

Definition truthy_float (x : option float) : bool :=
  match x with Some a => truthy a | None => false end.

(** [int(x * percentage / 100)] *)
Definition scale_by (x : Z) (percentage : float) : result Z :=
  xf ← of_int x; hundred ← of_int 100;
  scaled ← div (mul xf percentage) hundred;
  to_int scaled.

(** [int(x * aspect_ratio)] and [int(x / aspect_ratio)] for an [int] [x]. *)
Definition int_times (x : Z) (aspect_ratio : float) : result Z :=
  xf ← of_int x; to_int (mul xf aspect_ratio).

Definition int_over (x : Z) (aspect_ratio : float) : result Z :=
  xf ← of_int x; q ← div xf aspect_ratio; to_int q.

(** The part of [resize_image] between opening the image and resizing
    it: the checks of the parameters, the new dimensions from the
    original ones ([img.size]) and the minimum of one pixel.  An error
    while computing is wrapped as every error of the [try] block is. *)
Definition resize_image_size (orig_width orig_height : Z)
    (width height : option Z) (percentage : option float)
    (maintain_aspect : bool) (quality : Z) : result (Z * Z) :=
  if negb (truthy_int width || truthy_int height || truthy_float percentage) then
    Raise (ValueError "Must specify width, height, or percentage")
  else if truthy_float percentage
          && match percentage with
             | Some p => le p (Finite 0) || lt (Finite 500) p
             | None => false
             end then
    Raise (ValueError "Percentage must be between 1 and 500")
  else if (quality <? 1) || (100 <? quality) then
    Raise (ValueError "Quality must be between 1 and 100")
  else
    let computed : result (Z * Z) :=
      if truthy_float percentage then
        match percentage with
        | Some p =>
            new_width ← scale_by orig_width p;
            new_height ← scale_by orig_height p;
            Ok (new_width, new_height)
        | None => Raise (TypeError "unsupported operand type(s) for *")
        end
      else if truthy_int width && truthy_int height then
        match width, height with
        | Some w, Some h =>
            if maintain_aspect then
              aspect_ratio ← int_truediv orig_width orig_height;
              ratio ← int_truediv w h;
              if lt aspect_ratio ratio then
                w' ← int_times h aspect_ratio; Ok (w', h)
              else
                h' ← int_over w aspect_ratio; Ok (w, h')
            else Ok (w, h)
        | _, _ => Raise (TypeError "unsupported operand type(s) for /")
        end
      else if truthy_int width then
        match width with
        | Some w =>
            aspect_ratio ← int_truediv orig_width orig_height;
            new_height ← int_over w aspect_ratio;
            Ok (w, new_height)
        | None => Raise (TypeError "unsupported operand type(s) for /")
        end
      else
        aspect_ratio ← int_truediv orig_width orig_height;
        match height with
        | Some h =>
            new_width ← int_times h aspect_ratio;
            Ok (new_width, h)
        | None => Raise (TypeError "unsupported operand type(s) for *")
        end in
    match computed with
    | Ok (new_width, new_height) => Ok (Z.max 1 new_width, Z.max 1 new_height)
    | Raise e => Raise (Exception ("Failed to resize image: " +:+ str_exn e))
    end.

(** The dict [get_resize_preview] returns; the rounded percentage of
    the size change, a display value, is left out. *)
Inductive preview : Type :=
| Preview (new_width new_height : Z) (is_enlargement aspect_ratio_maintained : bool)
| PreviewError (error : string).

Definition get_resize_preview (original_width original_height : Z)
    (width height : option Z) (percentage : option float)
    (maintain_aspect : bool) : preview :=
  let computed : result (Z * Z) :=
    if truthy_float percentage then
      match percentage with
      | Some p =>
          new_width ← scale_by original_width p;
          new_height ← scale_by original_height p;
          Ok (new_width, new_height)
      | None => Raise (TypeError "unsupported operand type(s) for *")
      end
    else if truthy_int width && truthy_int height then
      match width, height with
      | Some w, Some h =>
          if maintain_aspect then
            aspect_ratio ← int_truediv original_width original_height;
            ratio ← int_truediv w h;
            if lt aspect_ratio ratio then
              w' ← int_times h aspect_ratio; Ok (w', h)
            else
              h' ← int_over w aspect_ratio; Ok (w, h')
          else Ok (w, h)
      | _, _ => Raise (TypeError "unsupported operand type(s) for /")
      end
    else if truthy_int width then
      match width with
      | Some w =>
          aspect_ratio ← int_truediv original_width original_height;
          new_height ← int_over w aspect_ratio;
          Ok (w, new_height)
      | None => Raise (TypeError "unsupported operand type(s) for /")
      end
    else
      aspect_ratio ← int_truediv original_width original_height;
      match height with
      | Some h =>
          new_width ← int_times h aspect_ratio;
          Ok (new_width, h)
      | None => Raise (TypeError "unsupported operand type(s) for *")
      end in
  match ('(new_width, new_height) ← computed;
         size_change ← int_truediv (new_width * new_height)
                                   (original_width * original_height);
         Ok (Preview (Z.max 1 new_width) (Z.max 1 new_height)
                     (lt (Finite 1) size_change) maintain_aspect)) with
  | Ok dict => dict
  | Raise e => PreviewError (str_exn e)
  end.

End image_resizer.

(** ** models/database.py: the default tool configurations *)

Module database_setup.

Record AIToolConfig : Type := {
  tool_name : string;
  is_enabled : bool;
  daily_limit_free : Z;
  daily_limit_premium : Z;
}.

(** The [ai_tool_config] table. *)
Abbreviation config_table := (list AIToolConfig).

Definition ai_tools : list string :=
  ["blog_generator"; "article_summarizer"; "paraphraser"; "grammar_checker";
   "headline_generator"; "meta_description_generator";
   "product_description_generator"; "email_writer"; "social_media_generator";
   "ad_copy_generator"; "content_rewriter"; "content_expander";
   "outline_generator"; "faq_generator"; "interview_questions";
   "resume_bullets"].

(** [AIToolConfig.query.filter_by(tool_name=tool_name).first()] *)
Definition first_by_name (table : config_table) (name : string)
  : option AIToolConfig :=
  List.find (fun c => String.eqb (tool_name c) name) table.

(** The loop over the names.  The session flushes its pending rows
    before each query, so [table] holds them already. *)
Fixpoint add_missing (names : list string) (table : config_table) : config_table :=
  match names with
  | [] => table
  | name :: rest =>
      match first_by_name table name with
      | Some _ => add_missing rest table
      | None =>
          add_missing rest
            (table ++ [ {| tool_name := name; is_enabled := true;
                           daily_limit_free := 3; daily_limit_premium := -1 |} ])
      end
  end.

(** [commit_ok] tells whether [db.session.commit()] returns; when it
    raises the session is rolled back. *)
Definition create_default_ai_tools (commit_ok : bool) (table : config_table)
  : config_table :=
  let pending := add_missing ai_tools table in
  if commit_ok then pending else table.

End database_setup.

(** ** services/gemini_service.py *)

Module gemini_service.
Import Py.

(** One call of [client.models.generate_content]: a response, whose
    [text] may be [None], or an exception. *)
Inductive api_outcome : Type :=
| Response (text : option string)
| ApiError (e : exn).

(** The service object and what it has done so far: whether it holds
    a client, the calls made to the API and the seconds slept. *)
Record service : Type := {
  client : bool;
  api_calls : nat;
  sleeps : nat;
}.

Section with_api.

(** The environment and the API are outside the repository:
    [api_key_found] is whether [GEMINI_API_KEY] is set,
    [new_client_ok] whether [genai.Client] returns, and [api k prompt]
    is what the [k]-th call of the API does. *)
Variable api_key_found : bool.
Variable new_client_ok : bool.
Variable api : nat -> string -> api_outcome.

Definition _initialize_client : M service unit :=
  if negb api_key_found then mret tt
  else
    modify (fun s => {| client := new_client_ok; api_calls := api_calls s;
                        sleeps := sleeps s |}).

Definition call_api (prompt : string) : M service api_outcome :=
  s ← get;
  _ ← put {| client := client s; api_calls := S (api_calls s); sleeps := sleeps s |};
  mret (api (api_calls s) prompt).

(** [time.sleep(1)] *)
Definition sleep : M service unit :=
  modify (fun s => {| client := client s; api_calls := api_calls s;
                      sleeps := S (sleeps s) |}).

(** The turns of [for attempt in range(max_retries)] from [attempt]
    on, [remaining] of them. *)
Fixpoint attempts (prompt : string) (max_retries attempt : Z) (remaining : nat)
  : M service string :=
  match remaining with
  | O => mret "Failed to generate content after multiple attempts."
  | S remaining' =>
      outcome ← call_api prompt;
      match outcome with
      | Response text =>
          if truthy_opt_str text then mret (strip (default "" text))
          else attempts prompt max_retries (attempt + 1) remaining'
      | ApiError e =>
          if attempt <? max_retries - 1 then
            _ ← sleep;
            attempts prompt max_retries (attempt + 1) remaining'
          else mret ("AI generation failed: " +:+ str_exn e)
      end
  end.

Definition _generate_content (prompt : string) (max_retries : Z)
  : M service string :=
  s ← get;
  no_client ← (if negb (client s) then
                 _ ← _initialize_client;
                 s' ← get;
                 mret (negb (client s'))
               else mret false);
  if (no_client : bool) then
    mret "AI service is currently unavailable. Please check configuration."
  else attempts prompt max_retries 0 (Z.to_nat max_retries).

Definition generate_content (prompt : string) : M service string :=
  _generate_content prompt 3.

End with_api.
End gemini_service.

(** ** tools/pdf_toolkit.py: splitting, and the pages to rotate *)

Module pdf_pages.
Import Py os pdf_toolkit.

(** [RuntimeError] is not told apart from [Exception], its base class:
    no handler of the embedded code names it. *)
Definition RuntimeError (msg : string) : exn := Exception msg.

(** [list(range(start, stop))] *)
Definition range (start stop : Z) : list Z :=
  List.map (fun i => start + Z.of_nat i) (seq 0 (Z.to_nat (stop - start))).

(** The pages [_rotate_pdf_pymupdf] and [_rotate_pdf_pypdf2] rotate,
    as indexes from 0, for a document of [total] pages. *)
Definition page_list (pages : string) (total : Z) : result (list Z) :=
  if String.eqb (lower pages) "all" then Ok (range 0 total)
  else
    page_ranges ← _parse_page_ranges pages total;
    Ok (concat (List.map (fun '(start, stop) => range (start - 1) stop)
                         page_ranges)).

Section with_libs.
Context `{libs : ToolkitLibs}.

(** What the libraries do to a document, by the library's name:
    [open_pdf] opens the bytes of a file and tells the number of
    pages, [extract] makes the bytes of a new document from the pages
    [from_page] to [to_page], counted from 0.  Either may raise.
    [mkdtemp_name] is the directory [tempfile.mkdtemp] makes. *)
Variable open_pdf : string -> string -> result nat.
Variable extract : string -> string -> Z -> Z -> result string.
Variable mkdtemp_name : fs -> string.

(** One output file: the pages are taken out, then saved. *)
Definition save_pages (library bytes output_path : string) (from_page to_page : Z)
  : M fs string :=
  new_doc ← lift (extract library bytes from_page to_page);
  _ ← write_bytes output_path new_doc;
  mret output_path.

(** [_split_pdf_pymupdf] and [_split_pdf_pypdf2], which differ in the
    library they call. *)
Definition split_with (library input_path pages output_dir : string)
  : M fs (list string) :=
  bytes ← read_bytes input_path;
  total ← lift (open_pdf library bytes);
  if String.eqb (lower pages) "all" then
    map_each (fun page_num =>
                save_pages library bytes
                  (path_join output_dir
                     ("page_" +:+ pretty (page_num + 1) +:+ ".pdf"))
                  page_num page_num)
             (range 0 (Z.of_nat total))
  else
    page_ranges ← lift (_parse_page_ranges pages (Z.of_nat total));
    map_each (fun '(start, stop) =>
                save_pages library bytes
                  (path_join output_dir
                     ("pages_" +:+ pretty start +:+ "-" +:+ pretty stop
                      +:+ ".pdf"))
                  (start - 1) (stop - 1))
             page_ranges.

Definition split_pdf (input_path pages : string) (output_dir : option string)
  : M fs (list string) :=
  found ← path_exists input_path;
  if negb found then
    raise (FileNotFoundError ("PDF file not found: " +:+ input_path))
  else
    output_dir ← match output_dir with
                 | None => files ← get; mret (mkdtemp_name files)
                 | Some directory => mret directory
                 end;
    if PYMUPDF_AVAILABLE then split_with "pymupdf" input_path pages output_dir
    else if PYPDF2_AVAILABLE then split_with "pypdf2" input_path pages output_dir
    else raise (RuntimeError "No suitable PDF library available for splitting").

(** A call [toolkit.split_pdf(input_path, pages, output_dir, *surplus)]:
    Python binds the positional arguments to the parameters in order
    and, before the body runs, raises [TypeError] when more are given
    than the method has parameters. *)
Definition call_split_pdf (input_path pages : string) (output_dir : option string)
    (surplus : list Z) : M fs (list string) :=
  match surplus with
  | [] => split_pdf input_path pages output_dir
  | _ :: _ =>
      raise (TypeError
        ("PDFToolkit.split_pdf() takes from 3 to 4 positional arguments but "
         +:+ pretty (4 + Z.of_nat (length surplus)) +:+ " were given"))
  end.

End with_libs.
End pdf_pages.

(** ** routes/tools.py: the split route *)

Module tools_split.
Import Py os flask tools_routes pdf_pages.

Section with_libs.
Context `{libs : ToolkitLibs}.

Variable open_pdf : string -> string -> result nat.
Variable extract : string -> string -> Z -> Z -> result string.
Variable mkdtemp_name : fs -> string.

(** Werkzeug's [secure_filename], the time stamp of the request and
    the upload folder come from outside; so do the file system's answer
    to a save and what [send_file] makes of the list of paths that
    [split_pdf] returns. *)
Variable secure_filename : string -> string.
Variable timestamp : string.
Variable UPLOAD_FOLDER : string.
Variable os_save : fs -> string -> string -> save_outcome.
Variable send_file : list string -> string -> M fs response.

(** [int(request.form.get(key, default))] for an [int] default. *)
Definition form_int (form : list (string * string)) (key : string) (default : Z)
  : result Z :=
  match List.find (fun kv => String.eqb (fst kv) key) form with
  | Some kv => int_of_str (snd kv)
  | None => Ok default
  end.

Definition form_str (form : list (string * string)) (key default : string)
  : string :=
  match List.find (fun kv => String.eqb (fst kv) key) form with
  | Some kv => snd kv
  | None => default
  end.

(** [request_file] is what [request.files.get('pdf_file')] comes to:
    the upload if there is one, or the exception that reading the body
    raises; the call stands inside the [try].  A [FileStorage] is
    truthy when its file name is not empty. *)
Definition pdf_split_process (request_file : result (option upload))
    (form : list (string * string)) : M fs response :=
  try_except
    (file ← lift request_file;
     match file with
     | Some f =>
         if String.eqb (filename f) ""
            || negb (allowed_file (filename f) (Some "split")) then
           mret (jsonify [("error", JStr "Valid PDF file is required")] 400)
         else
           let filepath :=
             path_join UPLOAD_FOLDER
                       (timestamp +:+ "_" +:+ secure_filename (filename f)) in
           _ ← file_save os_save filepath (data f);
           let split_method := form_str form "split_method" "all_pages" in
           let page_range := form_str form "page_range" "" in
           split_interval ← lift (form_int form "split_interval" 1);
           _ ← lift pdf_toolkit.PDFToolkit_init;
           output_path ← call_split_pdf open_pdf extract mkdtemp_name
                           filepath split_method (Some page_range)
                           [split_interval];
           found ← path_exists filepath;
           _ ← (if (found : bool) then remove filepath else mret tt);
           let download_name :=
             if negb (String.eqb split_method "extract_pages")
             then "split_pages.zip" else "extracted_pages.pdf" in
           send_file output_path download_name
     | None => mret (jsonify [("error", JStr "Valid PDF file is required")] 400)
     end)
    (fun e => mret (jsonify [("error", JStr ("Split failed: " +:+ str_exn e))] 500)).

End with_libs.
End tools_split.

(** ** tools/pdf_merge.py: validation *)

Module pdf_validation.
Import Py os.

(** [s.endswith(suffix)] *)
Fixpoint endswith (suffix s : string) : bool :=
  String.eqb s suffix
  || match s with
     | EmptyString => false
     | String _ r => endswith suffix r
     end.

(** [PDFMerger.validate_pdf_file]; reading an existing file is taken
    not to fail, so the handler is not met. *)
Definition validate_pdf_file (file_path : string) : M fs bool :=
  try_except
    (found ← path_exists file_path;
     if negb found then mret false
     else if negb (endswith ".pdf" (lower file_path)) then mret false
     else
       bytes ← read_bytes file_path;
       let header := slice_to 5 bytes in
       mret (String.eqb header "%PDF-"))
    (fun _ => mret false).

End pdf_validation.

(** ** services/seo_analyzer.py: the page analyses and the findings *)

Module seo_audit.
Import Py pyfloat seo_analyzer.

(** The dict of [_analyze_title] and [_analyze_meta_description]; the
    keys are [exists], [length], [text] and [status]. *)
Record tag_analysis : Type := {
  tag_exists : bool;
  tag_length : Z;
  tag_text : string;
  tag_status : status;
}.

Definition missing_tag : tag_analysis :=
  {| tag_exists := false; tag_length := 0; tag_text := ""; tag_status := critical |}.

(** [len(s)], on the ASCII range. *)
Definition len (s : string) : Z := Z.of_nat (String.length s).

(** [title_tag] is [soup.find('title')] as the text of the tag. *)
Definition _analyze_title (title_tag : option string) : tag_analysis :=
  match title_tag with
  | None => missing_tag
  | Some tag_text_ =>
      let title_text := strip tag_text_ in
      let length := len title_text in
      let status :=
        if length =? 0 then critical
        else if (length <? 30) || (60 <? length) then warning
        else good in
      {| tag_exists := true; tag_length := length; tag_text := title_text;
         tag_status := status |}
  end.

(** [meta_desc] is the tag found, as its [content] attribute if it
    has one. *)
Definition _analyze_meta_description (meta_desc : option (option string))
  : tag_analysis :=
  match meta_desc with
  | None => missing_tag
  | Some attribute =>
      let content := strip (default "" attribute) in
      let length := len content in
      let status :=
        if length =? 0 then critical
        else if (length <? 120) || (160 <? length) then warning
        else good in
      {| tag_exists := true; tag_length := length; tag_text := content;
         tag_status := status |}
  end.

(** [len(text.split())]: the runs of characters that are not white
    space. *)
Fixpoint count_words (in_word : bool) (text : string) : Z :=
  match text with
  | EmptyString => 0
  | String c r =>
      if is_space c then count_words false r
      else (if in_word then 0 else 1) + count_words true r
  end.

Record content_analysis : Type := {
  word_count : Z;
  char_count : Z;
  readability_score : Z;
  content_status : status;
}.

(** [text] is the text of the page without scripts and styles. *)
Definition _analyze_content (flesch_reading_ease : string -> result float)
    (text : string) : content_analysis :=
  let words := count_words false text in
  let chars := len text in
  {| word_count := words; char_count := chars;
     readability_score := _calculate_readability flesch_reading_ease text;
     content_status :=
       if 300 <? words then good else if 100 <? words then warning else critical |}.

(** The findings, each by its title; the descriptions, which are
    display texts, are left out.  Of the image analysis only
    [alt_coverage] is read for the titles; the link analysis is not
    read. *)
Definition _generate_recommendations (title_analysis meta_analysis : tag_analysis)
    (headings_result : heading_analysis) (alt_coverage : float)
    (content_result : content_analysis) : list string * list string :=
  let issues : list string := [] in
  let warnings : list string := [] in
  let issues :=
    if negb (tag_exists title_analysis) then issues ++ ["Missing Page Title"]
    else if tag_length title_analysis =? 0 then issues ++ ["Empty Title Tag"]
    else issues in
  let issues :=
    if negb (tag_exists meta_analysis) then issues ++ ["Missing Meta Description"]
    else issues in
  let issues :=
    match h1_status headings_result with
    | critical => issues ++ ["Missing H1 Tag"]
    | _ => issues
    end in
  let issues :=
    match content_status content_result with
    | critical => issues ++ ["Insufficient Content"]
    | _ => issues
    end in
  let warnings :=
    if 60 <? tag_length title_analysis then warnings ++ ["Title Tag Too Long"]
    else if tag_length title_analysis <? 30 then warnings ++ ["Title Tag Too Short"]
    else warnings in
  let warnings :=
    if tag_exists meta_analysis
       && ((160 <? tag_length meta_analysis) || (tag_length meta_analysis <? 120))
    then warnings ++ ["Meta Description Length Issue"]
    else warnings in
  let warnings :=
    if lt alt_coverage (Finite 90) then warnings ++ ["Missing Image Alt Text"]
    else warnings in
  let warnings :=
    match h1_status headings_result with
    | warning => warnings ++ ["Multiple H1 Tags"]
    | _ => warnings
    end in
  (issues, warnings).

End seo_audit.

(* ===================================================================== *)
(** * Part II: properties                                                *)
(* ===================================================================== *)

Section database_facts.
Import database.

(** The rows of [db] that belong to [u] and were written on [day],
    whatever the tool. *)
Definition rows_of_day (db : usage_table) (u : User) (day : Z) : list Usage :=
  filter (fun r => user_id r = id u /\ dt_date (used_at r) = day) db.

Lemma get_daily_usage_count_all db today u :
  get_daily_usage_count db today u None None
  = Z.of_nat (length (rows_of_day db u today)).
Proof.
  unfold get_daily_usage_count, usage_records, rows_of_day.
  cbn [Py.truthy_opt_str]. rewrite list_filter_filter.
  do 2 f_equal. apply list_filter_iff. tauto.
Qed.

(** C1. A premium user may always use a tool; a free user may use one
    exactly when fewer than 3 usage rows of that user carry today's
    date, counted over all tools; the tool asked for plays no part. *)
Theorem can_use_tool_spec (db : usage_table) (today : Z) (u : User) (tool : string) :
  can_use_tool db today u tool
  = match role u with
    | PREMIUM => true
    | FREE => bool_decide (length (rows_of_day db u today) < 3)%nat
    end.
Proof.
  unfold can_use_tool, is_premium. destruct (role u).
  - rewrite bool_decide_eq_false_2 by congruence.
    rewrite get_daily_usage_count_all.
    destruct (Z.ltb_spec (Z.of_nat (length (rows_of_day db u today))) 3).
    + symmetry. apply bool_decide_eq_true_2. lia.
    + symmetry. apply bool_decide_eq_false_2. lia.
  - by rewrite bool_decide_eq_true_2.
Qed.

(** Three rows of today close the gate for a free user, two do not, and
    rows of another day or another user do not count. *)
Example can_use_tool_examples :
  let u := {| id := 7; username := "ann"; role := FREE |} in
  let row uid day tool :=
    {| user_id := uid; tool_name := tool;
       used_at := {| dt_date := day; dt_seconds := 0 |};
       input_data := None; output_data := None |} in
  can_use_tool [row 7 100 "paraphraser"; row 7 100 "email_writer";
                row 7 100 "ai_generate"] 100 u "paraphraser" = false
  /\ can_use_tool [row 7 100 "paraphraser"; row 7 99 "paraphraser";
                   row 8 100 "paraphraser"; row 7 100 "ad_copy"] 100 u
                  "paraphraser" = true.
Proof. split; reflexivity. Qed.

End database_facts.

Section ai_tools_facts.
Import Py flask database ai_tools.

Ltac unfold_M :=
  unfold mbind, M_bind, mbindM, mret, M_ret, ret, raise, lift, get, put,
    modify, try_except in *.

(** The [prompt] the view reads from an object body. *)
Definition prompt_of (fields : list (string * json)) : json :=
  default JNull (dict_get "prompt" fields).

(** Today's count of a user, as the view sees it. *)
Definition count_today (e : env) (w : world) (u : User) : Z :=
  get_daily_usage_count (usage w) (today e) u None None.

(** The limit check lets the request through. *)
Definition permitted (e : env) (w : world) (u : User) : Prop :=
  role u = PREMIUM \/ (role u = FREE /\ db_query_ok e = true /\ count_today e w u < 3).

Definition unavailable (reply : string) : bool :=
  String.prefix "AI service is currently unavailable" reply.

(** The row [record_usage] writes for a string prompt. *)
Definition usage_row (e : env) (u : User) (prompt reply : string) : Usage :=
  {| user_id := id u; tool_name := "ai_generate"; used_at := utcnow e;
     input_data := Some (slice_to 500 prompt);
     output_data := if String.eqb reply "" then None
                    else Some (slice_to 1000 reply) |}.

Lemma check_usage_limit_logged_in e w u tool :
  current_user e = LoggedIn u ->
  check_usage_limit e tool w =
    if is_premium u then
      (Ok {| allowed := true; message := "Premium user - unlimited access";
             redirect := None |}, w)
    else if db_query_ok e then
      if 3 <=? count_today e w u then
        (Ok {| allowed := false;
               message := "Daily limit reached (" ++ pretty (count_today e w u)
                          ++ "/3). Upgrade to Premium for unlimited access.";
               redirect := Some "auth.upgrade" |}, w)
      else
        (Ok {| allowed := true;
               message := "Free usage: " ++ pretty (count_today e w u + 1)
                          ++ "/3 today";
               redirect := None |}, w)
    else (Raise (LibraryError "database query failed"), w).
Proof.
  intros Hcu. unfold check_usage_limit, daily_usage_count, count_today.
  rewrite Hcu. cbn [is_authenticated negb].
  destruct (is_premium u); [done|].
  unfold_M. destruct (db_query_ok e); [|done].
  by destruct (3 <=? _).
Qed.

Lemma is_premium_role u : is_premium u = bool_decide (role u = PREMIUM).
Proof. done. Qed.

Lemma record_usage_premium e w u tool input output :
  current_user e = LoggedIn u -> role u = PREMIUM ->
  record_usage e tool input output w = (Ok tt, w).
Proof.
  intros Hcu Hrole. unfold record_usage. rewrite Hcu, is_premium_role.
  by rewrite bool_decide_eq_true_2.
Qed.

Lemma record_usage_free_str e w u tool s output :
  current_user e = LoggedIn u -> role u = FREE -> s <> "" ->
  db_commit_ok e = true ->
  record_usage e tool (JStr s) output w =
    (Ok tt, add_usage {| user_id := id u; tool_name := tool; used_at := utcnow e;
                         input_data := Some (slice_to 500 s);
                         output_data := output_column output |} w).
Proof.
  intros Hcu Hrole Hs Hc. unfold record_usage. rewrite Hcu, is_premium_role.
  rewrite bool_decide_eq_false_2 by congruence. cbn [negb].
  unfold_M. unfold input_column, session_add_commit. cbn [truthy].
  destruct (String.eqb_spec s ""); [done|]. cbn [negb].
  rewrite Hc. done.
Qed.

Lemma record_usage_usage_mono e w tool input output :
  exists rows, record_usage e tool input output w
               = (Ok tt, {| usage := usage w ++ rows; ai_calls := ai_calls w |})
               /\ (length rows <= 1)%nat.
Proof.
  unfold record_usage.
  assert (Hid : w = {| usage := usage w ++ []; ai_calls := ai_calls w |}).
  { destruct w; cbn. by rewrite app_nil_r. }
  destruct (current_user e) as [|u].
  { exists []. split; [by rewrite <- Hid | cbn; lia]. }
  destruct (is_premium u); cbn [negb].
  { exists []. split; [by rewrite <- Hid | cbn; lia]. }
  unfold_M. destruct (input_column input) as [col|ex].
  - unfold session_add_commit. destruct (db_commit_ok e).
    + eexists [_]. split; [reflexivity | cbn; lia].
    + exists []. unfold raise. split; [by rewrite <- Hid | cbn; lia].
  - exists []. split; [by rewrite <- Hid | cbn; lia].
Qed.

Lemma ai_generate_allowed e w u fields :
  current_user e = LoggedIn u ->
  truthy (prompt_of fields) = true ->
  permitted e w u ->
  let prompt := prompt_of fields in
  let reply := gemini e (generate_content prompt) in
  let w1 := add_ai_call (generate_content prompt) w in
  ai_generate e (Ok (JObj fields)) w =
    if unavailable reply then (Ok (error_json reply 503), w1)
    else (Ok (jsonify [("output", JStr reply)] 200),
          snd (record_usage e "ai_generate" prompt (Some reply) w1)).
Proof.
  intros Hcu Htruthy Hperm. cbn zeta.
  unfold ai_generate. unfold_M. cbn [json_get].
  fold (prompt_of fields). rewrite Htruthy. cbn [negb].
  rewrite (check_usage_limit_logged_in e w u) by done.
  assert (Hallow : exists msg,
    (if is_premium u then
       (Ok {| allowed := true; message := "Premium user - unlimited access";
              redirect := None |}, w)
     else if db_query_ok e then
       if 3 <=? count_today e w u then
         (Ok {| allowed := false;
                message := "Daily limit reached (" ++ pretty (count_today e w u)
                           ++ "/3). Upgrade to Premium for unlimited access.";
                redirect := Some "auth.upgrade" |}, w)
       else
         (Ok {| allowed := true;
                message := "Free usage: " ++ pretty (count_today e w u + 1)
                           ++ "/3 today";
                redirect := None |}, w)
     else (Raise (LibraryError "database query failed"), w))
    = (Ok {| allowed := true; message := msg; redirect := None |}, w)).
  { rewrite is_premium_role. destruct Hperm as [Hp | (Hf & Hq & Hc)].
    - rewrite bool_decide_eq_true_2 by done. eauto.
    - rewrite bool_decide_eq_false_2 by congruence. rewrite Hq.
      destruct (Z.leb_spec 3 (count_today e w u)); [lia | eauto]. }
  destruct Hallow as [msg ->]. cbn [allowed negb].
  unfold call_gemini. unfold_M.
  set (reply := gemini e (generate_content (prompt_of fields))).
  set (w1 := add_ai_call (generate_content (prompt_of fields)) w).
  unfold unavailable. destruct (String.prefix _ reply); [done|].
  destruct (record_usage_usage_mono e w1 "ai_generate" (prompt_of fields)
              (Some reply)) as (rows & -> & _). done.
Qed.

(** C2, as the code has it.  For a logged-in user every request to
    [/ai/generate] is answered, and
    - 400, nothing written, when the body is an object whose prompt is
      absent or falsy;
    - 403, nothing written and the service not called, when the prompt
      is there and a free user already has 3 or more rows of today;
    - 503, no usage written, when the check lets the request through
      and the reply starts with "AI service is currently unavailable";
    - 200 with the reply as output otherwise; then a free user with a
      string prompt gets exactly one new usage row when the commit
      succeeds, and a premium user gets none;
    - 500, nothing written, when the body cannot be decoded, is not an
      object, or the usage query of a free user fails. *)
Theorem ai_generate_status_map (e : env) (w : world) (body : result json) (u : User) :
  current_user e = LoggedIn u ->
  exists r w', ai_generate e body w = (Ok r, w') /\
    (forall fields, body = Ok (JObj fields) ->
       truthy (prompt_of fields) = false -> status r = 400 /\ w' = w) /\
    (forall fields, body = Ok (JObj fields) ->
       truthy (prompt_of fields) = true -> role u = FREE ->
       db_query_ok e = true -> 3 <= count_today e w u ->
       status r = 403 /\ w' = w) /\
    (forall fields, body = Ok (JObj fields) ->
       truthy (prompt_of fields) = true -> permitted e w u ->
       unavailable (gemini e (generate_content (prompt_of fields))) = true ->
       status r = 503 /\ usage w' = usage w) /\
    (forall fields, body = Ok (JObj fields) ->
       truthy (prompt_of fields) = true -> permitted e w u ->
       let reply := gemini e (generate_content (prompt_of fields)) in
       unavailable reply = false ->
       r = jsonify [("output", JStr reply)] 200 /\
       ai_calls w' = ai_calls w ++ [generate_content (prompt_of fields)] /\
       (role u = PREMIUM -> usage w' = usage w) /\
       (role u = FREE -> forall s, prompt_of fields = JStr s ->
          db_commit_ok e = true ->
          usage w' = usage w ++ [usage_row e u s reply])) /\
    ((is_ok body = false
      \/ (exists data, body = Ok data /\ forall fields, data <> JObj fields)
      \/ (exists fields, body = Ok (JObj fields) /\
            truthy (prompt_of fields) = true /\ role u = FREE /\
            db_query_ok e = false)) ->
     status r = 500 /\ w' = w).
Proof.
  intros Hcu.
  destruct body as [data|ex]; cycle 1.
  { (* request.json raises *)
    eexists _, _. split; [reflexivity|].
    repeat split; try discriminate; try done. }
  destruct data as [ | b | n | s | items | fields];
    try solve
      [ eexists _, _; split; [reflexivity|];
        split; [discriminate|]; split; [discriminate|];
        split; [discriminate|]; split; [discriminate|]; done ].
  destruct (truthy (prompt_of fields)) eqn:Htruthy; cycle 1.
  { (* no prompt *)
    eexists _, _. split.
    { unfold ai_generate. unfold_M. cbn [json_get]. fold (prompt_of fields).
      rewrite Htruthy. reflexivity. }
    split; [done|].
    split; [intros ? [= <-]; congruence|].
    split; [intros ? [= <-]; congruence|].
    split; [intros ? [= <-]; congruence|].
    intros [Hb | [(data & [= <-] & Hno) | (f & [= <-] & Ht & _)]];
      [done | by destruct (Hno fields) | congruence]. }
  assert (Hrun : ai_generate e (Ok (JObj fields)) w =
    match check_usage_limit e "ai_generate" w with
    | (Ok chk, w0) =>
        if allowed chk then ai_generate e (Ok (JObj fields)) w
        else (Ok (error_json (message chk) 403), w0)
    | (Raise _, w0) => (Ok (error_json "Content generation failed" 500), w0)
    end).
  { unfold ai_generate at 1. unfold_M. cbn [json_get]. fold (prompt_of fields).
    rewrite Htruthy. cbn [negb].
    destruct (check_usage_limit e "ai_generate" w) as [[chk|ex] w0] eqn:Hchk; [|done].
    destruct (allowed chk) eqn:Hall; [|done].
    unfold ai_generate. unfold_M. cbn [json_get]. fold (prompt_of fields).
    rewrite Htruthy. cbn [negb]. rewrite Hchk. cbn [negb]. rewrite Hall. done. }
  destruct (decide (permitted e w u)) as [Hperm | Hnperm].
  - (* the check lets the request through *)
    pose proof (ai_generate_allowed e w u fields Hcu Htruthy Hperm) as Hgo.
    cbn zeta in Hgo. rewrite Hgo.
    destruct (unavailable (gemini e (generate_content (prompt_of fields)))) eqn:Hun.
    + eexists _, _. split; [reflexivity|].
      split; [intros ? [= <-]; congruence|].
      split. { intros ? [= <-] _ Hfree _ Hge.
               destruct Hperm as [? | (_ & _ & ?)]; [congruence | lia]. }
      split; [done|].
      split; [intros ? [= <-] _ _; cbn zeta; congruence|].
      intros [Hb | [(data & [= <-] & Hno) | (f & [= <-] & _ & Hfree & Hq)]];
        [done | by destruct (Hno fields) |].
      destruct Hperm as [? | (_ & ? & _)]; congruence.
    + eexists _, _. split; [reflexivity|].
      split; [intros ? [= <-]; congruence|].
      split. { intros ? [= <-] _ Hfree _ Hge.
               destruct Hperm as [? | (_ & _ & ?)]; [congruence | lia]. }
      split; [intros ? [= <-] _ _; congruence|].
      split.
      * intros ? [= <-] _ _ reply0 _. subst reply0. split; [done|].
        set (reply := gemini e (generate_content (prompt_of fields))).
        set (w1 := add_ai_call (generate_content (prompt_of fields)) w).
        split.
        { destruct (record_usage_usage_mono e w1 "ai_generate" (prompt_of fields)
                      (Some reply)) as (rows & -> & _). done. }
        split.
        { intros Hprem. by rewrite (record_usage_premium e w1 u). }
        intros Hfree s Hs Hcommit. rewrite Hs.
        rewrite (record_usage_free_str e w1 u) by
          (try done; intros ->; rewrite Hs in Htruthy; discriminate).
        cbn. unfold usage_row, output_column. cbn.
        by destruct (String.eqb reply "").
      * intros [Hb | [(data & [= <-] & Hno) | (f & [= <-] & _ & Hfree & Hq)]];
          [done | by destruct (Hno fields) |].
        destruct Hperm as [? | (_ & ? & _)]; congruence.
  - (* the check stops the request, or the query fails *)
    assert (Hfree : role u = FREE).
    { destruct (role u) eqn:Hr; [done|]. destruct Hnperm. by left. }
    rewrite Hrun, (check_usage_limit_logged_in e w u) by done.
    rewrite is_premium_role, bool_decide_eq_false_2 by congruence.
    destruct (db_query_ok e) eqn:Hq.
    + destruct (Z.leb_spec 3 (count_today e w u)) as [Hge|Hlt].
      * cbn [allowed]. eexists _, _. split; [reflexivity|].
        split; [intros ? [= <-]; congruence|].
        split; [done|].
        split; [intros ? [= <-] _ Hperm; by destruct Hnperm|].
        split; [intros ? [= <-] _ Hperm; by destruct Hnperm|].
        intros [Hb | [(data & [= <-] & Hno) | (f & [= <-] & _ & _ & ?)]];
          [done | by destruct (Hno fields) | congruence].
      * destruct Hnperm. right. done.
    + eexists _, _. split; [reflexivity|].
      split; [intros ? [= <-]; congruence|].
      split; [intros ? [= <-]; congruence|].
      split; [intros ? [= <-] _ Hperm; by destruct Hnperm|].
      split; [intros ? [= <-] _ Hperm; by destruct Hnperm|].
      done.
Qed.

(** A free user with three rows of today, asking with a prompt. *)
Definition free_user : User := {| id := 7; username := "ann"; role := FREE |}.
Definition premium_user : User := {| id := 8; username := "pat"; role := PREMIUM |}.

Definition row_of (uid day : Z) (tool : string) : Usage :=
  {| user_id := uid; tool_name := tool;
     used_at := {| dt_date := day; dt_seconds := 0 |};
     input_data := None; output_data := None |}.

Definition env_of (cu : user_proxy) (reply : string) : env :=
  {| current_user := cu; today := 100;
     utcnow := {| dt_date := 100; dt_seconds := 3600 |};
     gemini := fun _ => reply; db_query_ok := true; db_commit_ok := true |}.

Definition hi_request : result json := Ok (JObj [("prompt", JStr "hi")]).

Definition world_of (rows : usage_table) : world :=
  {| usage := rows; ai_calls := [] |}.

Lemma ai_generate_status_map_witness :
  let e := env_of (LoggedIn free_user) "Hello" in
  let w := world_of [row_of 7 100 "paraphraser"; row_of 7 100 "ad_copy";
                     row_of 7 100 "ai_generate"] in
  exists r, ai_generate e hi_request w = (Ok r, w) /\ status r = 403.
Proof.
  cbv zeta.
  destruct (ai_generate_status_map
              (env_of (LoggedIn free_user) "Hello")
              (world_of [row_of 7 100 "paraphraser"; row_of 7 100 "ad_copy";
                         row_of 7 100 "ai_generate"])
              hi_request free_user eq_refl)
    as (r & w' & Hrun & _ & H403 & _).
  destruct (H403 [("prompt", JStr "hi")] eq_refl eq_refl eq_refl eq_refl)
    as [Hst Hw].
  { vm_compute. discriminate. }
  exists r. rewrite Hw in Hrun. split; [exact Hrun | exact Hst].
Defined.

(** A premium user's request is answered with status 200 and leaves the
    usage table as it was: no row is recorded, where C2 says one is.
    And a body that is a JSON list, which has no prompt, is answered
    with 500, where C2 says 400. *)
Lemma ai_generate_premium_records_nothing :
  (exists r w',
      ai_generate (env_of (LoggedIn premium_user) "Hello") hi_request (world_of [])
      = (Ok r, w')
      /\ truthy (prompt_of [("prompt", JStr "hi")]) = true
      /\ unavailable "Hello" = false
      /\ r = jsonify [("output", JStr "Hello")] 200
      /\ usage w' = []
      /\ forall row, usage w' <> usage (world_of []) ++ [row])
  /\ (exists r,
      ai_generate (env_of (LoggedIn free_user) "Hello") (Ok (JArr [])) (world_of [])
      = (Ok r, world_of [])
      /\ status r = 500 /\ status r <> 400).
Proof.
  split.
  - eexists _, _. split; [vm_compute; reflexivity|].
    repeat split. intros row. cbn. discriminate.
  - eexists. split; [vm_compute; reflexivity|]. split; [reflexivity|]. cbn. lia.
Qed.

(** C5. Without an authenticated user the limit check answers
    [allowed = False] with the request to log in; [record_usage] writes
    nothing; and neither the [/ai/generate] view nor the POST branch of
    a form tool calls the service or writes a usage row, with or
    without the [login_required] wrapper. *)
Theorem anonymous_is_refused (e : env) (w : world) :
  current_user e = Anonymous ->
  (forall tool,
     check_usage_limit e tool w =
       (Ok {| allowed := false; message := "Please login to use AI tools";
              redirect := Some "auth.login" |}, w))
  /\ (forall tool input output, record_usage e tool input output w = (Ok tt, w))
  /\ (forall body, exists r,
        ai_generate e body w = (Ok r, w) /\ status r <> 200)
  /\ (forall tool read_form failure,
        ai_tool_post e tool read_form failure w =
          (Ok (tool_failure "Please login to use AI tools" (Some "auth.login")), w))
  /\ (forall view, login_required e view w =
        (Ok {| status := 302; content := LoginRedirect |}, w)).
Proof.
  intros Hcu.
  assert (Hcheck : forall tool,
     check_usage_limit e tool w =
       (Ok {| allowed := false; message := "Please login to use AI tools";
              redirect := Some "auth.login" |}, w)).
  { intros tool. unfold check_usage_limit. by rewrite Hcu. }
  split; [exact Hcheck|].
  split. { intros. unfold record_usage. by rewrite Hcu. }
  split.
  { intros body. unfold ai_generate. unfold_M.
    destruct body as [data|ex]; [|eexists; split; [reflexivity|cbn; lia]].
    destruct (json_get data "prompt") as [prompt|ex];
      [|eexists; split; [reflexivity|cbn; lia]].
    destruct (truthy prompt); cbn [negb];
      [|eexists; split; [reflexivity|cbn; lia]].
    rewrite Hcheck. cbn [allowed negb].
    eexists; split; [reflexivity|cbn; lia]. }
  split.
  { intros. unfold ai_tool_post. unfold_M. by rewrite Hcheck. }
  intros view. unfold login_required. by rewrite Hcu.
Qed.

Lemma anonymous_is_refused_witness :
  ai_tool_post (env_of Anonymous "Hello") "paraphraser"
    (paraphraser_form [("text", "some text"); ("style", "formal")])
    "Paraphrasing failed. Please try again." (world_of [])
  = (Ok (tool_failure "Please login to use AI tools" (Some "auth.login")),
     world_of []).
Proof.
  apply (anonymous_is_refused (env_of Anonymous "Hello") (world_of []) eq_refl).
Defined.

(** The same paraphraser request by a free user under the limit calls
    the service once and records one row. *)
Example paraphraser_free_user :
  paraphraser (env_of (LoggedIn free_user) "Hello")
    [("text", " some text "); ("style", "casual")] (world_of [])
  = (Ok (jsonify [("success", JBool true); ("result", JStr "Hello");
                  ("message", JStr "Free usage: 1/3 today")] 200),
     {| usage := [ {| user_id := 7; tool_name := "paraphraser";
                      used_at := {| dt_date := 100; dt_seconds := 3600 |};
                      input_data := Some "Style: casual, Length: 9";
                      output_data := Some "Hello" |} ];
        ai_calls := [tool_method "paraphrase_text" ["some text"; "casual"]] |}).
Proof. vm_compute. reflexivity. Qed.

End ai_tools_facts.

Section pdf_merge_facts.
Import Py os flask pdf_merge tools_routes.
Context `{backend : PdfBackend}.

Ltac unfold_M :=
  unfold mbind, M_bind, mbindM, mret, M_ret, ret, raise, lift, get, put,
    modify, try_except.

(** The existence check of [merge_pdfs], one path. *)
Definition check_exists (pdf_path : string) : M fs unit :=
  found ← path_exists pdf_path;
  if negb found
  then raise (FileNotFoundError ("PDF file not found: " +:+ pdf_path))
  else mret tt.

Lemma check_exists_run (files : fs) pdf_path :
  check_exists pdf_path files =
    match files !! pdf_path with
    | Some _ => (Ok tt, files)
    | None => (Raise (FileNotFoundError ("PDF file not found: " +:+ pdf_path)), files)
    end.
Proof.
  unfold check_exists, path_exists. unfold_M.
  destruct (files !! pdf_path) eqn:Hl.
  - by rewrite bool_decide_eq_true_2.
  - rewrite bool_decide_eq_false_2; [done|]. by intros [? ?].
Qed.

Lemma validate_all_present (files : fs) (pdf_paths : list string) :
  Forall (fun p => is_Some (files !! p)) pdf_paths ->
  for_each check_exists pdf_paths files = (Ok tt, files).
Proof.
  induction 1 as [|p rest [bytes Hp] _ IH]; [done|].
  cbn [for_each]. unfold_M. rewrite check_exists_run, Hp. exact IH.
Qed.

Lemma validate_some_missing (files : fs) (pdf_paths : list string) :
  Exists (fun p => files !! p = None) pdf_paths ->
  exists p, p ∈ pdf_paths /\ files !! p = None /\
    for_each check_exists pdf_paths files
    = (Raise (FileNotFoundError ("PDF file not found: " +:+ p)), files).
Proof.
  induction pdf_paths as [|q rest IH]; intros Hex.
  { by apply Exists_nil in Hex. }
  cbn [for_each]. unfold_M. rewrite check_exists_run.
  destruct (files !! q) eqn:Hq.
  - apply Exists_cons in Hex as [Hex|Hex]; [congruence|].
    destruct (IH Hex) as (p & Hin & Hp & Hrun).
    exists p. split; [by right|]. done.
  - exists q. split; [by left|]. done.
Qed.

(** One step of [merger.append]: read the input, parse it. *)
Definition read_input (pdf_path : string) : M fs pdf :=
  bytes ← read_bytes pdf_path; lift (pdf_read bytes).

Lemma run_bind {S A B} (m : M S A) (k : A -> M S B) (s : S) :
  (x ← m; k x) s =
    match m s with
    | (Ok a, s') => k a s'
    | (Raise e, s') => (Raise e, s')
    end.
Proof. reflexivity. Qed.

Lemma read_input_pure (files : fs) (pdf_path : string) :
  exists r, read_input pdf_path files = (r, files).
Proof.
  unfold read_input, read_bytes. rewrite !run_bind. unfold get.
  destruct (files !! pdf_path); by eexists.
Qed.

(** Reading and parsing the inputs leaves the files as they are. *)
Lemma read_inputs_pure (files : fs) (pdf_paths : list string) :
  exists r, map_each read_input pdf_paths files = (r, files).
Proof.
  induction pdf_paths as [|q rest [r IH]]; [by eexists|].
  cbn [map_each]. rewrite run_bind.
  destruct (read_input_pure files q) as [[doc|e] ->]; [|by eexists].
  rewrite run_bind, IH. destruct r; by eexists.
Qed.

(** The path the merged file is written to. *)
Definition output_path_of (files : fs) (output_filename : option string) : string :=
  match output_filename with
  | None => mkstemp_name ".pdf" "merged_" files
  | Some name => name
  end.

Definition choose_output (output_filename : option string) : M fs string :=
  match output_filename with
  | None => mkstemp ".pdf" "merged_"
  | Some name => mret name
  end.

(** The body of the [try] block. *)
Definition merge_step (pdf_paths : list string) (output_path : string) : M fs string :=
  docs ← map_each read_input pdf_paths;
  _ ← open_wb output_path;
  merged ← lift (pdf_write docs);
  _ ← write_bytes output_path merged;
  mret output_path.

(** The [except] block. *)
Definition cleanup (output_path : string) (e : exn) : M fs string :=
  found ← path_exists output_path;
  _ ← (if (found : bool) then remove output_path else mret tt);
  raise (Exception ("Failed to merge PDFs: " +:+ str_exn e)).

Lemma merge_pdfs_unfold (pdf_paths : list string) (output_filename : option string) :
  merge_pdfs pdf_paths output_filename =
    if bool_decide (pdf_paths = []) || (length pdf_paths <? 2)%nat then
      raise (ValueError "At least 2 PDF files are required for merging")
    else
      _ ← for_each check_exists pdf_paths;
      output_path ← choose_output output_filename;
      try_except (merge_step pdf_paths output_path) (cleanup output_path).
Proof. reflexivity. Qed.

(** [not xs or len(xs) < 2] says no more than [len(xs) < 2]. *)
Lemma short_list {A} (xs : list A) :
  (bool_decide (xs = []) || (length xs <? 2)%nat = true)
  <-> (length xs < 2)%nat.
Proof.
  rewrite orb_true_iff, bool_decide_eq_true, Nat.ltb_lt.
  split; [intros [->|?]; cbn; lia | auto].
Qed.

(** [file.save], outcome by outcome. *)
Lemma file_save_run os_save (filepath data : string) (files : fs) :
  file_save os_save filepath data files =
    match os_save files filepath data with
    | Saved => (Ok tt, <[filepath := data]> files)
    | Refused e => (Raise e, files)
    | Broken written e => (Raise e, <[filepath := written]> files)
    end.
Proof.
  unfold file_save. rewrite run_bind. unfold get.
  by destruct (os_save files filepath data).
Qed.

(** Without an accepted upload nothing is saved. *)
Lemma save_uploads_none secure_filename timestamp folder os_save
    (reading : nat) (uploads : list upload) (files : fs) :
  List.filter accepted uploads = [] ->
  save_uploads secure_filename timestamp folder os_save reading uploads files
  = (Ok [], files).
Proof.
  induction uploads as [|file rest IH]; [done|].
  cbn [save_uploads List.filter]. by destruct (accepted file).
Qed.

(** With one accepted upload, saving comes to the one save. *)
Lemma save_uploads_one secure_filename timestamp folder os_save
    (reading : nat) (uploads : list upload) (files : fs) (f : upload) :
  List.filter accepted uploads = [f] ->
  let filepath := upload_path secure_filename timestamp folder reading f in
  save_uploads secure_filename timestamp folder os_save reading uploads files
  = match os_save files filepath (data f) with
    | Saved => (Ok [filepath], <[filepath := data f]> files)
    | Refused e => (Raise e, files)
    | Broken written e => (Raise e, <[filepath := written]> files)
    end.
Proof.
  induction uploads as [|file rest IH]; [done|].
  cbn [save_uploads List.filter]. destruct (accepted file); [|exact IH].
  intros [= -> Hrest]. rewrite run_bind, file_save_run.
  destruct (os_save files _ (data f)); [|done|done].
  by rewrite run_bind, save_uploads_none.
Qed.

(** The answer of the route when reading the uploads raises. *)
Lemma merge_route_unreadable secure_filename timestamp folder os_save
    (e : exn) (files : fs) :
  pdf_merge_process secure_filename timestamp folder os_save (Raise e) files
  = (Ok (jsonify [("error", JStr ("Merge failed: " +:+ str_exn e))] 500), files).
Proof. reflexivity. Qed.

(** The route on 2 or more uploads of which fewer than 2 are accepted:
    the answer turns on the one save, if there is one. *)
Lemma merge_route_few_accepted secure_filename timestamp folder os_save
    (uploads : list upload) (files : fs) :
  (2 <= length uploads)%nat ->
  (length (List.filter accepted uploads) < 2)%nat ->
  exists r files',
    pdf_merge_process secure_filename timestamp folder os_save (Ok uploads) files
    = (Ok r, files')
    /\ forall f, f ∈ uploads -> accepted f = true ->
       match os_save files (upload_path secure_filename timestamp folder 0 f) (data f) with
       | Saved => status r = 400
       | _ => status r = 500
       end.
Proof.
  intros Hlen Hacc. unfold pdf_merge_process, try_except.
  rewrite run_bind. unfold lift at 1.
  destruct (bool_decide (uploads = []) || (length uploads <? 2)%nat) eqn:Hs.
  { apply short_list in Hs. lia. }
  rewrite run_bind.
  destruct (List.filter accepted uploads) as [|f0 [|f1 rest]] eqn:Hfilter;
    [| |cbn in Hacc; lia].
  - rewrite save_uploads_none by done. eexists _, _. split; [reflexivity|].
    intros f Hin Hf.
    assert (In f (List.filter accepted uploads)) as Hmem
      by (apply filter_In; split; [by apply list_elem_of_In|done]).
    rewrite Hfilter in Hmem. destruct Hmem.
  - rewrite (save_uploads_one _ _ _ _ _ _ _ f0) by done.
    assert (Hone : forall f, f ∈ uploads -> accepted f = true -> f = f0).
    { intros f Hin Hf.
      assert (In f (List.filter accepted uploads)) as Hmem
        by (apply filter_In; split; [by apply list_elem_of_In|done]).
      rewrite Hfilter in Hmem. by destruct Hmem as [<-|[]]. }
    destruct (os_save files (upload_path secure_filename timestamp folder 0 f0) (data f0))
      as [|e|written e] eqn:Hsave.
    + eexists _, _. split; [reflexivity|].
      intros f Hin Hf. by rewrite (Hone f Hin Hf), Hsave.
    + eexists _, _. split; [reflexivity|].
      intros f Hin Hf. by rewrite (Hone f Hin Hf), Hsave.
    + eexists _, _. split; [reflexivity|].
      intros f Hin Hf. by rewrite (Hone f Hin Hf), Hsave.
Qed.

(** C4. With fewer than 2 paths [merge_pdfs] raises [ValueError] and
    touches no file; with 2 or more paths of which one is missing it
    raises [FileNotFoundError] for a missing path, again touching no
    file.  The merge route answers 400 when the uploads can be read
    and are fewer than 2, touching no file, and when fewer than 2 of
    them are accepted as PDF and the accepted one, if any, is saved.
    It answers 500, not 400, when reading the uploads raises, and when
    2 or more files were uploaded, fewer than 2 are accepted as PDF
    and saving the accepted one raises. *)
Theorem merge_needs_two_existing_files
    (files : fs) (pdf_paths : list string) (output_filename : option string)
    (secure_filename : string -> string) (timestamp : nat -> string)
    (folder : string) (os_save : fs -> string -> string -> save_outcome)
    (uploads : list upload) :
  ((length pdf_paths < 2)%nat ->
     merge_pdfs pdf_paths output_filename files
     = (Raise (ValueError "At least 2 PDF files are required for merging"), files))
  /\ ((2 <= length pdf_paths)%nat ->
      Exists (fun p => files !! p = None) pdf_paths ->
      exists p, p ∈ pdf_paths /\ files !! p = None /\
        merge_pdfs pdf_paths output_filename files
        = (Raise (FileNotFoundError ("PDF file not found: " +:+ p)), files))
  /\ ((length uploads < 2)%nat ->
      exists r,
        pdf_merge_process secure_filename timestamp folder os_save (Ok uploads) files
        = (Ok r, files) /\ status r = 400)
  /\ ((length (List.filter accepted uploads) < 2)%nat ->
      (forall f, f ∈ uploads -> accepted f = true ->
         os_save files (upload_path secure_filename timestamp folder 0 f) (data f)
         = Saved) ->
      exists r files',
        pdf_merge_process secure_filename timestamp folder os_save (Ok uploads) files
        = (Ok r, files') /\ status r = 400)
  /\ (forall e, exists r,
        pdf_merge_process secure_filename timestamp folder os_save (Raise e) files
        = (Ok r, files) /\ status r = 500)
  /\ ((2 <= length uploads)%nat ->
      (length (List.filter accepted uploads) < 2)%nat ->
      forall f, f ∈ uploads -> accepted f = true ->
        os_save files (upload_path secure_filename timestamp folder 0 f) (data f)
        <> Saved ->
        exists r files',
          pdf_merge_process secure_filename timestamp folder os_save (Ok uploads) files
          = (Ok r, files') /\ status r = 500).
Proof.
  split; [|split; [|split; [|split; [|split]]]].
  - intros Hlen. rewrite merge_pdfs_unfold.
    by rewrite (proj2 (short_list pdf_paths) Hlen).
  - intros Hlen Hex. rewrite merge_pdfs_unfold.
    destruct (bool_decide (pdf_paths = []) || (length pdf_paths <? 2)%nat) eqn:Hs.
    { apply short_list in Hs. lia. }
    destruct (validate_some_missing files pdf_paths Hex) as (p & Hin & Hp & Hrun).
    exists p. split; [done|]. split; [done|].
    by rewrite run_bind, Hrun.
  - intros Hlen. unfold pdf_merge_process. unfold_M.
    rewrite (proj2 (short_list uploads) Hlen). by eexists.
  - intros Hacc Hsaved.
    destruct (Nat.lt_ge_cases (length uploads) 2) as [Hlen|Hlen].
    { unfold pdf_merge_process. unfold_M.
      rewrite (proj2 (short_list uploads) Hlen). by eexists _, _. }
    destruct (merge_route_few_accepted secure_filename timestamp folder os_save
                uploads files Hlen Hacc) as (r & files' & Hrun & Hr).
    exists r, files'. split; [done|].
    destruct (List.filter accepted uploads) as [|f0 rest] eqn:Hfilter.
    + revert Hrun. unfold pdf_merge_process, try_except.
      rewrite run_bind. unfold lift at 1.
      destruct (bool_decide (uploads = []) || (length uploads <? 2)%nat);
        [by intros [= <- _]|].
      rewrite run_bind, save_uploads_none by done. by intros [= <- _].
    + assert (In f0 (List.filter accepted uploads)) as Hmem
        by (rewrite Hfilter; by left).
      apply filter_In in Hmem as [Hin Hf0]. apply list_elem_of_In in Hin.
      specialize (Hr f0 Hin Hf0). by rewrite (Hsaved f0 Hin Hf0) in Hr.
  - intros e. rewrite merge_route_unreadable. by eexists.
  - intros Hlen Hacc f Hin Hf Hsave.
    destruct (merge_route_few_accepted secure_filename timestamp folder os_save
                uploads files Hlen Hacc) as (r & files' & Hrun & Hr).
    exists r, files'. split; [done|]. specialize (Hr f Hin Hf).
    by destruct (os_save files _ (data f)).
Qed.

Lemma choose_output_run (files : fs) (output_filename : option string) :
  exists files1,
    choose_output output_filename files
    = (Ok (output_path_of files output_filename), files1)
    /\ delete (output_path_of files output_filename) files1
       = delete (output_path_of files output_filename) files.
Proof.
  destruct output_filename as [name|]; cbn.
  - by eexists.
  - unfold mkstemp. rewrite run_bind. unfold get. rewrite run_bind. unfold put.
    eexists. split; [reflexivity|]. apply delete_insert_eq.
Qed.

(** Whatever the merge step does, it writes to the output path only. *)
Lemma merge_step_writes_output (files1 : fs) (pdf_paths : list string) (output_path : string) :
  exists r files2,
    merge_step pdf_paths output_path files1 = (r, files2)
    /\ delete output_path files2 = delete output_path files1.
Proof.
  unfold merge_step. rewrite run_bind.
  destruct (read_inputs_pure files1 pdf_paths) as [[docs|e] ->];
    [|by eexists _, _].
  unfold open_wb, write_bytes. rewrite run_bind. unfold modify.
  rewrite run_bind. unfold lift.
  destruct (pdf_write docs) as [merged|e].
  - rewrite run_bind. eexists _, _. split; [reflexivity|].
    by rewrite !delete_insert_eq.
  - eexists _, _. split; [reflexivity|]. by rewrite delete_insert_eq.
Qed.

(** The handler always raises the wrapped exception, and after it the
    output path is gone. *)
Lemma cleanup_run (files2 : fs) (output_path : string) (e : exn) :
  cleanup output_path e files2
  = (Raise (Exception ("Failed to merge PDFs: " +:+ str_exn e)),
     delete output_path files2).
Proof.
  unfold cleanup, path_exists. rewrite !run_bind. unfold get.
  unfold mret at 1, M_ret, ret.
  destruct (files2 !! output_path) as [bytes|] eqn:Hl.
  - rewrite bool_decide_eq_true_2 by eauto.
    rewrite run_bind. unfold remove. rewrite run_bind. unfold get. by rewrite Hl.
  - rewrite bool_decide_eq_false_2 by (by intros [? ?]).
    rewrite run_bind. unfold mret, M_ret, ret, raise.
    by rewrite delete_id.
Qed.


(** A call that reaches the merge step either returns the output path,
    which then holds the merged bytes, or raises as C6 says. *)
Lemma merge_pdfs_total
    (files : fs) (pdf_paths : list string) (output_filename : option string) :
  (2 <= length pdf_paths)%nat ->
  Forall (fun p => is_Some (files !! p)) pdf_paths ->
  (exists merged files',
      merge_pdfs pdf_paths output_filename files
      = (Ok (output_path_of files output_filename), files')
      /\ files' !! output_path_of files output_filename = Some merged)
  \/ (exists e files',
      merge_pdfs pdf_paths output_filename files = (Raise e, files')).
Proof.
  intros Hlen Hall. rewrite merge_pdfs_unfold.
  destruct (bool_decide (pdf_paths = []) || (length pdf_paths <? 2)%nat) eqn:Hs.
  { apply short_list in Hs. lia. }
  rewrite run_bind, validate_all_present by done.
  rewrite run_bind.
  destruct (choose_output_run files output_filename) as (files1 & -> & _).
  unfold try_except, merge_step. rewrite run_bind.
  destruct (read_inputs_pure files1 pdf_paths) as [[docs|e] ->].
  - unfold open_wb, write_bytes. rewrite run_bind. unfold modify.
    rewrite run_bind. unfold lift. destruct (pdf_write docs) as [merged|e].
    + rewrite run_bind. left. eexists _, _. split; [reflexivity|].
      apply lookup_insert_eq.
    + right. rewrite cleanup_run. by eexists _, _.
  - right. rewrite cleanup_run. by eexists _, _.
Qed.

End pdf_merge_facts.

(** A small stand-in for PyPDF2, to run the merger on: a document is
    its bytes, reading fails on bytes that do not start with the PDF
    magic, writing concatenates. *)
Section pdf_merge_examples.
Import Py os flask pdf_merge tools_routes.

#[local] Instance toy_backend : PdfBackend := {|
  pdf := string;
  pypdf2_available := true;
  pdf_read := fun bytes =>
    if String.prefix "%PDF-" bytes then Ok bytes
    else Raise (LibraryError "EOF marker not found");
  pdf_write := fun docs => Ok (String.concat "" docs);
  mkstemp_name := fun suffix prefix _ => "/tmp/" +:+ prefix +:+ "0001" +:+ suffix;
|}.

Definition two_files : fs :=
  <["/up/a.pdf" := "%PDF-a"]> (<["/up/b.pdf" := "junk"]> ∅).

(** A file system that saves every upload. *)
Definition always_saved : fs -> string -> string -> save_outcome :=
  fun _ _ _ => Saved.

Definition pdf_and_text : list upload :=
  [{| filename := "a.PDF"; data := "%PDF-a" |};
   {| filename := "notes.txt"; data := "hello" |}].

Lemma merge_needs_two_existing_files_witness :
  merge_pdfs ["/up/a.pdf"] None two_files
  = (Raise (ValueError "At least 2 PDF files are required for merging"), two_files)
  /\ exists r files',
       pdf_merge_process (fun s => s) (fun _ => "t") "/up" always_saved
                         (Ok pdf_and_text) two_files
       = (Ok r, files') /\ status r = 400.
Proof.
  destruct (merge_needs_two_existing_files two_files ["/up/a.pdf"] None
              (fun s => s) (fun _ => "t") "/up" always_saved pdf_and_text)
    as (Hfew & _ & _ & Hroute & _).
  split.
  - apply Hfew. cbn. lia.
  - apply Hroute.
    + vm_compute. lia.
    + intros f _ _. reflexivity.
Defined.

(** A file system that takes no file name over 255 bytes: opening one
    raises [OSError] and nothing is written. *)
Definition basename (filepath : string) : string :=
  List.last (split "/" filepath) EmptyString.

Definition name_limit : fs -> string -> string -> save_outcome :=
  fun _ filepath _ =>
    if (255 <? String.length (basename filepath))%nat
    then Refused (OSError ("[Errno 36] File name too long: '" +:+ filepath +:+ "'"))
    else Saved.

(** A request of two files: a PDF whose name has 304 letters, which
    [secure_filename] leaves as it is, and a text file. *)
Definition long_name : string :=
  String.concat "" (List.repeat "a" 300) +:+ ".pdf".

Definition one_pdf_request : list upload :=
  [{| filename := long_name; data := "%PDF-a" |};
   {| filename := "notes.txt"; data := "hello" |}].

(** A request with fewer than 2 uploaded PDF files that is not
    answered 400: of the two uploads one is a PDF, its name is too
    long to save, and the answer is 500 with no file written; and a
    request whose body is over the size limit, so that reading the
    uploads raises, is answered 500 as well. *)
Lemma merge_route_answers_500_to_one_pdf :
  length (List.filter accepted one_pdf_request) = 1%nat
  /\ (exists r,
        pdf_merge_process (fun s => s) (fun _ => "20240101_000000") "/up"
                          name_limit (Ok one_pdf_request) ∅
        = (Ok r, ∅) /\ status r = 500 /\ status r <> 400)
  /\ (exists r,
        pdf_merge_process (fun s => s) (fun _ => "20240101_000000") "/up"
                          name_limit (Raise (HTTPException 413)) ∅
        = (Ok r, ∅) /\ status r = 500 /\ status r <> 400).
Proof.
  split; [vm_compute; reflexivity|].
  split; eexists; (split; [vm_compute; reflexivity|]); cbn; lia.
Qed.


(** The same call on two readable files returns the temporary path,
    which holds the merged bytes. *)
Example merge_two_good_files :
  merge_pdfs ["/a"; "/b"] None (<["/a" := "%PDF-a"]> (<["/b" := "%PDF-b"]> ∅))
  = (Ok "/tmp/merged_0001.pdf",
     <["/tmp/merged_0001.pdf" := "%PDF-a%PDF-b"]>
       (<["/a" := "%PDF-a"]> (<["/b" := "%PDF-b"]> ∅))).
Proof. vm_compute. reflexivity. Qed.

(** The route on a file system that saves every upload: one upload is
    refused with 400; one PDF with one text file is refused with 400
    as well, and the PDF stays in the upload folder. *)
Example merge_route_examples :
  (pdf_merge_process (fun s => s) (fun _ => "20240101_000000") "/up"
     always_saved (Ok [{| filename := "a.pdf"; data := "%PDF-a" |}]) ∅
   = (Ok (jsonify [("error", JStr "At least 2 PDF files are required")] 400), ∅))
  /\ (pdf_merge_process (fun s => s) (fun _ => "20240101_000000") "/up"
        always_saved (Ok pdf_and_text) ∅
      = (Ok (jsonify [("error", JStr "At least 2 valid PDF files are required")] 400),
         <["/up/20240101_000000_a.PDF" := "%PDF-a"]> ∅)).
Proof. split; vm_compute; reflexivity. Qed.

End pdf_merge_examples.

Section page_range_facts.
Import Py pdf_toolkit.

(** A pair that names pages of a document of [total_pages] pages. *)
Definition in_bounds (total_pages : Z) (range : Z * Z) : Prop :=
  1 <= fst range /\ fst range <= snd range /\ snd range <= total_pages.

Lemma parse_part_in_bounds (total_pages : Z) (part : string) (range : Z * Z) :
  1 <= total_pages ->
  parse_part total_pages part = Ok range ->
  in_bounds total_pages range.
Proof.
  intros Htotal. unfold parse_part, in_bounds.
  destruct (contains "-" (strip part)).
  - destruct (unpack_two_ints _) as [[start stop]|e]; [|discriminate].
    cbn. intros [= <-]. cbn. lia.
  - destruct (int_of_str _) as [page_num|e]; [|discriminate].
    cbn. intros [= <-]. cbn. lia.
Qed.

Lemma parse_parts_in_bounds (total_pages : Z) (parts : list string)
    (ranges : list (Z * Z)) :
  1 <= total_pages ->
  parse_parts total_pages parts = Ok ranges ->
  Forall (in_bounds total_pages) ranges.
Proof.
  intros Htotal. revert ranges.
  induction parts as [|part rest IH]; intros ranges; cbn [parse_parts].
  { intros [= <-]. constructor. }
  destruct (parse_part total_pages part) as [range|e] eqn:Hpart; [|discriminate].
  cbn. destruct (parse_parts total_pages rest) as [tail|e]; [|discriminate].
  cbn. intros [= <-]. constructor; [|by apply IH].
  by eapply parse_part_in_bounds.
Qed.

(** The parser returns exactly when every comma-separated part parses. *)
Lemma parse_page_ranges_returns (pages : string) (total_pages : Z) :
  is_ok (_parse_page_ranges pages total_pages)
  = forallb (fun part => is_ok (parse_part total_pages part)) (split "," pages).
Proof.
  unfold _parse_page_ranges.
  induction (split "," pages) as [|part rest IH]; [done|].
  cbn [parse_parts forallb].
  destruct (parse_part total_pages part); [|done]. cbn.
  rewrite <- IH. by destruct (parse_parts total_pages rest).
Qed.

(** C8. For a document of at least one page, every pair the parser
    returns satisfies 1 <= start <= end <= total_pages. *)
Theorem parse_page_ranges_in_bounds (pages : string) (total_pages : Z)
    (ranges : list (Z * Z)) :
  1 <= total_pages ->
  _parse_page_ranges pages total_pages = Ok ranges ->
  Forall (fun range => 1 <= fst range /\ fst range <= snd range
                       /\ snd range <= total_pages) ranges.
Proof. apply parse_parts_in_bounds. Qed.

Lemma parse_page_ranges_in_bounds_witness :
  Forall (fun range => 1 <= fst range /\ fst range <= snd range /\ snd range <= 8)
         [(1, 3); (5, 5); (7, 8); (8, 8); (1, 1); (4, 4)].
Proof.
  apply (parse_page_ranges_in_bounds "1-3, 5,7-10,99 , 0-0,4-2" 8).
  - lia.
  - vm_compute. reflexivity.
Defined.

(** What does not parse raises [ValueError]: an empty part, a leading
    minus, three pieces, a word. *)
Example parse_page_ranges_rejects :
  is_ok (_parse_page_ranges "1,,3" 8) = false
  /\ is_ok (_parse_page_ranges "-3" 8) = false
  /\ is_ok (_parse_page_ranges "1-2-3" 8) = false
  /\ is_ok (_parse_page_ranges "all" 8) = false
  /\ _parse_page_ranges " +2 - 1_0 " 8 = Ok [(2, 8)].
Proof. repeat split; vm_compute; reflexivity. Qed.

End page_range_facts.

Section toolkit_facts.
Import Py os pdf_toolkit.
Context `{libs : ToolkitLibs}.

(** A call of one of the seven guarded methods, with its arguments. *)
Inductive guarded_call : Type :=
| call_organize_pdf (input_path : string) (operations : list string)
| call_unlock_pdf (input_path : string) (password : option string)
| call_ocr_pdf (input_path language : string)
| call_compare_pdfs (pdf1_path pdf2_path : string)
| call_redact_pdf (input_path : string) (redaction_areas : list string)
| call_edit_pdf_text (input_path : string) (edits : list string)
| call_sign_pdf (input_path : string) (signature_info : list string).

Definition try_block (c : guarded_call) : M fs string :=
  match c with
  | call_organize_pdf p ops => organize_pdf_try p ops
  | call_unlock_pdf p pw => unlock_pdf_try p pw
  | call_ocr_pdf p l => ocr_pdf_try p l
  | call_compare_pdfs p q => compare_pdfs_try p q
  | call_redact_pdf p a => redact_pdf_try p a
  | call_edit_pdf_text p e => edit_pdf_text_try p e
  | call_sign_pdf p i => sign_pdf_try p i
  end.

Definition invoke (self : instance) (c : guarded_call) : M fs string :=
  match c with
  | call_organize_pdf p ops => organize_pdf self p ops
  | call_unlock_pdf p pw => unlock_pdf self p pw
  | call_ocr_pdf p l => ocr_pdf self p l
  | call_compare_pdfs p q => compare_pdfs self p q
  | call_redact_pdf p a => redact_pdf self p a
  | call_edit_pdf_text p e => edit_pdf_text self p e
  | call_sign_pdf p i => sign_pdf self p i
  end.

(** The message the docstrings promise for a failure. *)
Definition documented_failure (c : guarded_call) (e : exn) : exn :=
  Exception
    ((match c with
      | call_organize_pdf _ _ => "Failed to organize PDF: "
      | call_unlock_pdf _ _ => "Failed to unlock PDF: "
      | call_ocr_pdf _ _ => "Failed to perform OCR on PDF: "
      | call_compare_pdfs _ _ => "Failed to compare PDFs: "
      | call_redact_pdf _ _ => "Failed to redact PDF: "
      | call_edit_pdf_text _ _ => "Failed to edit PDF text: "
      | call_sign_pdf _ _ => "Failed to sign PDF: "
      end) +:+ str_exn e).

Definition no_logger : exn :=
  AttributeError "'PDFToolkit' object has no attribute 'logger'".

(** [__init__] sets [available_features] and nothing else. *)
Lemma init_sets_no_logger (self : instance) :
  PDFToolkit_init = Ok self -> getattr self "logger" = Raise no_logger.
Proof.
  unfold PDFToolkit_init.
  destruct (negb _); [discriminate|]. intros [= <-].
  unfold getattr. rewrite lookup_singleton_ne by done. reflexivity.
Qed.

Lemma log_and_wrap_without_logger (self : instance) log failure e (files : fs) :
  getattr self "logger" = Raise no_logger ->
  log_and_wrap self log failure e files = (Raise no_logger, files).
Proof. intros H. unfold log_and_wrap. by rewrite run_bind, H. Qed.

(** C10. On a freshly constructed toolkit, whenever the [try] block of
    one of the seven methods raises, the call raises [AttributeError]
    for the missing [logger], and so never the wrapped [Exception] its
    handler was written to raise. *)
Theorem guarded_methods_raise_AttributeError
    (self : instance) (c : guarded_call) (files files' : fs) (e : exn) :
  PDFToolkit_init = Ok self ->
  try_block c files = (Raise e, files') ->
  invoke self c files = (Raise no_logger, files')
  /\ no_logger <> documented_failure c e.
Proof.
  intros Hinit Htry. apply init_sets_no_logger in Hinit.
  split; [|done].
  destruct c; cbn [invoke try_block] in *;
    unfold organize_pdf, unlock_pdf, ocr_pdf, compare_pdfs, redact_pdf,
      edit_pdf_text, sign_pdf, try_except;
    rewrite Htry; by apply log_and_wrap_without_logger.
Qed.

(** With a logger on the instance the same failure is wrapped as
    documented: the handler is right but for the attribute. *)
Lemma guarded_methods_with_logger
    (self : instance) (c : guarded_call) (files files' : fs) (e : exn) :
  self !! "logger" = Some Logger ->
  try_block c files = (Raise e, files') ->
  invoke self c files = (Raise (documented_failure c e), files').
Proof.
  intros Hlog Htry.
  destruct c; cbn [invoke try_block] in *;
    unfold organize_pdf, unlock_pdf, ocr_pdf, compare_pdfs, redact_pdf,
      edit_pdf_text, sign_pdf, try_except;
    rewrite Htry; unfold log_and_wrap, getattr;
    rewrite run_bind; unfold lift; by rewrite Hlog.
Qed.

End toolkit_facts.

Section toolkit_examples.
Import Py os pdf_toolkit.

(** An installation with PyPDF2 only: the constructor succeeds and
    every method that needs PyMuPDF raises inside its [try] block. *)
#[local] Instance pypdf2_only : ToolkitLibs := {|
  PYMUPDF_AVAILABLE := false;
  PYPDF2_AVAILABLE := true;
  PYPDF_AVAILABLE := false;
  DOCX_AVAILABLE := false;
  OPENPYXL_AVAILABLE := false;
  PPTX_AVAILABLE := false;
  REPORTLAB_AVAILABLE := false;
  library_step := fun _ _ _ => mret tt;
  authenticate := fun _ _ => true;
  needs_pass := fun _ => false;
  temp_name := fun suffix prefix _ => "/tmp/" +:+ prefix +:+ "0001" +:+ suffix;
|}.

Definition fresh_toolkit : instance :=
  {[ "available_features" :=
       FeatureTable [("pymupdf", false); ("pypdf2", true); ("pypdf", false);
                     ("docx", false); ("excel", false); ("powerpoint", false);
                     ("reportlab", false)] ]}.

Lemma guarded_methods_raise_AttributeError_witness :
  organize_pdf fresh_toolkit "/up/a.pdf" ["delete 1"] ∅
  = (Raise (AttributeError "'PDFToolkit' object has no attribute 'logger'"), ∅).
Proof.
  refine (proj1 (guarded_methods_raise_AttributeError fresh_toolkit
                   (call_organize_pdf "/up/a.pdf" ["delete 1"]) ∅ ∅
                   (Exception "PyMuPDF is required for PDF organization") _ _)).
  - reflexivity.
  - reflexivity.
Defined.

End toolkit_examples.

(** ** Rounding to binary64 *)

Section float_facts.
Import Py pyfloat.
Local Open Scope Q_scope.

Abbreviation iz := inject_Z.

Lemma pow2_pos (e : Z) : 0 < 2 ^ e.
Proof. apply Qpower_0_lt. reflexivity. Qed.

Lemma pow2_add (a b : Z) : 2 ^ (a + b) == 2 ^ a * 2 ^ b.
Proof. apply Qpower_plus. discriminate. Qed.

Lemma pow2_Z (e : Z) : (0 <= e)%Z -> iz (2 ^ e) == 2 ^ e.
Proof. intros H. apply (Zpower_Qpower 2 e H). Qed.

Lemma pow2_succ (e : Z) : 2 ^ (e + 1) == 2 * 2 ^ e.
Proof. rewrite pow2_add. change (2 ^ 1) with 2. ring. Qed.

Lemma pow2_pred (e : Z) : 2 * 2 ^ (e - 1) == 2 ^ e.
Proof.
  rewrite <- pow2_succ. replace (e - 1 + 1)%Z with e by lia. reflexivity.
Qed.

Lemma pow2_le (a b : Z) : (a <= b)%Z -> 2 ^ a <= 2 ^ b.
Proof. intros H. apply Qpower_le_compat_l; [exact H | discriminate]. Qed.

Lemma pow2_opp (e : Z) : 2 ^ e * 2 ^ (- e) == 1.
Proof.
  rewrite <- pow2_add. replace (e + - e)%Z with 0%Z by lia. reflexivity.
Qed.

Lemma inject_pos (z : Z) : (0 < z)%Z -> 0 < iz z.
Proof. intros H. change 0 with (iz 0). rewrite <- Zlt_Qlt. exact H. Qed.

Lemma log2_bounds (n : Z) :
  (0 < n)%Z -> 2 ^ Z.log2 n <= iz n /\ iz n < 2 * 2 ^ Z.log2 n.
Proof.
  intros Hn. destruct (Z.log2_spec n Hn) as [Hlo Hhi].
  pose proof (Z.log2_nonneg n) as Hnn.
  rewrite <- pow2_succ, <- !pow2_Z by lia.
  rewrite <- Zle_Qle, <- Zlt_Qlt. unfold Z.succ in Hhi. auto.
Qed.

Lemma ge_pow2_spec (n d k : Z) :
  (0 < n)%Z -> (0 < d)%Z ->
  (ge_pow2 n d k = true <-> 2 ^ k * iz d <= iz n).
Proof.
  intros Hn Hd. unfold ge_pow2.
  pose proof (pow2_pos k) as Hk. pose proof (inject_pos d Hd) as Hd'.
  destruct (Z.leb_spec 0 k) as [Hs|Hs].
  - rewrite Z.leb_le, Zle_Qle, inject_Z_mult, pow2_Z by assumption.
    split; intros H; lra.
  - rewrite Z.leb_le, Zle_Qle, inject_Z_mult, pow2_Z by lia.
    pose proof (pow2_opp k) as Ho. pose proof (pow2_pos (- k)) as Hk'.
    assert (Hcancel : 2 ^ (- k) * (2 ^ k * iz d) == iz d).
    { rewrite Qmult_assoc, (Qmult_comm (2 ^ (- k))), Ho. ring. }
    split; intros H.
    + apply (Qmult_le_l _ _ (2 ^ (- k))); [assumption|].
      rewrite Hcancel. lra.
    + apply (Qmult_le_l _ _ (2 ^ (- k))) in H; [|assumption].
      rewrite Hcancel in H. lra.
Qed.

Lemma scaled_spec (n d e : Z) :
  (0 < n)%Z -> (0 < d)%Z ->
  (0 < snd (scaled n d e))%Z /\
  iz (fst (scaled n d e)) * iz d * 2 ^ e == iz n * iz (snd (scaled n d e)).
Proof.
  intros Hn Hd. unfold scaled.
  destruct (Z.leb_spec 0 e) as [Hs|Hs]; cbn [fst snd].
  - split; [apply Z.mul_pos_pos; [lia | apply Z.pow_pos_nonneg; lia]|].
    rewrite inject_Z_mult, pow2_Z by assumption. ring.
  - split; [assumption|].
    rewrite inject_Z_mult, pow2_Z by lia.
    pose proof (pow2_opp e) as Ho.
    setoid_replace (iz n * 2 ^ (- e) * iz d * 2 ^ e)
      with (iz n * iz d * (2 ^ e * 2 ^ (- e))) using relation Qeq by ring.
    rewrite Ho. ring.
Qed.

(** The rounded quotient is within one of the exact one, and is the
    exact one when that is an integer. *)
Lemma nearest_even_spec (N D : Z) :
  (0 < D)%Z ->
  ((nearest_even N D - 1) * D < N /\ N < (nearest_even N D + 1) * D)%Z.
Proof.
  intros HD. unfold nearest_even.
  pose proof (Z.div_mod N D ltac:(lia)) as Hdm.
  pose proof (Z.mod_pos_bound N D HD) as Hr.
  destruct (Z.ltb_spec (2 * (N mod D)) D); [nia|].
  destruct (Z.ltb_spec D (2 * (N mod D))); [nia|].
  destruct (Z.even (N / D)); nia.
Qed.

Lemma exponent_spec (n d : Z) :
  (0 < n)%Z -> (0 < d)%Z ->
  2 ^ 52 * 2 ^ exponent_of n d * iz d <= iz n
  /\ iz n < 2 ^ 53 * 2 ^ exponent_of n d * iz d.
Proof.
  intros Hn Hd. unfold exponent_of.
  set (a := Z.log2 n). set (b := Z.log2 d). set (k := (a - b)%Z).
  destruct (log2_bounds n Hn) as [Hn1 Hn2]. fold a in Hn1, Hn2.
  destruct (log2_bounds d Hd) as [Hd1 Hd2]. fold b in Hd1, Hd2.
  assert (HA : 2 ^ a == 2 ^ k * 2 ^ b).
  { rewrite <- pow2_add. replace (k + b)%Z with a by lia. reflexivity. }
  pose proof (pow2_pos a) as Pa. pose proof (pow2_pos b) as Pb.
  pose proof (pow2_pos k) as Pk.
  destruct (ge_pow2 n d k) eqn:Hge.
  - apply ge_pow2_spec in Hge; [|assumption..].
    assert (H52 : 2 ^ 52 * 2 ^ (k - 52) == 2 ^ k).
    { rewrite <- pow2_add. replace (52 + (k - 52))%Z with k by lia. reflexivity. }
    assert (H53 : 2 ^ 53 * 2 ^ (k - 52) == 2 * 2 ^ k).
    { rewrite <- pow2_add, <- pow2_succ.
      replace (53 + (k - 52))%Z with (k + 1)%Z by lia. reflexivity. }
    rewrite H52, H53. split; [assumption|].
    generalize dependent (2 ^ a). generalize dependent (2 ^ b).
    generalize dependent (2 ^ k). intros. nra.
  - assert (Hlt : iz n < 2 ^ k * iz d).
    { apply Qnot_le_lt. intros H.
      apply ge_pow2_spec in H; [congruence | assumption..]. }
    assert (H52 : 2 * (2 ^ 52 * 2 ^ (k - 53)) == 2 ^ k).
    { rewrite <- pow2_add, <- pow2_succ.
      replace (52 + (k - 53) + 1)%Z with k by lia. reflexivity. }
    assert (H53 : 2 ^ 53 * 2 ^ (k - 53) == 2 ^ k).
    { rewrite <- pow2_add. replace (53 + (k - 53))%Z with k by lia. reflexivity. }
    rewrite H53. split; [|assumption].
    generalize dependent (2 ^ 52 * 2 ^ (k - 53)).
    generalize dependent (2 ^ a). generalize dependent (2 ^ b).
    generalize dependent (2 ^ k). intros. nra.
Qed.

(** The shape of a positive ratio rounded at its own exponent. *)
Lemma round_at_spec (n d : Z) :
  (0 < n)%Z -> (0 < d)%Z ->
  let e := exponent_of n d in
  exists m,
    round_at e n d = iz m * 2 ^ e
    /\ (2 ^ 52 <= m <= 2 ^ 53)%Z
    /\ (iz m - 1) * 2 ^ e * iz d < iz n
    /\ iz n < (iz m + 1) * 2 ^ e * iz d
    /\ 2 ^ 52 * 2 ^ e * iz d <= iz n.
Proof.
  intros Hn Hd e. unfold round_at.
  destruct (exponent_spec n d Hn Hd) as [Hlo Hhi]. fold e in Hlo, Hhi.
  destruct (scaled_spec n d e Hn Hd) as [HD Hsc].
  destruct (scaled n d e) as [N D]. cbn [fst snd] in *.
  destruct (nearest_even_spec N D HD) as [Hm1 Hm2].
  set (m := nearest_even N D) in *.
  exists m. split; [reflexivity|].
  pose proof (pow2_pos e) as Pe. pose proof (inject_pos d Hd) as Pd.
  pose proof (inject_pos D HD) as PD.
  assert (Hm1' : iz m * iz D < iz N + iz D).
  { rewrite <- inject_Z_mult, <- inject_Z_plus, <- Zlt_Qlt. lia. }
  assert (Hm2' : iz N < iz m * iz D + iz D).
  { rewrite <- inject_Z_mult, <- inject_Z_plus, <- Zlt_Qlt. lia. }
  clear Hm1 Hm2.
  assert (Pde : 0 < iz d * 2 ^ e) by (apply Qmult_lt_0_compat; assumption).
  assert (Hup : iz n < (iz m + 1) * 2 ^ e * iz d).
  { apply (Qmult_lt_r _ _ (iz D)); [assumption|].
    rewrite <- Hsc.
    setoid_replace ((iz m + 1) * 2 ^ e * iz d * iz D)
      with (((iz m + 1) * iz D) * (iz d * 2 ^ e)) using relation Qeq by ring.
    setoid_replace (iz N * iz d * 2 ^ e) with (iz N * (iz d * 2 ^ e)) using relation Qeq by ring.
    apply Qmult_lt_r; [assumption | lra]. }
  assert (Hdn : (iz m - 1) * 2 ^ e * iz d < iz n).
  { apply (Qmult_lt_r _ _ (iz D)); [assumption|].
    rewrite <- Hsc.
    setoid_replace ((iz m - 1) * 2 ^ e * iz d * iz D)
      with (((iz m - 1) * iz D) * (iz d * 2 ^ e)) using relation Qeq by ring.
    setoid_replace (iz N * iz d * 2 ^ e) with (iz N * (iz d * 2 ^ e)) using relation Qeq by ring.
    apply Qmult_lt_r; [assumption | lra]. }
  split; [|split; [assumption|split; assumption]].
  assert (Ped : 0 < 2 ^ e * iz d) by (apply Qmult_lt_0_compat; assumption).
  assert (H1 : iz m - 1 < 2 ^ 53).
  { apply (Qmult_lt_r _ _ (2 ^ e * iz d)); [assumption|].
    rewrite !Qmult_assoc. lra. }
  assert (H2 : 2 ^ 52 < iz m + 1).
  { apply (Qmult_lt_r _ _ (2 ^ e * iz d)); [assumption|].
    rewrite !Qmult_assoc. lra. }
  rewrite <- (pow2_Z 53) in H1 by lia. rewrite <- (pow2_Z 52) in H2 by lia.
  assert (H1' : iz m < iz (2 ^ 53 + 1))
    by (rewrite inject_Z_plus; change (iz 1) with 1; lra).
  assert (H2' : iz (2 ^ 52) < iz (m + 1))
    by (rewrite inject_Z_plus; change (iz 1) with 1; lra).
  rewrite <- Zlt_Qlt in H1', H2'. lia.
Qed.

(** Rounding with an unbounded exponent: what [round64] does to a
    positive value well inside the range of the format. *)
Definition round53 (x : Q) : Q :=
  match Qnum x with
  | Zpos n => round_at (exponent_of (Zpos n) (Zpos (Qden x))) (Zpos n) (Zpos (Qden x))
  | _ => 0
  end.

Lemma round53_spec (x : Q) :
  0 < x ->
  exists m e,
    round53 x = iz m * 2 ^ e
    /\ e = exponent_of (Qnum x) (Zpos (Qden x))
    /\ (2 ^ 52 <= m <= 2 ^ 53)%Z
    /\ (iz m - 1) * 2 ^ e < x
    /\ x < (iz m + 1) * 2 ^ e
    /\ 2 ^ 52 * 2 ^ e <= x.
Proof.
  intros Hx. destruct x as [n d]. unfold round53. cbn [Qnum Qden].
  destruct n as [|n|n]; [discriminate Hx | | discriminate Hx].
  destruct (round_at_spec (Zpos n) (Zpos d) ltac:(lia) ltac:(lia))
    as (m & Hr & Hm & Hlo & Hhi & Hmin).
  exists m, (exponent_of (Zpos n) (Zpos d)).
  split; [assumption|]. split; [reflexivity|]. split; [assumption|].
  assert (Hd : 0 < iz (Zpos d)) by (apply inject_pos; lia).
  assert (Hmul : (Zpos n # d) * iz (Zpos d) == iz (Zpos n)).
  { rewrite (Qmake_Qdiv (Zpos n) d). field. lra. }
  rewrite <- Hmul in Hlo, Hhi, Hmin.
  repeat split.
  - apply (Qmult_lt_r _ _ (iz (Zpos d))); [assumption|]. lra.
  - apply (Qmult_lt_r _ _ (iz (Zpos d))); [assumption|]. lra.
  - apply (Qmult_le_r _ _ (iz (Zpos d))); [assumption|]. lra.
Qed.

(** Positive binary64 values, the exponent range apart. *)
Definition representable (f : Q) : Prop :=
  exists M E, (0 < M <= 2 ^ 53)%Z /\ f == iz M * 2 ^ E.

Lemma round53_positive (x : Q) : 0 < x -> 0 < round53 x.
Proof.
  intros Hx. destruct (round53_spec x Hx) as (m & e & -> & _ & Hm & _).
  apply Qmult_lt_0_compat; [apply inject_pos; lia | apply pow2_pos].
Qed.

Lemma round53_representable (x : Q) : 0 < x -> representable (round53 x).
Proof.
  intros Hx. destruct (round53_spec x Hx) as (m & e & -> & _ & Hm & _).
  exists m, e. split; [lia | reflexivity].
Qed.

(** A representable value at or above the grid of exponent [e] is a
    whole multiple of [2 ^ e]; one below it is at most [2 ^ 52 * 2 ^ e]. *)
Lemma representable_on_grid (M E e : Z) :
  (e <= E)%Z -> iz M * 2 ^ E == iz (M * 2 ^ (E - e)) * 2 ^ e.
Proof.
  intros H. rewrite inject_Z_mult, pow2_Z by lia.
  rewrite <- Qmult_assoc, <- pow2_add.
  replace (E - e + e)%Z with E by lia. reflexivity.
Qed.

Lemma representable_below_grid (M E e : Z) :
  (0 < M <= 2 ^ 53)%Z -> (E < e)%Z -> iz M * 2 ^ E <= 2 ^ 52 * 2 ^ e.
Proof.
  intros HM HE.
  assert (H1 : 2 ^ E <= 2 ^ (e - 1)) by (apply pow2_le; lia).
  pose proof (pow2_pred e) as H2.
  assert (H3 : iz M <= 2 * 2 ^ 52).
  { change (2 * 2 ^ 52) with (2 ^ 53). rewrite <- (pow2_Z 53) by lia.
    rewrite <- Zle_Qle. lia. }
  assert (H4 : 0 < iz M) by (apply inject_pos; lia).
  pose proof (pow2_pos E) as PE. pose proof (pow2_pos (e - 1)) as Pe.
  assert (P52 : (0 : Q) < 2 ^ 52) by reflexivity.
  generalize dependent (2 ^ E). generalize dependent (2 ^ (e - 1)).
  generalize dependent (2 ^ e). generalize dependent ((2 : Q) ^ 52).
  intros. nra.
Qed.

(** Rounding never crosses a representable value: from below ... *)
Lemma round53_le (x f : Q) :
  0 < x -> representable f -> x <= f -> round53 x <= f.
Proof.
  intros Hx (M & E & HM & Hf) Hxf.
  destruct (round53_spec x Hx) as (m & e & -> & _ & Hm & Hlo & Hhi & Hmin).
  pose proof (pow2_pos e) as Pe.
  destruct (Z_le_gt_dec e E) as [HE|HE].
  - rewrite Hf, (representable_on_grid M E e HE) in *.
    set (F := (M * 2 ^ (E - e))%Z) in *.
    apply Qmult_le_r; [assumption|].
    assert (H : (iz m - 1) * 2 ^ e < iz F * 2 ^ e) by lra.
    apply Qmult_lt_r in H; [|assumption].
    assert (H' : iz m < iz (F + 1))
      by (rewrite inject_Z_plus; change (iz 1) with 1; lra).
    rewrite <- Zlt_Qlt in H'. rewrite <- Zle_Qle. lia.
  - pose proof (representable_below_grid M E e HM ltac:(lia)) as Hb.
    rewrite <- Hf in Hb.
    assert (H1 : (iz m - 1) * 2 ^ e < 2 ^ 52 * 2 ^ e) by lra.
    apply Qmult_lt_r in H1; [|assumption].
    assert (H1' : iz m < iz (2 ^ 52 + 1)).
    { rewrite inject_Z_plus, (pow2_Z 52) by lia. change (iz 1) with 1. lra. }
    rewrite <- Zlt_Qlt in H1'.
    assert (Hm52 : m = (2 ^ 52)%Z) by lia. subst m.
    rewrite (pow2_Z 52) by lia. lra.
Qed.

(** ... and from above. *)
Lemma round53_ge (x f : Q) :
  0 < x -> representable f -> f <= x -> f <= round53 x.
Proof.
  intros Hx (M & E & HM & Hf) Hxf.
  destruct (round53_spec x Hx) as (m & e & -> & _ & Hm & Hlo & Hhi & Hmin).
  pose proof (pow2_pos e) as Pe.
  destruct (Z_le_gt_dec e E) as [HE|HE].
  - rewrite Hf, (representable_on_grid M E e HE) in *.
    set (F := (M * 2 ^ (E - e))%Z) in *.
    apply Qmult_le_r; [assumption|].
    assert (H : iz F * 2 ^ e < (iz m + 1) * 2 ^ e) by lra.
    apply Qmult_lt_r in H; [|assumption].
    assert (H' : iz F < iz (m + 1))
      by (rewrite inject_Z_plus; change (iz 1) with 1; lra).
    rewrite <- Zlt_Qlt in H'. rewrite <- Zle_Qle. lia.
  - pose proof (representable_below_grid M E e HM ltac:(lia)) as Hb.
    rewrite <- Hf in Hb.
    assert (H : 2 ^ 52 * 2 ^ e <= iz m * 2 ^ e).
    { apply Qmult_le_r; [assumption|].
      rewrite <- (pow2_Z 52) by lia. rewrite <- Zle_Qle. lia. }
    lra.
Qed.

(** A representable value rounds to itself. *)
Lemma round53_exact (f : Q) : 0 < f -> representable f -> round53 f == f.
Proof.
  intros Hf Hr. apply Qle_antisym.
  - apply round53_le; [assumption..|apply Qle_refl].
  - apply round53_ge; [assumption..|apply Qle_refl].
Qed.

(** The relative error of rounding down is below [2 ^ -52]. *)
Lemma round53_rel_lower (x : Q) : 0 < x -> 2 ^ 52 * (x - round53 x) < x.
Proof.
  intros Hx.
  destruct (round53_spec x Hx) as (m & e & -> & _ & Hm & Hlo & Hhi & Hmin).
  pose proof (pow2_pos e) as Pe.
  assert (H : x - iz m * 2 ^ e < 2 ^ e) by lra.
  assert (P52 : (0 : Q) < 2 ^ 52) by reflexivity.
  generalize dependent (2 ^ e). generalize dependent (iz m).
  generalize dependent ((2 : Q) ^ 52). intros. nra.
Qed.

Lemma small_int_representable (z : Z) :
  (0 < z <= 2 ^ 53)%Z -> representable (iz z).
Proof.
  intros H. exists z, 0%Z. split; [assumption|]. change (2 ^ 0) with 1. ring.
Qed.

Lemma pow2_representable (E : Z) : representable (2 ^ E).
Proof. exists 1%Z, E. split; [lia|]. change (iz 1) with 1. ring. Qed.

(** Values between [2 ^ -1000] and [2 ^ 1000] are far from the
    subnormal range and from overflow: [round64] rounds them as
    [round53] does. *)
Definition normal (x : Q) : Prop := 2 ^ (-1000) <= x /\ x <= 2 ^ 1000.

Lemma normal_between (x : Q) (lo hi : Z) :
  (-1000 <= lo)%Z -> (hi <= 1000)%Z -> 2 ^ lo <= x -> x <= 2 ^ hi -> normal x.
Proof.
  intros Hlo Hhi H1 H2. split.
  - eapply Qle_trans; [apply (pow2_le (-1000) lo Hlo) | exact H1].
  - eapply Qle_trans; [exact H2 | apply (pow2_le hi 1000 Hhi)].
Qed.

Lemma normal_positive (x : Q) : normal x -> 0 < x.
Proof. intros [H _]. pose proof (pow2_pos (-1000)). lra. Qed.

Lemma round64_normal (x : Q) : normal x -> round64 x = Finite (round53 x).
Proof.
  intros Hn. pose proof (normal_positive x Hn) as Hx. destruct Hn as [Hlo Hhi].
  destruct (round53_spec x Hx) as (m & e & Hr & He & Hm & _ & Hup & _).
  pose proof (round53_le x (2 ^ 1000) Hx (pow2_representable 1000) Hhi) as Hrhi.
  destruct x as [n d]. unfold round64, round53 in *. cbn [Qnum Qden] in *.
  destruct n as [|n|n]; [discriminate Hx | | discriminate Hx].
  unfold round_pos.
  assert (Hemin : (emin <= e)%Z).
  { unfold emin. destruct (Z_le_gt_dec (-1074) e) as [|Hlt]; [assumption|].
    exfalso.
    assert (H1 : 2 ^ (54 + e) <= 2 ^ (-1000)) by (apply pow2_le; lia).
    assert (H2 : (iz m + 1) * 2 ^ e <= 2 ^ (54 + e)).
    { rewrite pow2_add. apply Qmult_le_compat_r; [|apply Qlt_le_weak, pow2_pos].
      rewrite <- (pow2_Z 54) by lia. change 1 with (iz 1).
      rewrite <- inject_Z_plus, <- Zle_Qle. lia. }
    lra. }
  rewrite <- He, Z.max_l by assumption.
  destruct (Qle_bool (2 ^ 1024) _) eqn:Hov; [|reflexivity].
  apply Qle_bool_iff in Hov.
  assert (Hbig : (2 : Q) ^ 1000 < 2 ^ 1024) by (vm_compute; reflexivity).
  exfalso. rewrite <- He in Hrhi.
  generalize dependent ((2 : Q) ^ 1000). generalize dependent ((2 : Q) ^ 1024).
  intros. lra.
Qed.

(** [int(x)] of a finite float. *)
Definition trunc (q : Q) : Z := Z.quot (Qnum q) (Zpos (Qden q)).

Lemma trunc_nonneg (q : Q) : 0 <= q -> (0 <= trunc q)%Z.
Proof.
  intros H. unfold trunc. apply Z.quot_pos; [|lia].
  unfold Qle in H. cbn in H. lia.
Qed.

Lemma trunc_upper (q : Q) (z : Z) : 0 <= q -> q < iz (z + 1) -> (trunc q <= z)%Z.
Proof.
  intros H0 H. unfold trunc.
  assert (Hn : (0 <= Qnum q)%Z) by (unfold Qle in H0; cbn in H0; lia).
  rewrite Z.quot_div_nonneg by lia.
  apply Z.lt_succ_r. apply Z.div_lt_upper_bound; [lia|].
  unfold Qlt in H. cbn in H. lia.
Qed.

(** Small integers convert exactly. *)
Lemma of_int_small (z : Z) :
  (0 < z < 2 ^ 53)%Z ->
  exists zf, of_int z = Ok (Finite zf) /\ zf == iz z.
Proof.
  intros Hz. unfold of_int.
  assert (Hpos : 0 < iz z) by (apply inject_pos; lia).
  assert (Hn : normal (iz z)).
  { apply (normal_between _ 0 53); [lia | lia | |].
    - change (2 ^ 0) with (iz 1). rewrite <- Zle_Qle. lia.
    - rewrite <- (pow2_Z 53) by lia. rewrite <- Zle_Qle. lia. }
  rewrite (round64_normal _ Hn). eexists. split; [reflexivity|].
  apply round53_exact; [assumption|]. apply small_int_representable. lia.
Qed.

(** The quotient of two positive integers below [2 ^ 51] lies between
    [2 ^ -51] and [2 ^ 51], and so does its rounding. *)
Lemma ratio_bounds (n d : Z) :
  (0 < n < 2 ^ 51)%Z -> (0 < d < 2 ^ 51)%Z ->
  2 ^ (-51) <= iz n / iz d /\ iz n / iz d <= 2 ^ 51.
Proof.
  intros Hn Hd.
  assert (Pd : 0 < iz d) by (apply inject_pos; lia).
  assert (H1n : 1 <= iz n) by (change 1 with (iz 1); rewrite <- Zle_Qle; lia).
  assert (H1d : 1 <= iz d) by (change 1 with (iz 1); rewrite <- Zle_Qle; lia).
  assert (Hn51 : iz n <= 2 ^ 51).
  { rewrite <- (pow2_Z 51) by lia. rewrite <- Zle_Qle. lia. }
  assert (Hd51 : iz d <= 2 ^ 51).
  { rewrite <- (pow2_Z 51) by lia. rewrite <- Zle_Qle. lia. }
  pose proof (pow2_opp 51) as Ho. cbn [Z.opp] in Ho.
  pose proof (pow2_pos 51) as P51. pose proof (pow2_pos (-51)) as Pm51.
  split.
  - apply Qle_shift_div_l; [assumption|].
    assert (H : 2 ^ (-51) * iz d <= 2 ^ (-51) * 2 ^ 51)
      by (apply Qmult_le_l; assumption).
    rewrite (Qmult_comm (2 ^ (-51)) (2 ^ 51)), Ho in H. lra.
  - apply Qle_shift_div_r; [assumption|].
    assert (H : 2 ^ 51 * 1 <= 2 ^ 51 * iz d)
      by (apply Qmult_le_l; assumption).
    lra.
Qed.

Lemma int_truediv_small (n d : Z) :
  (0 < n < 2 ^ 51)%Z -> (0 < d < 2 ^ 51)%Z ->
  int_truediv n d = Ok (Finite (round53 (iz n / iz d)))
  /\ 2 ^ (-51) <= round53 (iz n / iz d) <= 2 ^ 51
  /\ representable (round53 (iz n / iz d)).
Proof.
  intros Hn Hd. destruct (ratio_bounds n d Hn Hd) as [Hlo Hhi].
  assert (Hnorm : normal (iz n / iz d))
    by (apply (normal_between _ (-51) 51); (lia || assumption)).
  pose proof (normal_positive _ Hnorm) as Hpos.
  unfold int_truediv. destruct (Z.eqb_spec d 0) as [->|_]; [lia|].
  rewrite (round64_normal _ Hnorm). split; [reflexivity|].
  split; [split|].
  - apply round53_ge; [assumption | apply pow2_representable | assumption].
  - apply round53_le; [assumption | apply pow2_representable | assumption].
  - by apply round53_representable.
Qed.

Lemma small_int_bounds (z : Z) :
  (0 < z < 2 ^ 51)%Z -> 1 <= iz z /\ iz z <= 2 ^ 51 /\ 0 < iz z.
Proof.
  intros Hz. split; [|split].
  - change 1 with (iz 1). rewrite <- Zle_Qle. lia.
  - rewrite <- (pow2_Z 51) by lia. rewrite <- Zle_Qle. lia.
  - apply inject_pos. lia.
Qed.

Lemma pow2_51_facts :
  (2 : Q) ^ 51 * 2 ^ 51 == 2 ^ 102 /\ (2 : Q) ^ 51 * 2 ^ (-51) == 1
  /\ 0 < (2 : Q) ^ 51 /\ 0 < (2 : Q) ^ (-51).
Proof.
  split; [|split; [|split]].
  - rewrite <- pow2_add. reflexivity.
  - apply (pow2_opp 51).
  - apply pow2_pos.
  - apply pow2_pos.
Qed.

(** [int(x * aspect_ratio)] for a small positive [x]. *)
Lemma int_times_small (x : Z) (a : Q) :
  (0 < x < 2 ^ 51)%Z -> 2 ^ (-51) <= a -> a <= 2 ^ 51 ->
  exists xf, xf == iz x
    /\ image_resizer.int_times x (Finite a) = Ok (trunc (round53 (xf * a)))
    /\ 0 < xf * a.
Proof.
  intros Hx Hlo Hhi.
  destruct (of_int_small x ltac:(lia)) as (xf & Hof & Hxf).
  destruct (small_int_bounds x Hx) as (H1 & H51 & Hpos).
  destruct pow2_51_facts as (P102 & Pone & P51 & Pm51).
  assert (Hnorm : normal (xf * a)).
  { apply (normal_between _ (-51) 102); [lia | lia | |].
    - rewrite Hxf.
      assert (H : 1 * 2 ^ (-51) <= iz x * a).
      { apply Qmult_le_compat_nonneg; split; lra. }
      lra.
    - rewrite Hxf, <- P102.
      apply Qmult_le_compat_nonneg; split; lra. }
  exists xf. split; [assumption|]. split.
  - unfold image_resizer.int_times. rewrite Hof. cbn [mbind result_bind bind].
    cbn [mul]. rewrite (round64_normal _ Hnorm). reflexivity.
  - by apply normal_positive.
Qed.

(** [int(x / aspect_ratio)] for a small positive [x]. *)
Lemma int_over_small (x : Z) (a : Q) :
  (0 < x < 2 ^ 51)%Z -> 2 ^ (-51) <= a -> a <= 2 ^ 51 ->
  exists xf, xf == iz x
    /\ image_resizer.int_over x (Finite a) = Ok (trunc (round53 (xf / a)))
    /\ 0 < xf / a.
Proof.
  intros Hx Hlo Hhi.
  destruct (of_int_small x ltac:(lia)) as (xf & Hof & Hxf).
  destruct (small_int_bounds x Hx) as (H1 & H51 & Hpos).
  destruct pow2_51_facts as (P102 & Pone & P51 & Pm51).
  assert (Ha : 0 < a) by lra.
  assert (Hnorm : normal (xf / a)).
  { apply (normal_between _ (-51) 102); [lia | lia | |].
    - apply Qle_shift_div_l; [assumption|]. rewrite Hxf.
      assert (H : 2 ^ (-51) * a <= 2 ^ (-51) * 2 ^ 51)
        by (apply Qmult_le_l; assumption).
      rewrite (Qmult_comm (2 ^ (-51))), Pone in H. lra.
    - apply Qle_shift_div_r; [assumption|]. rewrite Hxf.
      assert (H : 2 ^ 102 * 2 ^ (-51) <= 2 ^ 102 * a).
      { apply Qmult_le_l; [apply pow2_pos | assumption]. }
      assert (H' : (2 : Q) ^ 102 * 2 ^ (-51) == 2 ^ 51).
      { rewrite <- pow2_add. reflexivity. }
      lra. }
  exists xf. split; [assumption|]. split.
  - unfold image_resizer.int_over. rewrite Hof. cbn [mbind result_bind bind].
    cbn [div].
    assert (Hz : is_zero a = false).
    { unfold is_zero. apply Z.eqb_neq. unfold Qlt in Ha. cbn in Ha. lia. }
    rewrite Hz. cbn [bind]. rewrite (round64_normal _ Hnorm). reflexivity.
  - by apply normal_positive.
Qed.

(** The width branch: the rounded [w / h] exceeds the rounded aspect
    ratio only if the exact [w / h] does, and then [h * a] stays at or
    below [w] after rounding. *)
Lemma fit_width (w h : Z) (a hf : Q) :
  (0 < w < 2 ^ 51)%Z -> (0 < h < 2 ^ 51)%Z ->
  0 < a -> representable a -> hf == iz h ->
  a < round53 (iz w / iz h) ->
  (trunc (round53 (hf * a)) <= w)%Z.
Proof.
  intros Hw Hh Ha Hrep Hhf Hlt.
  destruct (small_int_bounds w Hw) as (W1 & W51 & Wpos).
  destruct (small_int_bounds h Hh) as (H1 & H51 & Hpos).
  assert (Hx1 : 0 < iz w / iz h) by (apply Qlt_shift_div_l; lra).
  assert (Hax : a < iz w / iz h).
  { apply Qnot_le_lt. intros Hle.
    pose proof (round53_le _ a Hx1 Hrep Hle). lra. }
  assert (Hmul : a * iz h < iz w).
  { apply (Qmult_lt_r _ _ (iz h)) in Hax; [|assumption].
    assert (E : iz w / iz h * iz h == iz w) by (field; lra).
    lra. }
  assert (Hx2 : 0 < hf * a) by (rewrite Hhf; apply Qmult_lt_0_compat; assumption).
  assert (Hle : round53 (hf * a) <= iz w).
  { apply round53_le; [assumption | apply small_int_representable; lia |].
    rewrite Hhf. lra. }
  apply trunc_upper.
  - apply Qlt_le_weak. by apply round53_positive.
  - rewrite inject_Z_plus. change (iz 1) with 1. lra.
Qed.

(** The height branch: the rounded aspect ratio is at least the rounded
    [w / h], which is within [2 ^ -52] of the exact one, so [w / a]
    stays at or below [h + 1/2] after rounding. *)
Lemma fit_height (w h : Z) (a wf : Q) :
  (0 < w < 2 ^ 51)%Z -> (0 < h < 2 ^ 51)%Z ->
  0 < a -> wf == iz w ->
  round53 (iz w / iz h) <= a ->
  (trunc (round53 (wf / a)) <= h)%Z.
Proof.
  intros Hw Hh Ha Hwf Hle.
  destruct (small_int_bounds w Hw) as (W1 & W51 & Wpos).
  destruct (small_int_bounds h Hh) as (H1 & H51 & Hpos).
  set (x1 := iz w / iz h) in *.
  assert (Hx1 : 0 < x1) by (apply Qlt_shift_div_l; lra).
  assert (E : x1 * iz h == iz w) by (unfold x1; field; lra).
  pose proof (round53_rel_lower x1 Hx1) as Hrel.
  pose proof (round53_positive x1 Hx1) as Hr.
  set (r := round53 x1) in *.
  set (f := iz (2 * h + 1) * 2 ^ (-1)).
  assert (Hf : f == iz h + (1 # 2)).
  { unfold f. rewrite inject_Z_plus, inject_Z_mult.
    change (2 ^ (-1)) with (1 # 2). change (iz 2) with 2. change (iz 1) with 1.
    ring. }
  assert (Hfrep : representable f).
  { exists (2 * h + 1)%Z, (-1)%Z. split; [lia | reflexivity]. }
  assert (H52 : iz (2 * h + 1) <= 2 ^ 52).
  { rewrite <- (pow2_Z 52) by lia. rewrite <- Zle_Qle. lia. }
  rewrite inject_Z_plus, inject_Z_mult in H52.
  change (iz 2) with 2 in H52. change (iz 1) with 1 in H52.
  assert (P52 : (0 : Q) < 2 ^ 52) by reflexivity.
  (* 2 w < (2 h + 1) r *)
  assert (Hkey : 2 * iz w < (2 * iz h + 1) * r).
  { generalize dependent ((2 : Q) ^ 52). intros P Hrel H52 P52.
    assert (K1 : 0 < (2 * iz h + 1) * (x1 - P * (x1 - r)))
      by (apply Qmult_lt_0_compat; lra).
    assert (K2 : 0 <= (P - (2 * iz h + 1)) * x1)
      by (apply Qmult_le_0_compat; lra).
    assert (K3 : 0 < P * ((2 * iz h + 1) * r - 2 * iz w)).
    { setoid_replace (P * ((2 * iz h + 1) * r - 2 * iz w))
        with ((2 * iz h + 1) * (x1 - P * (x1 - r)) + (P - (2 * iz h + 1)) * x1
              + 2 * P * (x1 * iz h - iz w)) using relation Qeq by ring.
      rewrite E. lra. }
    assert (K4 : 0 < (2 * iz h + 1) * r - 2 * iz w).
    { apply (Qmult_lt_l 0 _ P); [assumption|]. lra. }
    lra. }
  assert (Hx3 : 0 < wf / a) by (apply Qlt_shift_div_l; lra).
  assert (Hxf : wf / a <= f).
  { apply Qle_shift_div_r; [assumption|]. rewrite Hwf, Hf.
    assert (K : (iz h + (1 # 2)) * r <= (iz h + (1 # 2)) * a)
      by (apply Qmult_le_l; lra).
    lra. }
  pose proof (round53_le _ f Hx3 Hfrep Hxf) as Hround.
  apply trunc_upper.
  - apply Qlt_le_weak. by apply round53_positive.
  - rewrite inject_Z_plus. change (iz 1) with 1. lra.
Qed.

End float_facts.

(** ** The rounding model against the Standard Library's binary64

    [SpecFloat] is the reference specification of IEEE 754 arithmetic
    behind Rocq's primitive floats.  On the samples below, which
    include ties, subnormal results and overflow, its division,
    multiplication and addition at precision 53 and maximal exponent
    1024 give the values [pyfloat] gives. *)

Section float_crosscheck.
Import pyfloat.

Definition of_spec (x : SpecFloat.spec_float) : float :=
  match x with
  | SpecFloat.S754_zero _ => Finite 0
  | SpecFloat.S754_infinity s => Inf s
  | SpecFloat.S754_nan => NaN
  | SpecFloat.S754_finite s m e =>
      Finite ((if s then inject_Z (Zneg m) else inject_Z (Zpos m)) * 2 ^ e)%Q
  end.

Definition same (a b : float) : bool :=
  match a, b with
  | Finite x, Finite y => Qeq_bool x y
  | Inf s, Inf t => Bool.eqb s t
  | NaN, NaN => true
  | _, _ => false
  end.

(** The binary64 value of an integer. *)
Definition b64 (z : Z) : SpecFloat.spec_float :=
  SpecFloat.binary_normalize 53 1024 z 0 false.

Definition ok_float (r : Py.result float) : float :=
  match r with Py.Ok a => a | Py.Raise _ => NaN end.

Definition agree_on (p : Z * Z) : bool :=
  let '(n, d) := p in
  let sn := b64 n in
  let sd := b64 d in
  let fn := round64 (inject_Z n) in
  let fd := round64 (inject_Z d) in
  let sq := SpecFloat.SFdiv 53 1024 sn sd in
  let fq := ok_float (div fn fd) in
  same (of_spec sn) fn && same (of_spec sd) fd
  && same (of_spec sq) fq
  && same (of_spec (SpecFloat.SFmul 53 1024 sq sn)) (mul fq fn)
  && same (of_spec (SpecFloat.SFmul 53 1024 sq sq)) (mul fq fq)
  && same (of_spec (SpecFloat.SFadd 53 1024 sq sn)) (add fq fn)
  && same (of_spec (SpecFloat.SFdiv 53 1024 sn sq)) (ok_float (div fn fq)).

Definition samples : list (Z * Z) :=
  [(4, 10); (3, 10); (1, 3); (2, 3); (-5, 3); (7, -9); (1920, 1080);
   (4000, 3000); (333, 777); (1, 1000); (1000, 1); (100, 82); (45, 7);
   (2 ^ 53 + 1, 1); (2 ^ 53 + 3, 1); (2 ^ 53 + 3, 2 ^ 53 + 3);
   (2 ^ 51 - 1, 2 ^ 51 - 3); (1, 2 ^ 51 - 1); (3, 2 ^ 540); (5, 2 ^ 1000);
   (3, 2 ^ 1023); (2 ^ 1000 + 12345, 3); (2 ^ 600, 7); (2 ^ 1023, 2 ^ 1023 - 1)].

Example rounding_agrees_with_SpecFloat : forallb agree_on samples = true.
Proof. vm_compute. reflexivity. Qed.

(** The two literals of the score formula, bit for bit. *)
Example literals_of_the_weights :
  same (literal 4 10) (Finite (7205759403792794 # 18014398509481984)) = true
  /\ same (literal 3 10) (Finite (5404319552844595 # 18014398509481984)) = true.
Proof. split; vm_compute; reflexivity. Qed.

End float_crosscheck.

(** ** The image resizer *)

Section image_resizer_facts.
Import Py pyfloat image_resizer.

(** The block "calculate new dimensions", which [resize_image] and
    [get_resize_preview] both contain. *)
Definition aspect_fit (ow oh w h : Z) : result (Z * Z) :=
  aspect_ratio ← int_truediv ow oh;
  ratio ← int_truediv w h;
  if lt aspect_ratio ratio then
    w' ← int_times h aspect_ratio; Ok (w', h)
  else
    h' ← int_over w aspect_ratio; Ok (w, h').

Definition new_dimensions (ow oh : Z) (width height : option Z)
    (percentage : option float) (maintain_aspect : bool) : result (Z * Z) :=
  if truthy_float percentage then
    match percentage with
    | Some p =>
        new_width ← scale_by ow p;
        new_height ← scale_by oh p;
        Ok (new_width, new_height)
    | None => Raise (TypeError "unsupported operand type(s) for *")
    end
  else if truthy_int width && truthy_int height then
    match width, height with
    | Some w, Some h =>
        if maintain_aspect then aspect_fit ow oh w h else Ok (w, h)
    | _, _ => Raise (TypeError "unsupported operand type(s) for /")
    end
  else if truthy_int width then
    match width with
    | Some w =>
        aspect_ratio ← int_truediv ow oh;
        new_height ← int_over w aspect_ratio;
        Ok (w, new_height)
    | None => Raise (TypeError "unsupported operand type(s) for /")
    end
  else
    aspect_ratio ← int_truediv ow oh;
    match height with
    | Some h =>
        new_width ← int_times h aspect_ratio;
        Ok (new_width, h)
    | None => Raise (TypeError "unsupported operand type(s) for *")
    end.

Lemma resize_image_size_unfold ow oh width height percentage maintain quality :
  resize_image_size ow oh width height percentage maintain quality =
    if negb (truthy_int width || truthy_int height || truthy_float percentage) then
      Raise (ValueError "Must specify width, height, or percentage")
    else if truthy_float percentage
            && match percentage with
               | Some p => le p (Finite 0) || lt (Finite 500) p
               | None => false
               end then
      Raise (ValueError "Percentage must be between 1 and 500")
    else if (quality <? 1)%Z || (100 <? quality)%Z then
      Raise (ValueError "Quality must be between 1 and 100")
    else
      match new_dimensions ow oh width height percentage maintain with
      | Ok (new_width, new_height) => Ok (Z.max 1 new_width, Z.max 1 new_height)
      | Raise e => Raise (Exception ("Failed to resize image: " +:+ str_exn e))
      end.
Proof. reflexivity. Qed.

Lemma get_resize_preview_unfold ow oh width height percentage maintain :
  get_resize_preview ow oh width height percentage maintain =
    match ('(new_width, new_height) ←
             new_dimensions ow oh width height percentage maintain;
           size_change ← int_truediv (new_width * new_height) (ow * oh);
           Ok (Preview (Z.max 1 new_width) (Z.max 1 new_height)
                       (lt (Finite 1) size_change) maintain)) with
    | Ok dict => dict
    | Raise e => PreviewError (str_exn e)
    end.
Proof. reflexivity. Qed.

(** Under the bounds the aspect-preserving block returns, with one
    side kept and the other not larger than asked. *)
Lemma aspect_fit_spec (ow oh w h : Z) :
  (0 < ow < 2 ^ 51)%Z -> (0 < oh < 2 ^ 51)%Z ->
  (0 < w < 2 ^ 51)%Z -> (0 < h < 2 ^ 51)%Z ->
  exists nw nh,
    aspect_fit ow oh w h = Ok (nw, nh)
    /\ (0 <= nw <= w)%Z /\ (0 <= nh <= h)%Z /\ (nw = w \/ nh = h).
Proof.
  intros How Hoh Hw Hh. unfold aspect_fit.
  destruct (int_truediv_small ow oh How Hoh) as (-> & [Halo Hahi] & Harep).
  destruct (int_truediv_small w h Hw Hh) as (-> & _ & _).
  cbn [mbind result_bind bind lt].
  set (a := round53 (inject_Z ow / inject_Z oh)) in *.
  assert (Ha : (0 < a)%Q).
  { pose proof (pow2_pos (-51)). lra. }
  destruct (Qle_bool (round53 (inject_Z w / inject_Z h)) a) eqn:Hcmp; cbn [negb].
  - apply Qle_bool_iff in Hcmp.
    destruct (int_over_small w a Hw Halo Hahi) as (wf & Hwf & -> & Hpos).
    cbn [bind]. eexists _, _. split; [reflexivity|].
    pose proof (fit_height w h a wf Hw Hh Ha Hwf Hcmp).
    pose proof (trunc_nonneg (round53 (wf / a))
                  (Qlt_le_weak _ _ (round53_positive _ Hpos))).
    repeat split; lia.
  - assert (Hlt : (a < round53 (inject_Z w / inject_Z h))%Q).
    { apply Qnot_le_lt. intros Hle. apply Qle_bool_iff in Hle. congruence. }
    destruct (int_times_small h a Hh Halo Hahi) as (hf & Hhf & -> & Hpos).
    cbn [bind]. eexists _, _. split; [reflexivity|].
    pose proof (fit_width w h a hf Hw Hh Ha Harep Hhf Hlt).
    pose proof (trunc_nonneg (round53 (hf * a))
                  (Qlt_le_weak _ _ (round53_positive _ Hpos))).
    repeat split; lia.
Qed.

(** The size ratio of the preview is a finite float. *)
Lemma int_truediv_finite (n d : Z) :
  (0 <= n < 2 ^ 102)%Z -> (0 < d < 2 ^ 102)%Z ->
  exists q, int_truediv n d = Ok (Finite q).
Proof.
  intros Hn Hd. unfold int_truediv.
  destruct (Z.eqb_spec d 0) as [->|_]; [lia|].
  destruct (Z.eq_dec n 0) as [->|Hn0].
  { eexists. unfold round64. cbn. reflexivity. }
  assert (Pd : (0 < inject_Z d)%Q) by (apply inject_pos; lia).
  assert (H1n : (1 <= inject_Z n)%Q)
    by (change 1%Q with (inject_Z 1); rewrite <- Zle_Qle; lia).
  assert (H1d : (1 <= inject_Z d)%Q)
    by (change 1%Q with (inject_Z 1); rewrite <- Zle_Qle; lia).
  assert (HnK : (inject_Z n <= 2 ^ 102)%Q).
  { rewrite <- (pow2_Z 102) by lia. rewrite <- Zle_Qle. lia. }
  assert (HdK : (inject_Z d <= 2 ^ 102)%Q).
  { rewrite <- (pow2_Z 102) by lia. rewrite <- Zle_Qle. lia. }
  pose proof (pow2_opp 102) as Ho. cbn [Z.opp] in Ho.
  pose proof (pow2_pos 102) as PK. pose proof (pow2_pos (-102)) as PmK.
  assert (Hnorm : normal (inject_Z n / inject_Z d)).
  { apply (normal_between _ (-102) 102); [lia | lia | |].
    - apply Qle_shift_div_l; [assumption|].
      assert (H : (2 ^ (-102) * inject_Z d <= 2 ^ (-102) * 2 ^ 102)%Q)
        by (apply Qmult_le_l; assumption).
      rewrite (Qmult_comm (2 ^ (-102)) (2 ^ 102)), Ho in H.
      generalize dependent ((2 : Q) ^ (-102))%Q. intros. lra.
    - apply Qle_shift_div_r; [assumption|].
      assert (H : (2 ^ 102 * 1 <= 2 ^ 102 * inject_Z d)%Q)
        by (apply Qmult_le_l; assumption).
      generalize dependent ((2 : Q) ^ 102)%Q. intros. lra. }
  rewrite (round64_normal _ Hnorm). by eexists.
Qed.

(** C9, as the code has it.  Whatever is asked, the dimensions that
    [resize_image] and [get_resize_preview] arrive at are at least 1
    by 1.  And for an image and a requested box whose sides are
    positive and below [2 ^ 51], with no percentage given and the
    aspect ratio kept, both arrive at the same dimensions, which fit
    inside the box and keep one of its sides. *)
Theorem resized_dimensions_fit :
  (forall ow oh width height percentage maintain quality nw nh,
      resize_image_size ow oh width height percentage maintain quality
      = Ok (nw, nh) -> 1 <= nw /\ 1 <= nh)
  /\ (forall ow oh width height percentage maintain nw nh enlarged kept,
      get_resize_preview ow oh width height percentage maintain
      = Preview nw nh enlarged kept -> 1 <= nw /\ 1 <= nh)
  /\ (forall ow oh w h percentage quality,
      0 < ow < 2 ^ 51 -> 0 < oh < 2 ^ 51 -> 0 < w < 2 ^ 51 -> 0 < h < 2 ^ 51 ->
      truthy_float percentage = false -> 1 <= quality <= 100 ->
      exists nw nh enlarged,
        resize_image_size ow oh (Some w) (Some h) percentage true quality
        = Ok (nw, nh)
        /\ get_resize_preview ow oh (Some w) (Some h) percentage true
           = Preview nw nh enlarged true
        /\ 1 <= nw <= w /\ 1 <= nh <= h /\ (nw = w \/ nh = h)).
Proof.
  split; [|split].
  - intros *. rewrite resize_image_size_unfold.
    destruct (negb _); [discriminate|].
    destruct (_ && _); [discriminate|].
    destruct (_ || _); [discriminate|].
    destruct (new_dimensions _ _ _ _ _ _) as [[a b]|e]; [|discriminate].
    intros [= <- <-]. lia.
  - intros *. rewrite get_resize_preview_unfold.
    destruct (new_dimensions _ _ _ _ _ _) as [[a b]|e]; [|discriminate].
    cbn [mbind result_bind bind].
    destruct (int_truediv _ _) as [sc|e]; [|discriminate].
    cbn [bind]. intros [= <- <- _ _]. lia.
  - intros ow oh w h percentage quality How Hoh Hw Hh Hpct Hq.
    destruct (aspect_fit_spec ow oh w h How Hoh Hw Hh)
      as (nw & nh & Hfit & Hnw & Hnh & Hside).
    assert (Hdims : new_dimensions ow oh (Some w) (Some h) percentage true
                    = Ok (nw, nh)).
    { unfold new_dimensions. rewrite Hpct. cbn [truthy_int].
      destruct (Z.eqb_spec w 0) as [->|_]; [lia|].
      destruct (Z.eqb_spec h 0) as [->|_]; [lia|].
      exact Hfit. }
    destruct (int_truediv_finite (nw * nh) (ow * oh)) as [sc Hsc]; [nia | nia |].
    exists (Z.max 1 nw), (Z.max 1 nh), (lt (Finite 1) (Finite sc)).
    split; [|split].
    + rewrite resize_image_size_unfold, Hpct, Hdims.
      cbn [truthy_int]. destruct (Z.eqb_spec w 0) as [->|_]; [lia|].
      cbn [negb orb andb].
      destruct (Z.ltb_spec quality 1); [lia|].
      destruct (Z.ltb_spec 100 quality); [lia|]. reflexivity.
    + rewrite get_resize_preview_unfold, Hdims.
      cbn [mbind result_bind bind]. rewrite Hsc. reflexivity.
    + lia.
Qed.

Lemma resized_dimensions_fit_witness :
  resize_image_size 4000 3000 (Some 800) (Some 800) None true 95 = Ok (800, 600)
  /\ get_resize_preview 1 1000 (Some 1000) (Some 1) None true
     = Preview 1 1 false true
  /\ exists nw nh enlarged,
       resize_image_size 1920 1080 (Some 333) (Some 777) None true 95 = Ok (nw, nh)
       /\ get_resize_preview 1920 1080 (Some 333) (Some 777) None true
          = Preview nw nh enlarged true
       /\ 1 <= nw <= 333 /\ 1 <= nh <= 777 /\ (nw = 333 \/ nh = 777).
Proof.
  split; [vm_compute; reflexivity|]. split; [vm_compute; reflexivity|].
  apply (proj2 (proj2 resized_dimensions_fit) 1920 1080 333 777 None 95);
    try reflexivity; lia.
Defined.

(** Where C9 goes wrong as stated.  A negative requested width reaches
    [resize_image] (its caller in [routes/tools_backup.py] converts the
    form field with [int] and checks no sign, and [resize_image] checks
    none either); the result is 1 by 1, above the requested -5.  A
    percentage given with a width and a height wins over them.  And a
    side above [2 ^ 53] is not a float: the height computed for a
    square box of side [2 ^ 53 + 3] on a square image is one more. *)
Lemma resize_exceeds_request :
  (resize_image_size 4 4 (Some (-5)) (Some 3) None true 95 = Ok (1, 1)
   /\ get_resize_preview 4 4 (Some (-5)) (Some 3) None true
      = Preview 1 1 true true
   /\ ~ (1 <= -5))
  /\ (resize_image_size 100 100 (Some 10) (Some 10) (Some (Finite 200)) true 95
      = Ok (200, 200) /\ ~ (200 <= 10))
  /\ (resize_image_size 1 1 (Some (2 ^ 53 + 3)) (Some (2 ^ 53 + 3)) None true 95
      = Ok (2 ^ 53 + 3, 2 ^ 53 + 4) /\ ~ (2 ^ 53 + 4 <= 2 ^ 53 + 3)).
Proof.
  repeat split; try (vm_compute; reflexivity); lia.
Qed.

End image_resizer_facts.

(** ** The SEO analyzer *)

Section seo_analyzer_facts.
Import Py pyfloat seo_analyzer.

(** What a status costs: [c] when critical, [w] when a warning. *)
Definition deduction (c w : Z) (s : status) : Z :=
  match s with critical => c | warning => w | good => 0 end.

(** The overall score as C3 words it:
    [int(0.4 * technical + 0.3 * content + 0.3 * performance)]. *)
Definition overall_as_stated (t c p : Z) : result Z :=
  tf ← of_int t; cf ← of_int c; pf ← of_int p;
  to_int (add (add (mul (literal 4 10) tf) (mul (literal 3 10) cf))
              (mul (literal 3 10) pf)).

(** The values the heading hierarchy score can take. *)
Definition hierarchy_values : list Z := List.map (fun k => 40 + 5 * Z.of_nat k) (seq 0 13).

Lemma hierarchy_score_values (hs : headings) :
  In (_calculate_heading_hierarchy_score hs) hierarchy_values.
Proof.
  destruct hs as [c1 c2 c3 c4 c5 c6].
  destruct c1 as [|[|c1]], c2 as [|c2], c3 as [|c3], c4 as [|c4],
    c5 as [|c5], c6 as [|c6];
    vm_compute; repeat (first [left; reflexivity | right]).
Qed.

Lemma hierarchy_score_min (hs : headings) :
  40 <= _calculate_heading_hierarchy_score hs.
Proof.
  pose proof (hierarchy_score_values hs) as Hin. cbn in Hin.
  repeat (destruct Hin as [<-|Hin]; [lia|]). destruct Hin.
Qed.

(** The values the three part scores can take before the weighting. *)
Definition technical_values : list Z :=
  flat_map (fun x => List.map (fun y => 100 - x - y) [0; 8; 15]) [0; 10; 20; 30; 40].

Definition content_values : list Z :=
  List.map (fun k => 10 + 5 * Z.of_nat k) (seq 0 19).

Definition performance_values : list Z := [100; 80; 60].

(** One line of the table: the weighted sum converts to an integer
    that is not negative. *)
Definition weighted_ok (i : Z * Z * Z) : bool :=
  let '(t, c, p) := i in
  match weighted t c p with
  | Ok w => 0 <=? w
  | Raise _ => false
  end.

Lemma weighted_table :
  forallb weighted_ok
    (list_prod (list_prod technical_values content_values) performance_values)
  = true.
Proof. vm_compute. reflexivity. Qed.

Lemma technical_listed (title meta h1s : status) :
  In (100 - deduction 20 10 title - deduction 20 10 meta - deduction 15 8 h1s)
     technical_values.
Proof.
  destruct title, meta, h1s; vm_compute;
    repeat (first [left; reflexivity | right]).
Qed.

Lemma content_listed (hs : headings) (content_status : status) :
  In (_calculate_heading_hierarchy_score hs - deduction 30 15 content_status)
     content_values.
Proof.
  pose proof (hierarchy_score_values hs) as Hin. cbn in Hin.
  repeat (destruct Hin as [<-|Hin];
          [destruct content_status; vm_compute;
           repeat (first [left; reflexivity | right])|]).
  destruct Hin.
Qed.

Lemma performance_listed (speed : status) :
  In (100 - deduction 40 20 speed) performance_values.
Proof. destruct speed; cbn; auto. Qed.

(** Binary64 multiplication does not depend on the order of its
    factors, so the formula as C3 words it is the one of the code. *)
Lemma mul_comm (a b : float) : mul a b = mul b a.
Proof.
  destruct a as [x|s|], b as [y|t|]; cbn [mul]; try reflexivity.
  - f_equal. unfold Qmult. f_equal; [apply Z.mul_comm | apply Pos.mul_comm].
  - by rewrite xorb_comm.
Qed.

Lemma overall_as_stated_weighted (t c p : Z) :
  overall_as_stated t c p = weighted t c p.
Proof.
  unfold overall_as_stated, weighted.
  destruct (of_int t) as [tf|]; [|reflexivity].
  destruct (of_int c) as [cf|]; [|reflexivity].
  destruct (of_int p) as [pf|]; [|reflexivity].
  cbn [mbind result_bind bind].
  by rewrite !(mul_comm (literal _ _)).
Qed.

Lemma calculate_scores_unfold
    (title meta content_status speed : status) (ha : heading_analysis) :
  _calculate_scores title meta ha content_status speed =
    (let t := 100 - deduction 20 10 title - deduction 20 10 meta
              - deduction 15 8 (h1_status ha) in
     let c := hierarchy_score ha - deduction 30 15 content_status in
     let p := 100 - deduction 40 20 speed in
     overall_score ← weighted t c p;
     Ok {| overall := Z.max 0 overall_score; technical := Z.max 0 t;
           content := Z.max 0 c; performance := Z.max 0 p |}).
Proof.
  unfold _calculate_scores.
  destruct title, meta, (h1_status ha), content_status, speed;
    cbn [deduction]; rewrite ?Z.sub_0_r; reflexivity.
Qed.

(** C3. For the headings of any page and any statuses of the other
    analyses, [_calculate_scores] returns; the overall score is
    [max(0, int(0.4 * technical + 0.3 * content + 0.3 * performance))]
    of the returned scores; technical, content and performance are
    100, the hierarchy score and 100 less the stated deductions; and
    none of the four is negative. *)
Theorem calculate_scores_spec
    (title meta content_status speed : status) (hs : headings) :
  exists s w,
    _calculate_scores title meta (_analyze_headings hs) content_status speed = Ok s
    /\ overall_as_stated (technical s) (content s) (performance s) = Ok w
    /\ overall s = Z.max 0 w
    /\ technical s = 100 - deduction 20 10 title - deduction 20 10 meta
                     - deduction 15 8 (h1_status (_analyze_headings hs))
    /\ content s = hierarchy_score (_analyze_headings hs)
                   - deduction 30 15 content_status
    /\ performance s = 100 - deduction 40 20 speed
    /\ 0 <= overall s /\ 0 <= technical s /\ 0 <= content s /\ 0 <= performance s.
Proof.
  rewrite calculate_scores_unfold. cbn zeta.
  set (ha := _analyze_headings hs).
  set (t := 100 - deduction 20 10 title - deduction 20 10 meta
            - deduction 15 8 (h1_status ha)).
  set (c := hierarchy_score ha - deduction 30 15 content_status).
  set (p := 100 - deduction 40 20 speed).
  pose proof weighted_table as Htable. rewrite forallb_forall in Htable.
  assert (Hin : In (t, c, p)
                  (list_prod (list_prod technical_values content_values)
                             performance_values)).
  { repeat apply in_prod.
    - apply technical_listed.
    - apply content_listed.
    - apply performance_listed. }
  specialize (Htable _ Hin). unfold weighted_ok in Htable.
  assert (Ht : 45 <= t) by (unfold t, deduction;
    destruct title, meta, (h1_status ha); lia).
  assert (Hc : 10 <= c).
  { pose proof (hierarchy_score_min hs). unfold c, deduction.
    change (hierarchy_score ha) with (_calculate_heading_hierarchy_score hs).
    destruct content_status; lia. }
  assert (Hp : 60 <= p) by (unfold p, deduction; destruct speed; lia).
  destruct (weighted t c p) as [w|e] eqn:Hw; [|discriminate].
  apply Z.leb_le in Htable. cbn [mbind result_bind bind].
  eexists _, w. cbn [overall technical content performance].
  rewrite !Z.max_r by lia.
  split; [reflexivity|]. split; [by rewrite overall_as_stated_weighted|].
  repeat split; cbn [overall technical content performance];
    first [reflexivity | lia].
Qed.

(** A page with one title warning, a good description, two [h1], a
    skipped level, little text and a slow answer. *)
Example calculate_scores_example :
  _calculate_scores warning good
    (_analyze_headings {| h1 := 2; h2 := 0; h3 := 4; h4 := 0; h5 := 0; h6 := 0 |})
    critical critical
  = Ok {| overall := 64; technical := 82; content := 45; performance := 60 |}.
Proof. vm_compute. reflexivity. Qed.

Section readability.
Variable flesch_reading_ease : string -> result float.

(** C7. Whatever textstat does, the readability is between 0 and 100:
    the truncated score clamped to that range when textstat returns a
    finite score, and 50 when the call raises (or returns a score that
    [int] refuses: an infinity or a NaN). *)
Theorem readability_in_range (text : string) :
  let r := _calculate_readability flesch_reading_ease text in
  0 <= r <= 100
  /\ (forall q, flesch_reading_ease text = Ok (Finite q) ->
        r = Z.max 0 (Z.min 100 (Z.quot (Qnum q) (Zpos (Qden q)))))
  /\ (forall e, flesch_reading_ease text = Raise e -> r = 50)
  /\ (forall a, flesch_reading_ease text = Ok a ->
        (forall q, a <> Finite q) -> r = 50).
Proof.
  unfold _calculate_readability. cbn zeta.
  destruct (flesch_reading_ease text) as [[q|neg|]|e]; cbn; repeat split;
    try lia; try congruence; try discriminate;
    intros a [= <-] Hno; by destruct (Hno q).
Qed.

End readability.

(** Scores of 72.9, -3.5 and 120.2, a NaN, and a failure of the library. *)
Example readability_examples :
  _calculate_readability (fun _ => Ok (literal 729 10)) "a" = 72
  /\ _calculate_readability (fun _ => Ok (literal (-35) 10)) "a" = 0
  /\ _calculate_readability (fun _ => Ok (literal 1202 10)) "a" = 100
  /\ _calculate_readability (fun _ => Ok NaN) "a" = 50
  /\ _calculate_readability (fun _ => Raise (ZeroDivisionError "x")) "a" = 50.
Proof. repeat split; vm_compute; reflexivity. Qed.

End seo_analyzer_facts.

(** ** Further properties *)

Section usage_count_facts.
Import database.

(** X1. Recording a usage raises a count of the same table by one
    exactly when the count is asked for the recording user, for the
    day of the time stamp, and for all tools or for the recorded tool;
    every other count stays as it was. *)
Theorem record_usage_counts_once (db : usage_table) (utcnow : datetime)
    (today : Z) (u v : User) (tool : string) (asked : option string)
    (target_date : option Z) :
  get_daily_usage_count (record_usage db utcnow u tool) today v asked target_date
  = get_daily_usage_count db today v asked target_date
    + (if bool_decide (id u = id v)
          && bool_decide (dt_date utcnow = default today target_date)
          && (negb (Py.truthy_opt_str asked) || bool_decide (Some tool = asked))
       then 1 else 0).
Proof.
  unfold get_daily_usage_count, usage_records, record_usage.
  replace (match target_date with Some d => d | None => today end)
    with (default today target_date) by (by destruct target_date).
  set (day := default today target_date).
  rewrite filter_app, filter_cons, filter_nil. cbn [user_id].
  destruct (decide (id u = id v)) as [Hu|Hu]; cycle 1.
  { rewrite (bool_decide_eq_false_2 _ Hu). cbn [andb]. rewrite app_nil_r. lia. }
  rewrite (bool_decide_eq_true_2 _ Hu). cbn [andb].
  rewrite filter_app, filter_cons, filter_nil. cbn [used_at].
  destruct (decide (dt_date utcnow = day)) as [Hd|Hd]; cycle 1.
  { rewrite (bool_decide_eq_false_2 _ Hd). cbn [andb]. rewrite app_nil_r. lia. }
  rewrite (bool_decide_eq_true_2 _ Hd). cbn [andb].
  destruct (Py.truthy_opt_str asked); cbn [negb orb].
  - rewrite filter_app, filter_cons, filter_nil. cbn [tool_name].
    destruct (decide (Some tool = asked)) as [Ht|Ht].
    + rewrite (bool_decide_eq_true_2 _ Ht), length_app. cbn [length]. lia.
    + rewrite (bool_decide_eq_false_2 _ Ht), app_nil_r. lia.
  - rewrite length_app. cbn [length]. lia.
Qed.

End usage_count_facts.
Section quota_facts.
Import Py flask database ai_tools.

(** [n] requests to [/ai/generate] with the same body, one after the
    other; the statuses of the answers. *)
Fixpoint serve (e : env) (body : result json) (n : nat) : M world (list Z) :=
  match n with
  | O => mret []
  | S n' =>
      r ← ai_generate e body;
      rest ← serve e body n';
      mret (status r :: rest)
  end.

Lemma count_today_add_usage e w u row :
  count_today e (add_usage row w) u
  = count_today e w u
    + (if bool_decide (user_id row = id u)
          && bool_decide (dt_date (used_at row) = today e) then 1 else 0).
Proof.
  unfold count_today, add_usage. cbn [usage].
  unfold get_daily_usage_count, usage_records. cbn [truthy_opt_str].
  rewrite filter_app, filter_cons, filter_nil.
  destruct (decide (user_id row = id u)) as [Hu|Hu]; cycle 1.
  { rewrite (bool_decide_eq_false_2 _ Hu). cbn [andb]. rewrite app_nil_r. lia. }
  rewrite (bool_decide_eq_true_2 _ Hu). cbn [andb].
  rewrite filter_app, filter_cons, filter_nil.
  destruct (decide (dt_date (used_at row) = today e)) as [Hd|Hd].
  - rewrite (bool_decide_eq_true_2 _ Hd), length_app. cbn [length]. lia.
  - rewrite (bool_decide_eq_false_2 _ Hd), app_nil_r. lia.
Qed.

Lemma count_today_add_ai_call e w u r :
  count_today e (add_ai_call r w) u = count_today e w u.
Proof. reflexivity. Qed.

(** A free user's request that passes the check and gets a reply. *)
Lemma ai_generate_free_served e w u fields p :
  current_user e = LoggedIn u -> role u = FREE ->
  db_query_ok e = true -> db_commit_ok e = true ->
  prompt_of fields = JStr p -> p <> "" ->
  unavailable (gemini e (generate_content (JStr p))) = false ->
  count_today e w u < 3 ->
  ai_generate e (Ok (JObj fields)) w
  = (Ok (jsonify [("output", JStr (gemini e (generate_content (JStr p))))] 200),
     add_usage {| user_id := id u; tool_name := "ai_generate"; used_at := utcnow e;
                  input_data := Some (slice_to 500 p);
                  output_data :=
                    output_column (Some (gemini e (generate_content (JStr p)))) |}
               (add_ai_call (generate_content (JStr p)) w)).
Proof.
  intros Hcu Hfree Hq Hc Hp Hne Hun Hlt.
  assert (Htruthy : truthy (prompt_of fields) = true).
  { rewrite Hp. cbn. by destruct (String.eqb_spec p ""). }
  pose proof (ai_generate_allowed e w u fields Hcu Htruthy) as Hgo.
  cbn zeta in Hgo. rewrite Hgo by (right; done).
  rewrite Hp, Hun. f_equal.
  by rewrite (record_usage_free_str e _ u).
Qed.

(** A free user's request at the limit. *)
Lemma ai_generate_free_refused e w u fields :
  current_user e = LoggedIn u -> role u = FREE ->
  db_query_ok e = true ->
  truthy (prompt_of fields) = true ->
  3 <= count_today e w u ->
  exists msg, ai_generate e (Ok (JObj fields)) w = (Ok (error_json msg 403), w).
Proof.
  intros Hcu Hfree Hq Htruthy Hge.
  unfold ai_generate.
  unfold mbind, M_bind, mbindM, mret, M_ret, ret, raise, lift, try_except.
  cbn [json_get]. fold (prompt_of fields). rewrite Htruthy. cbn [negb].
  rewrite (check_usage_limit_logged_in e w u) by done.
  rewrite is_premium_role, bool_decide_eq_false_2 by congruence.
  rewrite Hq. destruct (Z.leb_spec 3 (count_today e w u)); [|lia].
  cbn [allowed negb message]. by eexists.
Qed.

(** X2. The quota over a run of requests.  A free user who sends [n]
    requests with a prompt to [/ai/generate], while the service
    answers, the database works and the server's day is the day of
    its UTC clock, is answered 200 until three rows of today exist and
    403 from then on; the count of today ends at 3 at most (or where
    it was, if it was higher). *)
Theorem free_quota_closes_after_three (e : env) (u : User)
    (fields : list (string * json)) (p : string) (n : nat) (w : world) :
  current_user e = LoggedIn u -> role u = FREE ->
  db_query_ok e = true -> db_commit_ok e = true ->
  dt_date (utcnow e) = today e ->
  prompt_of fields = JStr p -> p <> "" ->
  unavailable (gemini e (generate_content (JStr p))) = false ->
  let left := Z.to_nat (3 - count_today e w u) in
  exists w',
    serve e (Ok (JObj fields)) n w
    = (Ok (replicate (min n left) 200 ++ replicate (n - left) 403), w')
    /\ count_today e w' u = Z.max (count_today e w u)
                                  (Z.min 3 (count_today e w u + Z.of_nat n))
    /\ length (usage w') = (length (usage w) + min n left)%nat.
Proof.
  intros Hcu Hfree Hq Hc Hday Hp Hne Hun. cbn zeta.
  revert w. induction n as [|n IH]; intros w.
  { exists w. cbn. split; [done|]. split; lia. }
  cbn [serve]. unfold mbind, M_bind, mbindM.
  destruct (Z.leb_spec 3 (count_today e w u)) as [Hge|Hlt].
  - assert (Htruthy : truthy (prompt_of fields) = true).
    { rewrite Hp. cbn. by destruct (String.eqb_spec p ""). }
    destruct (ai_generate_free_refused e w u fields Hcu Hfree Hq Htruthy Hge)
      as [msg ->].
    destruct (IH w) as (w' & Hrun & Hcount & Hlen).
    unfold mbind, M_bind, mbindM in Hrun. rewrite Hrun.
    exists w'. replace (Z.to_nat (3 - count_today e w u)) with 0%nat in * by lia.
    rewrite Nat.min_0_r, Nat.sub_0_r in *. cbn [replicate app] in *.
    split; [done|]. split; lia.
  - rewrite (ai_generate_free_served e w u fields p) by done.
    set (w1 := add_usage _ _).
    assert (Hc1 : count_today e w1 u = count_today e w u + 1).
    { unfold w1. rewrite count_today_add_usage, count_today_add_ai_call.
      cbn [user_id used_at]. rewrite !bool_decide_eq_true_2 by done. done. }
    destruct (IH w1) as (w' & Hrun & Hcount & Hlen).
    unfold mbind, M_bind, mbindM in Hrun. rewrite Hrun.
    exists w'. rewrite Hc1 in *.
    replace (Z.to_nat (3 - count_today e w u))
      with (S (Z.to_nat (3 - (count_today e w u + 1)))) by lia.
    cbn [Nat.min Nat.sub replicate app status jsonify].
    split; [done|]. split; [lia|].
    rewrite Hlen. unfold w1. cbn. rewrite length_app. cbn. lia.
Qed.

(** X3. The same run when the server's day differs from the day of its
    UTC clock, as it does for some hours each day on a server whose
    time zone is not UTC: the rows are stamped with the UTC day but
    counted for the local day, so every request of a user under the
    limit is answered 200 and the count never moves. *)
Theorem quota_open_when_days_differ (e : env) (u : User)
    (fields : list (string * json)) (p : string) (n : nat) (w : world) :
  current_user e = LoggedIn u -> role u = FREE ->
  db_query_ok e = true -> db_commit_ok e = true ->
  dt_date (utcnow e) <> today e ->
  prompt_of fields = JStr p -> p <> "" ->
  unavailable (gemini e (generate_content (JStr p))) = false ->
  count_today e w u < 3 ->
  exists w',
    serve e (Ok (JObj fields)) n w = (Ok (replicate n 200), w')
    /\ count_today e w' u = count_today e w u
    /\ length (usage w') = (length (usage w) + n)%nat.
Proof.
  intros Hcu Hfree Hq Hc Hday Hp Hne Hun.
  revert w. induction n as [|n IH]; intros w Hlt.
  { exists w. cbn. split; [done|]. split; lia. }
  cbn [serve]. unfold mbind, M_bind, mbindM.
  rewrite (ai_generate_free_served e w u fields p) by done.
  set (w1 := add_usage _ _).
  assert (Hc1 : count_today e w1 u = count_today e w u).
  { unfold w1. rewrite count_today_add_usage, count_today_add_ai_call.
    cbn [user_id used_at]. rewrite (bool_decide_eq_false_2 _ Hday).
    rewrite andb_false_r. lia. }
  destruct (IH w1) as (w' & Hrun & Hcount & Hlen); [lia|].
  unfold mbind, M_bind, mbindM in Hrun. rewrite Hrun.
  exists w'. cbn [replicate status jsonify].
  split; [done|]. split; [lia|].
  rewrite Hlen. unfold w1. cbn. rewrite length_app. cbn. lia.
Qed.

End quota_facts.
Section form_tool_facts.
Import Py flask database ai_tools.

(** X4. The POST branch of a form tool, for a logged-in user.
    - A free user with three rows of today is told to upgrade; the
      form is not read, the service not called, nothing written.
    - When the usage query fails the exception leaves the view: the
      check runs outside the [try].
    - Past the check: a form that cannot be read gives the tool's
      failure message, an answer of the form's own check is passed on,
      in both cases with nothing called or written; otherwise the
      service is called once and its reply is the result, whatever it
      says, with one usage row for a free user and none for a premium
      user.  A reply that reports the service as unavailable is
      charged like any other. *)
Theorem ai_tool_post_outcomes (e : env) (w : world) (u : User) (tool : string)
    (read_form : result (response + ai_request * string)) (failure : string) :
  current_user e = LoggedIn u ->
  let run := ai_tool_post e tool read_form failure w in
  (role u = FREE -> db_query_ok e = true -> 3 <= count_today e w u ->
     exists msg, run = (Ok (tool_failure msg (Some "auth.upgrade")), w))
  /\ (role u = FREE -> db_query_ok e = false ->
      run = (Raise (LibraryError "database query failed"), w))
  /\ (permitted e w u ->
      (forall ex, read_form = Raise ex ->
         run = (Ok (jsonify [("success", JBool false); ("error", JStr failure)] 200), w))
      /\ (forall early, read_form = Ok (inl early) -> run = (Ok early, w))
      /\ (forall request summary, read_form = Ok (inr (request, summary)) ->
          exists msg w',
            run = (Ok (jsonify [("success", JBool true);
                                ("result", JStr (gemini e request));
                                ("message", JStr msg)] 200), w')
            /\ ai_calls w' = ai_calls w ++ [request]
            /\ (role u = PREMIUM -> usage w' = usage w)
            /\ (role u = FREE -> summary <> "" -> db_commit_ok e = true ->
                usage w' = usage w ++
                  [ {| user_id := id u; tool_name := tool; used_at := utcnow e;
                       input_data := Some (slice_to 500 summary);
                       output_data :=
                         output_column (Some (slice_to 200 (gemini e request))) |} ]))).
Proof.
  intros Hcu. cbn zeta. unfold ai_tool_post. rewrite run_bind.
  rewrite (check_usage_limit_logged_in e w u) by done.
  rewrite is_premium_role.
  split; [|split].
  - intros Hfree Hq Hge.
    rewrite (bool_decide_eq_false_2 (role u = PREMIUM)) by congruence.
    rewrite Hq. destruct (Z.leb_spec 3 (count_today e w u)); [|lia].
    cbn [allowed negb message redirect]. by eexists.
  - intros Hfree Hq.
    rewrite (bool_decide_eq_false_2 (role u = PREMIUM)) by congruence.
    by rewrite Hq.
  - intros Hperm.
    assert (Hallow : exists msg,
      (if bool_decide (role u = PREMIUM) then
         (Ok {| allowed := true; message := "Premium user - unlimited access";
                redirect := None |}, w)
       else if db_query_ok e then
         if 3 <=? count_today e w u then
           (Ok {| allowed := false;
                  message := "Daily limit reached (" ++ pretty (count_today e w u)
                             ++ "/3). Upgrade to Premium for unlimited access.";
                  redirect := Some "auth.upgrade" |}, w)
         else
           (Ok {| allowed := true;
                  message := "Free usage: " ++ pretty (count_today e w u + 1)
                             ++ "/3 today";
                  redirect := None |}, w)
       else (Raise (LibraryError "database query failed"), w))
      = (Ok {| allowed := true; message := msg; redirect := None |}, w)).
    { destruct Hperm as [Hp | (Hf & Hq & Hc)].
      - rewrite bool_decide_eq_true_2 by done. eauto.
      - rewrite bool_decide_eq_false_2 by congruence. rewrite Hq.
        destruct (Z.leb_spec 3 (count_today e w u)); [lia | eauto]. }
    destruct Hallow as [msg ->]. cbn [allowed negb message].
    unfold try_except, mbind, M_bind, mbindM, lift, mret, M_ret, ret.
    split; [|split].
    + by intros ex ->.
    + by intros early ->.
    + intros request summary ->. unfold call_gemini, modify.
      unfold mbind, M_bind, mbindM, mret, M_ret, ret.
      set (w1 := add_ai_call request w).
      destruct (record_usage_usage_mono e w1 tool (JStr summary)
                  (Some (slice_to 200 (gemini e request)))) as (rows & Hrec & _).
      exists msg. eexists. rewrite Hrec. split; [reflexivity|].
      split; [done|]. split.
      * intros Hprem.
        rewrite (record_usage_premium e w1 u) in Hrec by done.
        injection Hrec as Hrec. subst w1. cbn [usage add_ai_call] in *.
        by rewrite <- Hrec.
      * intros Hfree Hs Hcommit.
        rewrite (record_usage_free_str e w1 u) in Hrec by done.
        injection Hrec as Hrec. subst w1. cbn [usage add_ai_call] in *.
        by rewrite <- Hrec.
Qed.

End form_tool_facts.

Section gemini_facts.
Import Py gemini_service.

Variable api_key_found : bool.
Variable new_client_ok : bool.
Variable api : nat -> string -> api_outcome.

Abbreviation attempts := (gemini_service.attempts api).
Abbreviation _generate_content :=
  (gemini_service._generate_content api_key_found new_client_ok api).

(** A call that brings no text: an exception, or a response whose
    text is [None] or empty. *)
Definition no_text (o : api_outcome) : bool :=
  match o with
  | Response text => negb (truthy_opt_str text)
  | ApiError _ => true
  end.

Definition is_error (o : api_outcome) : bool :=
  match o with Response _ => false | ApiError _ => true end.

(** The exceptions among the [k] calls from the [base]-th on. *)
Fixpoint errors_from (prompt : string) (base k : nat) : nat :=
  match k with
  | O => 0
  | S k' => (if is_error (api base prompt) then 1 else 0)
            + errors_from prompt (S base) k'
  end%nat.

Definition after (s : service) (calls slept : nat) : service :=
  {| client := client s; api_calls := api_calls s + calls;
     sleeps := sleeps s + slept |}.

Lemma after_0 s : after s 0 0 = s.
Proof. destruct s. unfold after. cbn. by rewrite !Nat.add_0_r. Qed.

(** One turn of the loop. *)
Lemma attempts_S prompt max_retries attempt remaining s :
  attempts prompt max_retries attempt (S remaining) s
  = let s1 := after s 1 0 in
    match api (api_calls s) prompt with
    | Response text =>
        if truthy_opt_str text then (Ok (strip (default "" text)), s1)
        else attempts prompt max_retries (attempt + 1) remaining s1
    | ApiError e =>
        if attempt <? max_retries - 1
        then attempts prompt max_retries (attempt + 1) remaining (after s 1 1)
        else (Ok ("AI generation failed: " +:+ str_exn e), s1)
    end.
Proof.
  cbn [gemini_service.attempts].
  unfold mbind at 1, M_bind at 1, mbindM at 1.
  unfold call_api, mbind, M_bind, mbindM, get, put, mret, M_ret, ret.
  assert (H1 : {| client := client s; api_calls := S (api_calls s);
                  sleeps := sleeps s |} = after s 1 0).
  { unfold after. f_equal; lia. }
  rewrite H1. cbn zeta.
  destruct (api (api_calls s) prompt) as [text|ex].
  - by destruct (truthy_opt_str text).
  - destruct (attempt <? max_retries - 1); [|done].
    unfold sleep, modify. do 2 f_equal. unfold after. cbn. f_equal; lia.
Qed.

(** Turns that bring no text, with more turns left after them, are
    passed over: one call each, one second of sleep per exception. *)
Lemma attempts_skip prompt max_retries (k : nat) :
  forall (remaining : nat) (attempt : Z) (s : service),
  (k < remaining)%nat ->
  Z.of_nat remaining + attempt = max_retries ->
  (forall j, (j < k)%nat -> no_text (api (api_calls s + j) prompt) = true) ->
  attempts prompt max_retries attempt remaining s
  = attempts prompt max_retries (attempt + Z.of_nat k) (remaining - k)
      (after s k (errors_from prompt (api_calls s) k)).
Proof.
  induction k as [|k IH]; intros remaining attempt s Hk Hsum Hno.
  { cbn [errors_from]. by rewrite after_0, Z.add_0_r, Nat.sub_0_r. }
  destruct remaining as [|remaining]; [lia|].
  cbn [gemini_service.attempts].
  unfold mbind at 1, M_bind at 1, mbindM at 1.
  unfold call_api, mbind, M_bind, mbindM, get, put, mret, M_ret, ret.
  pose proof (Hno 0%nat ltac:(lia)) as H0. rewrite Nat.add_0_r in H0.
  cbn [errors_from].
  destruct (api (api_calls s) prompt) as [text|ex] eqn:Hout; cbn [no_text] in H0.
  - apply negb_true_iff in H0. rewrite H0. cbn [is_error].
    rewrite IH; [| lia | lia |].
    + cbn [Nat.sub]. f_equal; [lia|].
      unfold after. cbn. f_equal; lia.
    + intros j Hj. cbn [api_calls].
      replace (S (api_calls s) + j)%nat with (api_calls s + S j)%nat by lia.
      apply Hno. lia.
  - destruct (Z.ltb_spec attempt (max_retries - 1)); [|lia].
    unfold sleep, modify. cbn [is_error].
    rewrite IH; [| lia | lia |].
    + cbn [Nat.sub]. f_equal; [lia|].
      unfold after. cbn. f_equal; lia.
    + intros j Hj. cbn [api_calls].
      replace (S (api_calls s) + j)%nat with (api_calls s + S j)%nat by lia.
      apply Hno. lia.
Qed.

(** Every run of the loop returns, after [remaining] calls at most and
    fewer seconds of sleep than turns. *)
Lemma attempts_bounded prompt max_retries (remaining : nat) :
  forall (attempt : Z) (s : service),
  Z.of_nat remaining + attempt = max_retries ->
  exists text calls slept,
    attempts prompt max_retries attempt remaining s = (Ok text, after s calls slept)
    /\ (calls <= remaining)%nat /\ (slept <= remaining - 1)%nat.
Proof.
  induction remaining as [|remaining IH]; intros attempt s Hsum.
  { exists "Failed to generate content after multiple attempts.", 0%nat, 0%nat.
    rewrite after_0. done. }
  cbn [gemini_service.attempts].
  unfold mbind at 1, M_bind at 1, mbindM at 1.
  unfold call_api, mbind, M_bind, mbindM, get, put, mret, M_ret, ret.
  set (s1 := {| client := client s; api_calls := S (api_calls s);
                sleeps := sleeps s |}).
  assert (Hs1 : forall c z, after s1 c z = after s (S c) z).
  { intros. unfold after, s1. cbn. f_equal; lia. }
  destruct (api (api_calls s) prompt) as [text|ex].
  - destruct (truthy_opt_str text) eqn:Ht.
    + exists (strip (default "" text)), 1%nat, 0%nat.
      split; [|split; lia].
      unfold after, s1. f_equal. f_equal; lia.
    + destruct (IH (attempt + 1) s1 ltac:(lia)) as (t & c & z & -> & Hc & Hz).
      exists t, (S c), z. rewrite Hs1. split; [reflexivity|]. split; lia.
  - destruct (Z.ltb_spec attempt (max_retries - 1)).
    + unfold sleep, modify.
      set (s2 := {| client := client s1; api_calls := api_calls s1;
                    sleeps := S (sleeps s1) |}).
      destruct (IH (attempt + 1) s2 ltac:(lia)) as (t & c & z & -> & Hc & Hz).
      exists t, (S c), (S z). split; [|split; lia].
      f_equal. unfold after, s2, s1. cbn. f_equal; lia.
    + exists ("AI generation failed: " +:+ str_exn ex), 1%nat, 0%nat.
      split; [|split; lia].
      f_equal. unfold after, s1. f_equal; lia.
Qed.

Definition unavailable_message : string :=
  "AI service is currently unavailable. Please check configuration.".

(** The state [_generate_content] works in once it has looked for a
    client. *)
Definition with_client (s : service) : service :=
  if client s then s
  else if api_key_found
       then {| client := new_client_ok; api_calls := api_calls s;
               sleeps := sleeps s |}
       else s.

Lemma generate_content_unfold prompt max_retries s :
  _generate_content prompt max_retries s
  = if client (with_client s)
    then attempts prompt max_retries 0 (Z.to_nat max_retries) (with_client s)
    else (Ok unavailable_message, with_client s).
Proof.
  unfold gemini_service._generate_content, with_client, _initialize_client.
  unfold mbind, M_bind, mbindM, get, mret, M_ret, ret, modify.
  destruct (client s) eqn:Hc; cbn [negb]; [by rewrite Hc|].
  destruct api_key_found; cbn [negb].
  - cbn [client]. by destruct new_client_ok.
  - by rewrite Hc.
Qed.

(** X5. [_generate_content] always returns a string and never raises;
    it makes at most [max_retries] calls of the API and sleeps fewer
    seconds than that; without a client it makes no call and returns
    the message that the views test for. *)
Theorem generate_content_bounded (prompt : string) (max_retries : Z) (s : service) :
  exists text s',
    _generate_content prompt max_retries s = (Ok text, s')
    /\ (api_calls s <= api_calls s' <= api_calls s + Z.to_nat max_retries)%nat
    /\ (sleeps s <= sleeps s' <= sleeps s + (Z.to_nat max_retries - 1))%nat
    /\ (client s' = false ->
        text = unavailable_message /\ api_calls s' = api_calls s).
Proof.
  rewrite generate_content_unfold.
  assert (Hcalls : api_calls (with_client s) = api_calls s)
    by (unfold with_client; by repeat case_match).
  assert (Hsleeps : sleeps (with_client s) = sleeps s)
    by (unfold with_client; by repeat case_match).
  destruct (client (with_client s)) eqn:Hc.
  - destruct (Z.le_gt_cases 0 max_retries) as [Hm|Hm].
    + destruct (attempts_bounded prompt max_retries (Z.to_nat max_retries) 0
                  (with_client s) ltac:(lia)) as (t & c & z & -> & Hcb & Hzb).
      eexists _, _. split; [reflexivity|]. unfold after.
      cbn [api_calls sleeps client]. rewrite Hcalls, Hsleeps, Hc.
      repeat split; (lia || done).
    + replace (Z.to_nat max_retries) with 0%nat by lia.
      eexists _, _. split; [reflexivity|].
      rewrite Hcalls, Hsleeps, Hc. repeat split; (lia || done).
  - eexists _, _. split; [reflexivity|].
    rewrite Hcalls, Hsleeps. repeat split; (lia || done).
Qed.

(** X6. With a client at hand, the first call that brings a text
    decides: when the [k] calls before it bring none and [k] is below
    [max_retries], the result is that text, stripped, after [k + 1]
    calls and one second of sleep for each exception met. *)
Theorem generate_content_first_text (prompt : string) (max_retries : Z)
    (s : service) (k : nat) (text : string) :
  client (with_client s) = true ->
  (k < Z.to_nat max_retries)%nat ->
  (forall j, (j < k)%nat -> no_text (api (api_calls s + j) prompt) = true) ->
  api (api_calls s + k) prompt = Response (Some text) ->
  text <> "" ->
  _generate_content prompt max_retries s
  = (Ok (strip text),
     after (with_client s) (S k) (errors_from prompt (api_calls s) k)).
Proof.
  intros Hc Hk Hno Hout Htext.
  assert (Hcalls : api_calls (with_client s) = api_calls s)
    by (unfold with_client; by repeat case_match).
  rewrite generate_content_unfold, Hc.
  rewrite (attempts_skip prompt max_retries k); [| lia | lia |]; cycle 1.
  { intros j Hj. rewrite Hcalls. by apply Hno. }
  rewrite Hcalls.
  destruct (Z.to_nat max_retries - k)%nat as [|r] eqn:Hr; [lia|].
  rewrite attempts_S. cbn zeta. cbn [api_calls after]. rewrite Hcalls, Hout.
  cbn [truthy_opt_str].
  destruct (String.eqb_spec text ""); [done|]. cbn [negb default].
  f_equal. unfold after. cbn. f_equal; lia.
Qed.

(** When no call brings a text. *)
Lemma generate_content_no_text (prompt : string) (max_retries : Z) (s : service) :
  client (with_client s) = true ->
  1 <= max_retries ->
  (forall j, (j < Z.to_nat max_retries)%nat ->
             no_text (api (api_calls s + j) prompt) = true) ->
  exists text s',
    _generate_content prompt max_retries s = (Ok text, s')
    /\ text = match api (api_calls s + (Z.to_nat max_retries - 1)) prompt with
              | ApiError e => "AI generation failed: " +:+ str_exn e
              | Response _ => "Failed to generate content after multiple attempts."
              end
    /\ api_calls s' = (api_calls s + Z.to_nat max_retries)%nat
    /\ String.prefix "AI service is currently unavailable" text = false.
Proof.
  intros Hc Hm Hno.
  assert (Hcalls : api_calls (with_client s) = api_calls s)
    by (unfold with_client; by repeat case_match).
  rewrite generate_content_unfold, Hc.
  set (n := Z.to_nat max_retries) in *.
  rewrite (attempts_skip prompt max_retries (n - 1)); [| lia | lia |]; cycle 1.
  { intros j Hj. rewrite Hcalls. apply Hno. lia. }
  rewrite Hcalls.
  replace (n - (n - 1))%nat with 1%nat by lia.
  rewrite attempts_S. cbn zeta. cbn [api_calls after]. rewrite Hcalls.
  pose proof (Hno (n - 1)%nat ltac:(lia)) as Hlast.
  destruct (api (api_calls s + (n - 1)) prompt) as [text|ex]; cbn [no_text] in Hlast.
  - apply negb_true_iff in Hlast. rewrite Hlast.
    eexists _, _. split; [reflexivity|]. split; [done|].
    split; [cbn; lia | done].
  - destruct (Z.ltb_spec (0 + Z.of_nat (n - 1)) (max_retries - 1)); [lia|].
    eexists _, _. split; [reflexivity|]. split; [done|].
    split; [cbn; lia | done].
Qed.

(** X7. With a client at hand and [max_retries] at least 1, when none
    of the [max_retries] calls brings a text the result is a failure
    message: the last exception when the last call raised, the plain
    message otherwise.  Neither starts with the words the views take
    for an unavailable service. *)
Theorem generate_content_exhausted (prompt : string) (max_retries : Z) (s : service) :
  client (with_client s) = true ->
  1 <= max_retries ->
  (forall j, (j < Z.to_nat max_retries)%nat ->
             no_text (api (api_calls s + j) prompt) = true) ->
  exists text s',
    _generate_content prompt max_retries s = (Ok text, s')
    /\ text = match api (api_calls s + (Z.to_nat max_retries - 1)) prompt with
              | ApiError e => "AI generation failed: " +:+ str_exn e
              | Response _ => "Failed to generate content after multiple attempts."
              end
    /\ api_calls s' = (api_calls s + Z.to_nat max_retries)%nat
    /\ String.prefix "AI service is currently unavailable" text = false.
Proof. apply generate_content_no_text. Qed.

End gemini_facts.
Section service_in_view_facts.
Import Py flask database ai_tools.

(** X8. An API that fails is charged.  When the Gemini service holds a
    client and none of its three calls brings a text, its failure
    message is what [/ai/generate] hands to a free user under the
    limit as output, with status 200, and one usage row is written
    for it. *)
Theorem api_failure_is_charged
    (api_key_found new_client_ok : bool)
    (api : nat -> string -> gemini_service.api_outcome)
    (s : gemini_service.service)
    (e : env) (w : world) (u : User) (fields : list (string * json)) (p : string) :
  current_user e = LoggedIn u -> role u = FREE ->
  db_query_ok e = true -> db_commit_ok e = true ->
  prompt_of fields = JStr p -> p <> "" ->
  count_today e w u < 3 ->
  gemini_service.client (with_client api_key_found new_client_ok s) = true ->
  (forall j, (j < 3)%nat ->
     no_text (api (gemini_service.api_calls s + j)%nat p) = true) ->
  fst (gemini_service.generate_content api_key_found new_client_ok api p s)
  = Ok (gemini e (generate_content (JStr p))) ->
  exists text w',
    ai_generate e (Ok (JObj fields)) w
    = (Ok (jsonify [("output", JStr text)] 200), w')
    /\ text = match api (gemini_service.api_calls s + 2)%nat p with
              | gemini_service.ApiError ex => "AI generation failed: " +:+ str_exn ex
              | gemini_service.Response _ =>
                  "Failed to generate content after multiple attempts."
              end
    /\ length (usage w') = S (length (usage w)).
Proof.
  intros Hcu Hfree Hq Hc Hp Hne Hlt Hclient Hno Hreply.
  destruct (generate_content_no_text api_key_found new_client_ok api p 3 s
              Hclient ltac:(lia) Hno) as (text & s' & Hrun & Htext & _ & Hprefix).
  unfold gemini_service.generate_content in Hreply. rewrite Hrun in Hreply.
  cbn [fst] in Hreply. injection Hreply as Hreply.
  change (Z.to_nat 3 - 1)%nat with 2%nat in Htext.
  rewrite (ai_generate_free_served e w u fields p) by (done || by rewrite <- Hreply).
  rewrite <- Hreply. eexists _, _. split; [reflexivity|]. split; [done|].
  cbn. rewrite length_app. cbn. lia.
Qed.

End service_in_view_facts.

Section config_facts.
Import database_setup.

(** The row the loop adds for a name. *)
Definition default_config (name : string) : AIToolConfig :=
  {| tool_name := name; is_enabled := true; daily_limit_free := 3;
     daily_limit_premium := -1 |}.

Lemma first_by_name_app table extra name :
  first_by_name (table ++ extra) name
  = match first_by_name table name with
    | Some c => Some c
    | None => first_by_name extra name
    end.
Proof.
  unfold first_by_name. induction table as [|c table IH]; [done|].
  cbn. by destruct (String.eqb (tool_name c) name).
Qed.

Lemma first_by_name_Some table name c :
  first_by_name table name = Some c -> tool_name c = name /\ c ∈ table.
Proof.
  unfold first_by_name. intros H. apply find_some in H as [Hin Heq].
  apply String.eqb_eq in Heq. split; [done|]. by apply list_elem_of_In.
Qed.

Lemma first_by_name_None table name :
  first_by_name table name = None <-> name ∉ map tool_name table.
Proof.
  unfold first_by_name. induction table as [|c table IH]; cbn.
  { split; [intros _; apply not_elem_of_nil | done]. }
  rewrite not_elem_of_cons. destruct (String.eqb_spec (tool_name c) name).
  - split; [done | intros [? _]; congruence].
  - rewrite IH. split; [intros ?; split; [congruence | done] | tauto].
Qed.

(** What the loop adds: rows for names of the list that the table
    lacks, each with the default values. *)
Lemma add_missing_adds names table :
  exists added,
    add_missing names table = table ++ added
    /\ Forall (fun c => c = default_config (tool_name c)
                        /\ In (tool_name c) names
                        /\ first_by_name table (tool_name c) = None) added
    /\ (NoDup (map tool_name table) -> NoDup (map tool_name (table ++ added))).
Proof.
  revert table. induction names as [|name rest IH]; intros table.
  { exists []. rewrite app_nil_r. split; [done|]. split; [constructor | done]. }
  cbn [add_missing]. destruct (first_by_name table name) as [c|] eqn:Hfind.
  - destruct (IH table) as (added & -> & Hall & Hnd).
    exists added. split; [done|]. split; [|done].
    eapply Forall_impl; [exact Hall|]. cbn. intros ? (? & ? & ?). auto.
  - destruct (IH (table ++ [default_config name])) as (added & Heq & Hall & Hnd).
    exists (default_config name :: added).
    unfold default_config in Heq at 1. rewrite Heq, <- app_assoc.
    split; [done|]. split.
    + constructor; [cbn; auto|].
      eapply Forall_impl; [exact Hall|]. cbn. intros c (? & ? & Hc).
      split; [done|]. split; [auto|].
      rewrite first_by_name_app in Hc.
      by destruct (first_by_name table (tool_name c)).
    + intros Htable. rewrite <- app_assoc in Hnd. apply Hnd.
      rewrite map_app. cbn. apply NoDup_app. split; [done|].
      split; [|apply NoDup_singleton].
      intros x Hx Hx'. apply list_elem_of_singleton in Hx'. subst x.
      by apply first_by_name_None in Hfind.
Qed.

Lemma add_missing_found names table name :
  In name names -> is_Some (first_by_name (add_missing names table) name).
Proof.
  revert table. induction names as [|first rest IH]; intros table; [done|].
  intros [->|Hin]; cbn [add_missing].
  - destruct (first_by_name table name) as [c|] eqn:Hfind.
    + destruct (add_missing_adds rest table) as (added & -> & _).
      rewrite first_by_name_app, Hfind. eauto.
    + destruct (add_missing_adds rest (table ++ [default_config name]))
        as (added & Heq & _).
      unfold default_config in Heq at 1. rewrite Heq.
      rewrite !first_by_name_app, Hfind. unfold first_by_name at 1. cbn.
      rewrite String.eqb_refl. eauto.
  - destruct (first_by_name table first); by apply IH.
Qed.

Lemma add_missing_fixed names table :
  (forall name, In name names -> is_Some (first_by_name table name)) ->
  add_missing names table = table.
Proof.
  induction names as [|name rest IH]; intros Hall; [done|].
  cbn [add_missing]. destruct (Hall name ltac:(by left)) as [c ->].
  apply IH. intros. apply Hall. by right.
Qed.

(** X9. [create_default_ai_tools] only adds rows: each is the default
    configuration of one of the sixteen tools that had none, so a
    configuration that exists, a disabled tool say, stays as it is
    and names stay unique; after a commit every one of the sixteen
    tools has a configuration; a commit that fails leaves the table
    as it was; and a second run adds nothing. *)
Theorem create_default_ai_tools_spec (commit_ok again_ok : bool)
    (table : config_table) :
  (exists added,
      create_default_ai_tools commit_ok table = table ++ added
      /\ Forall (fun c => c = default_config (tool_name c)
                          /\ In (tool_name c) ai_tools
                          /\ first_by_name table (tool_name c) = None) added)
  /\ (forall name c, first_by_name table name = Some c ->
        first_by_name (create_default_ai_tools commit_ok table) name = Some c)
  /\ (NoDup (map tool_name table) ->
      NoDup (map tool_name (create_default_ai_tools commit_ok table)))
  /\ (forall name, In name ai_tools ->
        is_Some (first_by_name (create_default_ai_tools true table) name))
  /\ create_default_ai_tools false table = table
  /\ create_default_ai_tools again_ok (create_default_ai_tools commit_ok table)
     = create_default_ai_tools (commit_ok || again_ok) table.
Proof.
  unfold create_default_ai_tools.
  destruct (add_missing_adds ai_tools table) as (added & Heq & Hall & Hnd).
  split; [|split; [|split; [|split; [|split; [reflexivity|]]]]].
  - destruct commit_ok.
    + by exists added.
    + exists []. by rewrite app_nil_r.
  - intros name c Hfind. destruct commit_ok; [|done].
    by rewrite Heq, first_by_name_app, Hfind.
  - intros Htable. destruct commit_ok; [|done]. rewrite Heq. by apply Hnd.
  - intros name Hin. by apply add_missing_found.
  - destruct commit_ok; cbn [orb]; [|done].
    rewrite add_missing_fixed; [by destruct again_ok|].
    intros name Hin. by apply add_missing_found.
Qed.

End config_facts.
Section page_spec_facts.
Import Py pdf_toolkit.

(** A page specification as the toolkit documents it: pages and
    ranges, written in decimal and joined by commas. *)
Inductive page_spec : Type :=
| Page (n : Z)
| Range (start stop : Z).

Definition show_spec (spec : page_spec) : string :=
  match spec with
  | Page n => pretty n
  | Range start stop => pretty start +:+ "-" +:+ pretty stop
  end.

(** [",".join(...)] *)
Definition show_specs (specs : list page_spec) : string :=
  String.concat "," (List.map show_spec specs).

Definition denote (spec : page_spec) : Z * Z :=
  match spec with
  | Page n => (n, n)
  | Range start stop => (start, stop)
  end.

Definition is_digit (c : ascii) : bool :=
  match digit_val c with Some _ => true | None => false end.

Fixpoint all_chars (P : ascii -> bool) (s : string) : bool :=
  match s with
  | EmptyString => true
  | String c r => P c && all_chars P r
  end.

Lemma append_cons c s t : String c s +:+ t = String c (s +:+ t).
Proof. reflexivity. Qed.

Lemma all_chars_app P s t :
  all_chars P (s +:+ t) = all_chars P s && all_chars P t.
Proof.
  induction s as [|c s IH]; [done|].
  rewrite append_cons. cbn. by rewrite IH, andb_assoc.
Qed.

Lemma all_chars_impl (P Q : ascii -> bool) s :
  (forall c, P c = true -> Q c = true) ->
  all_chars P s = true -> all_chars Q s = true.
Proof.
  intros HPQ. induction s as [|c s IH]; [done|]. cbn.
  rewrite !andb_true_iff. intros [? ?]. auto.
Qed.

Lemma digit_val_pretty_N_char (x : N) :
  (x < 10)%N -> digit_val (pretty_N_char x) = Some (Z.of_N x).
Proof.
  intros Hx.
  assert (x = 0 \/ x = 1 \/ x = 2 \/ x = 3 \/ x = 4 \/ x = 5 \/ x = 6
          \/ x = 7 \/ x = 8 \/ x = 9)%N as H by lia.
  repeat (destruct H as [->|H]; [reflexivity|]). by subst.
Qed.

Lemma pretty_N_go_digits (x : N) :
  forall s, all_chars is_digit s = true ->
            all_chars is_digit (pretty_N_go x s) = true.
Proof.
  induction (N.lt_wf_0 x) as [x _ IH]; intros s Hs.
  destruct (N.eq_dec x 0%N) as [->|Hx]; [by rewrite pretty_N_go_0|].
  rewrite pretty_N_go_step by lia.
  apply IH; [apply N.div_lt; lia|].
  cbn. rewrite Hs, andb_true_r. unfold is_digit.
  by rewrite digit_val_pretty_N_char by (apply N.mod_lt; lia).
Qed.

(** Reading the digits the printer wrote gives the number back. *)
Lemma digits_val_pretty_N_go (x : N) :
  (0 < x)%N ->
  exists k : Z, 0 <= k /\ forall s acc b,
    digits_val acc b (pretty_N_go x s)
    = digits_val (acc * 10 ^ k + Z.of_N x) true s.
Proof.
  induction (N.lt_wf_0 x) as [x _ IH]; intros Hx.
  assert (Hdm : Z.of_N x = 10 * Z.of_N (x `div` 10) + Z.of_N (x `mod` 10)).
  { rewrite <- (N2Z.inj_mul 10), <- N2Z.inj_add. f_equal. apply N.div_mod. lia. }
  destruct (N.eq_dec (x `div` 10)%N 0%N) as [Hq|Hq].
  - exists 1. split; [lia|]. intros s acc b.
    rewrite pretty_N_go_step, Hq, pretty_N_go_0 by done.
    cbn [digits_val].
    rewrite digit_val_pretty_N_char by (apply N.mod_lt; lia).
    f_equal. rewrite Hq in Hdm. change (Z.of_N 0) with 0 in Hdm.
    rewrite Z.pow_1_r. lia.
  - destruct (IH (x `div` 10)%N) as (k & Hk0 & Hk);
      [apply N.div_lt; lia | by apply N.neq_0_lt_0 |].
    exists (k + 1). split; [lia|]. intros s acc b.
    rewrite pretty_N_go_step, Hk by done.
    cbn [digits_val].
    rewrite digit_val_pretty_N_char by (apply N.mod_lt; lia).
    f_equal. rewrite Z.pow_add_r, Z.pow_1_r by lia. lia.
Qed.

Lemma pretty_pos_digits (n : Z) :
  0 < n -> all_chars is_digit (pretty n) = true /\ pretty n <> "".
Proof.
  intros Hn. destruct n as [|p|p]; try lia.
  change (pretty (Z.pos p)) with (pretty (N.pos p)).
  unfold pretty, pretty_N. destruct (decide (N.pos p = 0%N)); [done|].
  split; [by apply pretty_N_go_digits|].
  rewrite pretty_N_go_step by lia.
  intros Heq.
  assert (Hlen : forall x s, (String.length s <= String.length (pretty_N_go x s))%nat).
  { intros x. induction (N.lt_wf_0 x) as [x _ IH]; intros s.
    destruct (N.eq_dec x 0%N) as [->|Hx]; [by rewrite pretty_N_go_0|].
    rewrite pretty_N_go_step by lia.
    etrans; [|apply IH; apply N.div_lt; lia]. cbn. lia. }
  pose proof (Hlen (N.pos p `div` 10)%N
                (String (pretty_N_char (N.pos p `mod` 10)) "")) as H.
  rewrite Heq in H. cbn in H. lia.
Qed.

Lemma digits_val_pretty (n : Z) :
  0 < n -> digits_val 0 false (pretty n) = Some n.
Proof.
  intros Hn. destruct n as [|p|p]; try lia.
  change (pretty (Z.pos p)) with (pretty (N.pos p)).
  unfold pretty, pretty_N. destruct (decide (N.pos p = 0%N)); [done|].
  destruct (digits_val_pretty_N_go (N.pos p) ltac:(lia)) as (k & _ & Hk).
  rewrite Hk. cbn [digits_val]. f_equal; lia.
Qed.

Lemma is_digit_not_space c : is_digit c = true -> is_space c = false.
Proof.
  unfold is_digit, digit_val, is_space.
  destruct (_ && _)%nat eqn:H; [|done]. intros _.
  apply andb_true_iff in H as [H1 H2].
  apply Nat.leb_le in H1. apply Nat.leb_le in H2.
  apply orb_false_iff. split; apply andb_false_iff.
  - right. apply Nat.leb_gt. lia.
  - right. apply Nat.leb_gt. lia.
Qed.

Lemma strip_no_space s :
  all_chars (fun c => negb (is_space c)) s = true -> strip s = s.
Proof.
  intros Hs. unfold strip.
  assert (Hl : lstrip s = s).
  { destruct s as [|c r]; [done|]. cbn in *.
    apply andb_true_iff in Hs as [Hc _]. apply negb_true_iff in Hc.
    by rewrite Hc. }
  rewrite Hl. induction s as [|c r IH]; [done|].
  cbn in *. apply andb_true_iff in Hs as [Hc Hr]. apply negb_true_iff in Hc.
  rewrite Hc. cbn [andb]. f_equal. apply IH; [done|].
  destruct r as [|d r']; [done|]. cbn in *.
  apply andb_true_iff in Hr as [Hd _]. apply negb_true_iff in Hd.
  by rewrite Hd.
Qed.

Lemma int_of_str_pretty (n : Z) : 0 < n -> int_of_str (pretty n) = Ok n.
Proof.
  intros Hn. destruct (pretty_pos_digits n Hn) as [Hd Hne].
  unfold int_of_str. rewrite strip_no_space; cycle 1.
  { eapply all_chars_impl; [|exact Hd]. intros c Hc.
    by rewrite (is_digit_not_space c Hc). }
  pose proof (digits_val_pretty n Hn) as Hv.
  destruct (pretty n) as [|c r] eqn:Hp; [done|].
  cbn in Hd. apply andb_true_iff in Hd as [Hc _].
  assert (Hplus : c <> "+"%char) by (intros ->; discriminate Hc).
  assert (Hminus : c <> "-"%char) by (intros ->; discriminate Hc).
  replace (match String c r with
           | String "+" r0 => digits_val 0 false r0
           | String "-" r0 => Z.opp <$> digits_val 0 false r0
           | _ => digits_val 0 false (String c r)
           end) with (digits_val 0 false (String c r)); [by rewrite Hv|].
  destruct c as [[] [] [] [] [] [] [] []]; try reflexivity; congruence.
Qed.

(** Splitting at a separator that the pieces do not contain. *)
Lemma split_no_sep sep s : contains sep s = false -> split sep s = [s].
Proof.
  induction s as [|c r IH]; [done|]. cbn.
  rewrite orb_false_iff. intros [Hc Hr]. rewrite Ascii.eqb_sym in Hc.
  rewrite Hc, (IH Hr). done.
Qed.

Lemma split_app sep s t :
  contains sep s = false ->
  split sep (s +:+ String sep t) = s :: split sep t.
Proof.
  induction s as [|c r IH].
  { intros _. change ("" +:+ String sep t) with (String sep t). cbn.
    by rewrite Ascii.eqb_refl. }
  rewrite append_cons. cbn.
  rewrite orb_false_iff. intros [Hc Hr]. rewrite Ascii.eqb_sym in Hc.
  rewrite Hc, (IH Hr). done.
Qed.

Lemma contains_app c s t : contains c (s +:+ t) = contains c s || contains c t.
Proof.
  induction s as [|d s IH]; [done|].
  rewrite append_cons. cbn. by rewrite IH, orb_assoc.
Qed.

Lemma digits_contain_no c s :
  is_digit c = false -> all_chars is_digit s = true -> contains c s = false.
Proof.
  intros Hc. induction s as [|d s IH]; [done|]. cbn.
  rewrite andb_true_iff. intros [Hd Hs]. rewrite (IH Hs), orb_false_r.
  destruct (Ascii.eqb_spec c d); [congruence | done].
Qed.

(** A specification element that names pages of the document. *)
Definition valid_spec (total_pages : Z) (spec : page_spec) : Prop :=
  match spec with
  | Page n => 1 <= n <= total_pages
  | Range start stop => 1 <= start /\ start <= stop /\ stop <= total_pages
  end.

Lemma show_spec_chars total_pages spec :
  valid_spec total_pages spec ->
  contains "," (show_spec spec) = false
  /\ all_chars (fun c => negb (is_space c)) (show_spec spec) = true.
Proof.
  assert (Hns : forall n, 0 < n ->
            all_chars (fun c => negb (is_space c)) (pretty n) = true).
  { intros n Hn. eapply all_chars_impl; [|apply (pretty_pos_digits n Hn)].
    intros c Hc. by rewrite (is_digit_not_space c Hc). }
  destruct spec as [n|start stop]; cbn [valid_spec show_spec].
  - intros Hn. split; [|apply Hns; lia].
    apply digits_contain_no; [done | apply pretty_pos_digits; lia].
  - intros (H1 & H2 & H3).
    change (pretty start +:+ "-" +:+ pretty stop)
      with (pretty start +:+ String "-" (pretty stop)).
    split.
    + rewrite !contains_app. cbn [contains].
      rewrite !digits_contain_no; [done|done|apply pretty_pos_digits; lia
                                   |done|apply pretty_pos_digits; lia].
    + rewrite !all_chars_app. cbn [all_chars].
      rewrite !Hns by lia. done.
Qed.

Lemma parse_part_show total_pages spec :
  valid_spec total_pages spec ->
  parse_part total_pages (show_spec spec) = Ok (denote spec).
Proof.
  intros Hv. destruct (show_spec_chars total_pages spec Hv) as [_ Hns].
  unfold parse_part. rewrite (strip_no_space _ Hns).
  destruct spec as [n|start stop]; cbn [valid_spec show_spec denote] in *.
  - rewrite digits_contain_no; [|done|apply pretty_pos_digits; lia].
    rewrite int_of_str_pretty by lia. cbn. do 2 f_equal; lia.
  - destruct Hv as (H1 & H2 & H3).
    change (pretty start +:+ "-" +:+ pretty stop)
      with (pretty start +:+ String "-" (pretty stop)).
    rewrite contains_app. cbn [contains]. rewrite Ascii.eqb_refl, orb_true_r.
    cbn [orb].
    rewrite split_app by (apply digits_contain_no; [done|apply pretty_pos_digits; lia]).
    rewrite split_no_sep by (apply digits_contain_no; [done|apply pretty_pos_digits; lia]).
    cbn [unpack_two_ints]. rewrite !int_of_str_pretty by lia. cbn.
    do 2 f_equal; lia.
Qed.

(** X10. The parser reads back what the documented format writes: for
    a non-empty list of pages and ranges that lie within the document,
    written in decimal and joined by commas, [_parse_page_ranges]
    returns exactly those pages and ranges, in order. *)
Theorem parse_page_ranges_round_trip (total_pages : Z) (specs : list page_spec) :
  specs <> [] ->
  Forall (valid_spec total_pages) specs ->
  _parse_page_ranges (show_specs specs) total_pages = Ok (List.map denote specs).
Proof.
  intros Hne Hall. unfold _parse_page_ranges, show_specs.
  induction Hall as [|spec rest Hspec Hrest IH]; [done|]. clear Hne.
  destruct (show_spec_chars total_pages spec Hspec) as [Hcomma _].
  destruct rest as [|next rest'].
  - cbn [List.map String.concat]. rewrite split_no_sep by done.
    cbn [parse_parts]. rewrite parse_part_show by done. done.
  - cbn [List.map String.concat] in *.
    change (show_spec spec ++ "," ++ ?x)%string
      with (show_spec spec +:+ String "," x).
    rewrite split_app by done. cbn [parse_parts].
    rewrite parse_part_show by done. cbn [mbind result_bind bind].
    rewrite IH by done. done.
Qed.

End page_spec_facts.
Section pdf_pages_facts.
Import Py os pdf_toolkit pdf_pages.

Lemma range_bounds (start stop i : Z) :
  i ∈ range start stop -> start <= i < stop.
Proof.
  unfold range. intros Hin. apply list_elem_of_In, in_map_iff in Hin.
  destruct Hin as (k & <- & Hk). apply in_seq in Hk. lia.
Qed.

(** X11. The pages to rotate are pages of the document: for the
    specification "all", in any letter case, they are all the pages,
    each once, in order; for any other specification that parses, on
    a document of at least one page, every index lies between 0 and
    the number of pages, so that no page lookup can miss. *)
Theorem rotate_page_list_valid (pages : string) (total : Z) (pages_found : list Z) :
  page_list pages total = Ok pages_found ->
  (lower pages = "all" -> pages_found = range 0 total)
  /\ (lower pages = "all" \/ 1 <= total ->
      Forall (fun i => 0 <= i < total) pages_found).
Proof.
  unfold page_list. intros Hrun.
  destruct (String.eqb_spec (lower pages) "all") as [Hall|Hspec].
  - injection Hrun as <-. split; [done|]. intros _.
    apply Forall_forall. intros i Hi. by apply range_bounds.
  - split; [done|]. intros [?|Htotal]; [done|].
    destruct (_parse_page_ranges pages total) as [ranges|e] eqn:Hparse;
      [|discriminate].
    cbn in Hrun. injection Hrun as <-.
    pose proof (parse_parts_in_bounds total _ ranges Htotal Hparse) as Hb.
    apply Forall_forall. intros i Hi.
    apply list_elem_of_In, in_concat in Hi as (l & Hl & Hi).
    apply in_map_iff in Hl as ([start stop] & <- & Hr).
    apply list_elem_of_In, range_bounds in Hi.
    rewrite Forall_forall in Hb. apply list_elem_of_In, Hb in Hr.
    unfold in_bounds in Hr. cbn in Hr. lia.
Qed.

Context `{libs : ToolkitLibs}.
Variable open_pdf : string -> string -> result nat.
Variable extract : string -> string -> Z -> Z -> result string.
Variable mkdtemp_name : fs -> string.

Abbreviation save_pages := (pdf_pages.save_pages extract).
Abbreviation split_with := (pdf_pages.split_with open_pdf extract).
Abbreviation split_pdf := (pdf_pages.split_pdf open_pdf extract mkdtemp_name).

(** The file of one page, and of one range. *)
Definition page_file (output_dir : string) (page_num : Z) : string :=
  path_join output_dir ("page_" +:+ pretty (page_num + 1) +:+ ".pdf").

Definition range_file (output_dir : string) (range : Z * Z) : string :=
  path_join output_dir
    ("pages_" +:+ pretty (fst range) +:+ "-" +:+ pretty (snd range) +:+ ".pdf").

(** The paths [split_pdf] is to return for a document of [total]
    pages. *)
Definition expected_outputs (output_dir pages : string) (total : Z)
  : result (list string) :=
  if String.eqb (lower pages) "all"
  then Ok (List.map (page_file output_dir) (range 0 total))
  else
    page_ranges ← _parse_page_ranges pages total;
    Ok (List.map (range_file output_dir) page_ranges).

Lemma map_each_ext {S A B} (f g : A -> M S B) (xs : list A) :
  (forall x, f x = g x) -> map_each f xs = map_each g xs.
Proof.
  intros Hfg. induction xs as [|x xs IH]; [done|].
  cbn [map_each]. by rewrite Hfg, IH.
Qed.

(** Saving one file after the other: the paths come back in order,
    each holds a file afterwards, and no other path is touched, also
    when a later step raises. *)
Lemma save_all_run {A} (library bytes : string) (name : A -> string)
    (from_page to_page : A -> Z) (xs : list A) :
  forall (files : fs) r files',
  map_each (fun x => save_pages library bytes (name x) (from_page x) (to_page x))
           xs files = (r, files') ->
  (forall paths, r = Ok paths ->
     paths = List.map name xs
     /\ Forall (fun p => is_Some (files' !! p)) paths)
  /\ (forall q, q ∉ List.map name xs -> files' !! q = files !! q).
Proof.
  induction xs as [|x xs IH]; intros files r files' Hrun.
  { cbn in Hrun. injection Hrun as <- <-. split; [|done].
    intros paths [= <-]. split; [done | constructor]. }
  cbn [map_each] in Hrun. rewrite run_bind in Hrun.
  unfold pdf_pages.save_pages in Hrun at 1. rewrite run_bind in Hrun.
  unfold lift in Hrun at 1.
  destruct (extract library bytes (from_page x) (to_page x)) as [doc|e].
  - rewrite run_bind in Hrun. unfold write_bytes, modify in Hrun.
    unfold mret at 1, M_ret, ret in Hrun. rewrite run_bind in Hrun.
    destruct (map_each _ xs (<[name x := doc]> files)) as [r1 files1] eqn:Hrest.
    destruct (IH _ _ _ Hrest) as [Hok Hframe].
    assert (Hq : forall q, q ∉ List.map name (x :: xs) -> files1 !! q = files !! q).
    { intros q Hq. cbn in Hq. apply not_elem_of_cons in Hq as [Hne Hq].
      rewrite (Hframe q Hq). by rewrite lookup_insert_ne. }
    destruct r1 as [paths1|e].
    + injection Hrun as <- <-. split; [|done].
      intros paths [= <-]. destruct (Hok paths1 eq_refl) as [-> Hall].
      split; [done|]. constructor; [|done].
      destruct (decide (name x ∈ List.map name xs)) as [Hin|Hnin].
      * rewrite Forall_forall in Hall. by apply Hall.
      * rewrite (Hframe _ Hnin), lookup_insert_eq. eauto.
    + injection Hrun as <- <-. split; [done | done].
  - injection Hrun as <- <-. split; [done | done].
Qed.

(** The directory the files go to: the one given, or the temporary
    directory that [tempfile.mkdtemp] makes when none is given. *)
Definition directory_of (output_dir : option string) (files : fs) : string :=
  match output_dir with
  | Some directory => directory
  | None => mkdtemp_name files
  end.

Lemma split_pdf_unfold (input_path pages : string) (output_dir : option string)
    (files : fs) :
  split_pdf input_path pages output_dir files
  = match files !! input_path with
    | None =>
        (Raise (FileNotFoundError ("PDF file not found: " +:+ input_path)), files)
    | Some _ =>
        let directory := directory_of output_dir files in
        if PYMUPDF_AVAILABLE
        then split_with "pymupdf" input_path pages directory files
        else if PYPDF2_AVAILABLE
             then split_with "pypdf2" input_path pages directory files
             else (Raise (RuntimeError
                            "No suitable PDF library available for splitting"),
                   files)
    end.
Proof.
  unfold pdf_pages.split_pdf, path_exists.
  unfold mbind, M_bind, mbindM, get, mret, M_ret, ret, raise.
  destruct (files !! input_path) as [bytes|] eqn:Hin.
  - rewrite bool_decide_eq_true_2 by eauto. cbn [negb].
    by destruct output_dir, PYMUPDF_AVAILABLE, PYPDF2_AVAILABLE.
  - rewrite bool_decide_eq_false_2 by (by intros [? ?]). done.
Qed.

Lemma split_with_run (library input_path pages output_dir : string)
    (files files' : fs) (bytes : string) (paths : list string) :
  files !! input_path = Some bytes ->
  split_with library input_path pages output_dir files = (Ok paths, files') ->
  exists total,
    open_pdf library bytes = Ok total
    /\ expected_outputs output_dir pages (Z.of_nat total) = Ok paths
    /\ Forall (fun p => is_Some (files' !! p)) paths
    /\ (forall q, q ∉ paths -> files' !! q = files !! q).
Proof.
  intros Hin. unfold pdf_pages.split_with, read_bytes.
  rewrite !run_bind. unfold get. rewrite Hin.
  unfold mret at 1, M_ret at 1, ret at 1. rewrite run_bind.
  unfold lift at 1. destruct (open_pdf library bytes) as [total|e]; [|discriminate].
  unfold expected_outputs.
  destruct (String.eqb (lower pages) "all").
  - intros Hrun. exists total. split; [done|].
    destruct (save_all_run library bytes (page_file output_dir)
                (fun n => n) (fun n => n) _ _ _ _ Hrun) as [Hok Hframe].
    destruct (Hok paths eq_refl) as [-> Hall].
    split; [done|]. split; [done|]. exact Hframe.
  - rewrite run_bind. unfold lift at 1.
    destruct (_parse_page_ranges pages (Z.of_nat total)) as [ranges|e]
      eqn:Hparse; [|discriminate].
    intros Hrun. exists total. split; [done|].
    rewrite (map_each_ext _
               (fun r => save_pages library bytes (range_file output_dir r)
                                    (fst r - 1) (snd r - 1))) in Hrun
      by (by intros [? ?]).
    destruct (save_all_run library bytes (range_file output_dir)
                (fun r => fst r - 1) (fun r => snd r - 1) _ _ _ _ Hrun)
      as [Hok Hframe].
    destruct (Hok paths eq_refl) as [-> Hall].
    split; [by rewrite ?Hparse|]. split; [done|]. exact Hframe.
Qed.

(** X12. [split_pdf] and the files, for a given output directory and
    for none, when the files go to a fresh temporary directory.
    Without the input file it raises [FileNotFoundError] and touches
    nothing.  When it returns, the paths are those of the
    specification for the page count of the input, one per page for
    "all" and one per part otherwise, in the output directory; each
    returned path holds a file, and no other path was touched. *)
Theorem split_pdf_outputs (input_path pages : string) (output_dir : option string)
    (files files' : fs) (paths : list string) :
  (files !! input_path = None ->
   split_pdf input_path pages output_dir files
   = (Raise (FileNotFoundError ("PDF file not found: " +:+ input_path)), files))
  /\ (split_pdf input_path pages output_dir files = (Ok paths, files') ->
      exists bytes library total,
        files !! input_path = Some bytes
        /\ open_pdf library bytes = Ok total
        /\ expected_outputs (directory_of output_dir files) pages (Z.of_nat total)
           = Ok paths
        /\ Forall (fun p => is_Some (files' !! p)) paths
        /\ (forall q, q ∉ paths -> files' !! q = files !! q)).
Proof.
  rewrite split_pdf_unfold. split.
  - by intros ->.
  - destruct (files !! input_path) as [bytes|] eqn:Hin; [|discriminate].
    cbn zeta. destruct PYMUPDF_AVAILABLE.
    { intros Hrun. destruct (split_with_run _ _ _ _ _ _ _ _ Hin Hrun) as (total & ?).
      by exists bytes, "pymupdf", total. }
    destruct PYPDF2_AVAILABLE.
    { intros Hrun. destruct (split_with_run _ _ _ _ _ _ _ _ Hin Hrun) as (total & ?).
      by exists bytes, "pypdf2", total. }
    discriminate.
Qed.

End pdf_pages_facts.

Section split_route_facts.
Import Py os flask tools_routes pdf_pages tools_split.
Context `{libs : ToolkitLibs}.

Ltac answered :=
  eexists _, _; split; [reflexivity|]; cbn [status jsonify];
  split_and!; try done; try (by left); try (by right).

(** X13. The split route never answers 200; it always answers, with
    400 or 500.  When reading the upload raises it answers 500 and
    writes nothing.  Without an acceptable upload it answers 400 and
    writes nothing.  With one it tries to save the upload and then
    always answers 500: the save may raise, the form's interval may
    not be a number, the toolkit may lack its libraries, and otherwise
    the call of [split_pdf] passes one positional argument more than
    the method takes, which is a [TypeError].  What the save wrote is
    left in the upload folder, since the clean-up comes after the
    call. *)
Theorem split_route_never_succeeds
    (open_pdf : string -> string -> result nat)
    (extract : string -> string -> Z -> Z -> result string)
    (mkdtemp_name : fs -> string)
    (secure_filename : string -> string) (timestamp UPLOAD_FOLDER : string)
    (os_save : fs -> string -> string -> save_outcome)
    (send_file : list string -> string -> M fs response)
    (request_file : result (option upload)) (form : list (string * string))
    (files : fs) :
  exists r files',
    pdf_split_process open_pdf extract mkdtemp_name secure_filename timestamp
                      UPLOAD_FOLDER os_save send_file request_file form files
    = (Ok r, files')
    /\ (status r = 400 \/ status r = 500)
    /\ (status r = 400 -> files' = files)
    /\ (forall e, request_file = Raise e -> status r = 500 /\ files' = files)
    /\ (forall file, request_file = Ok file ->
        (forall f, file = Some f ->
           filename f = "" \/ allowed_file (filename f) (Some "split") = false) ->
        status r = 400)
    /\ (forall f, request_file = Ok (Some f) ->
        filename f <> "" ->
        allowed_file (filename f) (Some "split") = true ->
        let filepath :=
          path_join UPLOAD_FOLDER
                    (timestamp +:+ "_" +:+ secure_filename (filename f)) in
        status r = 500
        /\ files' = match os_save files filepath (data f) with
                    | Saved => <[filepath := data f]> files
                    | Refused _ => files
                    | Broken written _ => <[filepath := written]> files
                    end).
Proof.
  unfold pdf_split_process, try_except. rewrite run_bind. unfold lift at 1.
  destruct request_file as [[f|]|e].
  - destruct (String.eqb_spec (filename f) "") as [Hname|Hname].
    { cbn [orb]. answered. by intros ? [= <-]. }
    destruct (allowed_file (filename f) (Some "split")) eqn:Hallowed.
    2:{ cbn [orb negb]. answered. intros ? [= <-]. by rewrite Hallowed. }
    cbn [orb negb]. rewrite run_bind, file_save_run.
    set (filepath := path_join UPLOAD_FOLDER
                       (timestamp +:+ "_" +:+ secure_filename (filename f))).
    assert (Hnot400 : forall file, Ok (Some f) = @Ok (option upload) file ->
              (forall f0, file = Some f0 ->
                 filename f0 = "" \/ allowed_file (filename f0) (Some "split") = false) ->
              500 = 400).
    { intros file [= <-] Hno. destruct (Hno f eq_refl) as [?|?]; congruence. }
    destruct (os_save files filepath (data f)) as [|e|written e] eqn:Hsave.
    + rewrite run_bind. unfold lift at 1.
      destruct (form_int form "split_interval" 1) as [split_interval|e].
      * rewrite run_bind. unfold lift at 1.
        destruct pdf_toolkit.PDFToolkit_init as [self|e].
        -- rewrite run_bind. cbn [call_split_pdf]. unfold raise.
           answered.
           intros ? [= <-] _ _. split; [done|]. fold filepath. by rewrite Hsave.
        -- answered.
           intros ? [= <-] _ _. split; [done|]. fold filepath. by rewrite Hsave.
      * answered.
        intros ? [= <-] _ _. split; [done|]. fold filepath. by rewrite Hsave.
    + answered.
      intros ? [= <-] _ _. split; [done|]. fold filepath. by rewrite Hsave.
    + answered.
      intros ? [= <-] _ _. split; [done|]. fold filepath. by rewrite Hsave.
  - answered.
  - answered.
Qed.

End split_route_facts.
Section merge_route_facts.
Import Py os flask pdf_merge tools_routes.
Context `{backend : PdfBackend}.

Variable secure_filename : string -> string.
Variable timestamp : nat -> string.
Variable UPLOAD_FOLDER : string.
Variable os_save : fs -> string -> string -> save_outcome.

Abbreviation accepted := tools_routes.accepted.
Abbreviation upload_path :=
  (tools_routes.upload_path secure_filename timestamp UPLOAD_FOLDER).
Abbreviation save_uploads :=
  (tools_routes.save_uploads secure_filename timestamp UPLOAD_FOLDER os_save).
Abbreviation pdf_merge_process :=
  (tools_routes.pdf_merge_process secure_filename timestamp UPLOAD_FOLDER os_save).

(** The paths of the accepted uploads, the clock being read once for
    each, and the files once they are all saved; of two uploads with
    one path the later one stays. *)
Fixpoint paths_from (reading : nat) (uploads : list upload) : list string :=
  match uploads with
  | [] => []
  | file :: rest =>
      if accepted file
      then upload_path reading file :: paths_from (S reading) rest
      else paths_from reading rest
  end.

Fixpoint saved_from (reading : nat) (uploads : list upload) (files : fs) : fs :=
  match uploads with
  | [] => files
  | file :: rest =>
      if accepted file
      then saved_from (S reading) rest (<[upload_path reading file := data file]> files)
      else saved_from reading rest files
  end.

Definition saved_paths (uploads : list upload) : list string :=
  paths_from 0 uploads.

Definition saved (uploads : list upload) (files : fs) : fs :=
  saved_from 0 uploads files.

(** The saving loop: when it returns, the paths are those of the
    accepted uploads and all of them are saved; when it raises, as
    when it returns, it has written to paths of accepted uploads
    only. *)
Lemma save_uploads_run (uploads : list upload) :
  forall (reading : nat) (files : fs) r files1,
  save_uploads reading uploads files = (r, files1) ->
  (forall paths, r = Ok paths ->
     paths = paths_from reading uploads
     /\ files1 = saved_from reading uploads files)
  /\ (forall q, q ∉ paths_from reading uploads -> files1 !! q = files !! q).
Proof.
  induction uploads as [|file rest IH]; intros reading files r files1.
  { intros [= <- <-]. split; [by intros ? [= <-]|done]. }
  cbn [tools_routes.save_uploads paths_from saved_from].
  destruct (accepted file); [|apply IH].
  rewrite run_bind, file_save_run.
  destruct (os_save files (upload_path reading file) (data file))
    as [|e|written e].
  - rewrite run_bind.
    destruct (save_uploads (S reading) rest
                (<[upload_path reading file := data file]> files))
      as [r1 files2] eqn:Hrest.
    destruct (IH _ _ _ _ Hrest) as [Hok Hframe].
    assert (Hq : forall q, q ∉ upload_path reading file :: paths_from (S reading) rest ->
                   files2 !! q = files !! q).
    { intros q Hq. apply not_elem_of_cons in Hq as [Hne Hq].
      rewrite (Hframe q Hq). by rewrite lookup_insert_ne. }
    destruct r1 as [paths1|e].
    + intros [= <- <-]. split; [|done].
      intros paths [= <-]. by destruct (Hok paths1 eq_refl) as [-> ->].
    + intros [= <- <-]. split; [done|done].
  - intros [= <- <-]. split; [done|done].
  - intros [= <- <-]. split; [done|].
    intros q Hq. apply not_elem_of_cons in Hq as [Hne Hq].
    by rewrite lookup_insert_ne.
Qed.

Lemma saved_from_outside (uploads : list upload) (reading : nat) (files : fs)
    (q : string) :
  q ∉ paths_from reading uploads -> saved_from reading uploads files !! q = files !! q.
Proof.
  revert reading files. induction uploads as [|file rest IH]; intros reading files;
    [done|].
  cbn [saved_from paths_from]. destruct (accepted file).
  - intros Hq. apply not_elem_of_cons in Hq as [Hne Hq].
    rewrite IH by done. by rewrite lookup_insert_ne.
  - apply IH.
Qed.

Lemma saved_from_inside (uploads : list upload) (reading : nat) (files : fs)
    (p : string) :
  p ∈ paths_from reading uploads -> is_Some (saved_from reading uploads files !! p).
Proof.
  revert reading files. induction uploads as [|file rest IH]; intros reading files.
  { intros Hp. by apply elem_of_nil in Hp. }
  cbn [saved_from paths_from]. destruct (accepted file).
  - intros Hp.
    destruct (decide (p ∈ paths_from (S reading) rest)) as [Hin|Hnin];
      [by apply IH|].
    apply elem_of_cons in Hp as [->|Hp]; [|done].
    rewrite saved_from_outside by done. rewrite lookup_insert_eq. eauto.
  - apply IH.
Qed.

Lemma saved_outside (uploads : list upload) (files : fs) (q : string) :
  q ∉ saved_paths uploads -> saved uploads files !! q = files !! q.
Proof. apply saved_from_outside. Qed.

Lemma saved_inside (uploads : list upload) (files : fs) (p : string) :
  p ∈ saved_paths uploads -> is_Some (saved uploads files !! p).
Proof. apply saved_from_inside. Qed.

(** The loop that removes the uploads. *)
Definition remove_if_there (path : string) : M fs unit :=
  found ← path_exists path;
  if (found : bool) then remove path else mret tt.

Lemma remove_if_there_run (path : string) (files : fs) :
  remove_if_there path files = (Ok tt, delete path files).
Proof.
  unfold remove_if_there, path_exists. rewrite !run_bind. unfold get.
  unfold mret at 1, M_ret, ret.
  destruct (files !! path) as [bytes|] eqn:Hl.
  - rewrite bool_decide_eq_true_2 by eauto.
    unfold remove. rewrite run_bind. unfold get. by rewrite Hl.
  - rewrite bool_decide_eq_false_2 by (by intros [? ?]).
    by rewrite delete_id.
Qed.

Lemma remove_all_run (paths : list string) (files : fs) :
  exists files',
    for_each remove_if_there paths files = (Ok tt, files')
    /\ (forall p, p ∈ paths -> files' !! p = None)
    /\ (forall q, q ∉ paths -> files' !! q = files !! q).
Proof.
  revert files. induction paths as [|path rest IH]; intros files.
  { exists files. split; [done|]. split; [|done].
    intros p Hp. by apply elem_of_nil in Hp. }
  cbn [for_each]. rewrite run_bind, remove_if_there_run.
  destruct (IH (delete path files)) as (files' & -> & Hin & Hout).
  exists files'. split; [done|]. split.
  - intros p Hp. destruct (decide (p ∈ rest)) as [?|Hnin]; [by apply Hin|].
    apply elem_of_cons in Hp as [->|?]; [|done].
    rewrite Hout by done. apply lookup_delete_eq.
  - intros q Hq. apply not_elem_of_cons in Hq as [Hne Hq].
    rewrite Hout by done. by rewrite lookup_delete_ne.
Qed.

(** A merge that reaches the merge step writes to the output path
    only: the merged file when it returns, nothing when it raises. *)
Lemma merge_pdfs_frame (files : fs) (pdf_paths : list string) :
  (2 <= length pdf_paths)%nat ->
  Forall (fun p => is_Some (files !! p)) pdf_paths ->
  let out := mkstemp_name ".pdf" "merged_" files in
  exists r files',
    merge_pdfs pdf_paths None files = (r, files')
    /\ match r with
       | Ok path => path = out /\ is_Some (files' !! out)
       | Raise _ => files' !! out = None
       end
    /\ (forall q, q <> out -> files' !! q = files !! q).
Proof.
  intros Hlen Hall out. rewrite merge_pdfs_unfold.
  destruct (bool_decide (pdf_paths = []) || (length pdf_paths <? 2)%nat) eqn:Hs.
  { apply short_list in Hs. lia. }
  rewrite run_bind, validate_all_present by done.
  rewrite run_bind.
  destruct (choose_output_run files None) as (files1 & -> & Hdel1).
  cbn [output_path_of] in *. fold out in Hdel1 |- *.
  unfold try_except.
  destruct (merge_step_writes_output files1 pdf_paths out)
    as (r & files2 & Hstep & Hdel2).
  assert (Hframe : forall files3 q,
            delete out files3 = delete out files -> q <> out ->
            files3 !! q = files !! q).
  { intros files3 q Heq Hq.
    rewrite <- (lookup_delete_ne files3 out q), Heq by done.
    by rewrite lookup_delete_ne. }
  rewrite Hstep. destruct r as [path|e].
  - eexists _, _. split; [reflexivity|].
    unfold merge_step in Hstep. rewrite run_bind in Hstep.
    destruct (read_inputs_pure files1 pdf_paths) as [[docs|e] Hread];
      rewrite Hread in Hstep; [|discriminate].
    unfold open_wb, write_bytes in Hstep. rewrite run_bind in Hstep.
    unfold modify in Hstep. rewrite run_bind in Hstep. unfold lift in Hstep.
    destruct (pdf_write docs) as [merged|e]; [|discriminate].
    rewrite run_bind in Hstep. injection Hstep as <- <-.
    split; [split; [done|]|].
    + rewrite lookup_insert_eq. eauto.
    + intros q Hq. rewrite !lookup_insert_ne by done.
      apply (Hframe files1); [done | done].
  - rewrite cleanup_run. eexists _, _. split; [reflexivity|].
    split; [apply lookup_delete_eq|].
    intros q Hq. rewrite lookup_delete_ne by done.
    apply Hframe; [|done]. by rewrite Hdel2.
Qed.

Lemma pdf_merge_process_unfold (uploads : list upload) (files : fs) :
  pdf_merge_process (Ok uploads) files
  = try_except
      (if bool_decide (uploads = []) || (length uploads <? 2)%nat then
         mret (jsonify [("error", JStr "At least 2 PDF files are required")] 400)
       else
         input_paths ← save_uploads 0 uploads;
         if (length input_paths <? 2)%nat then
           mret (jsonify [("error", JStr "At least 2 valid PDF files are required")] 400)
         else
           _ ← lift PDFMerger_init;
           output_path ← merge_pdfs input_paths None;
           _ ← for_each remove_if_there input_paths;
           mret {| status := 200; content := File output_path "merged.pdf" |})
      (fun e => mret (jsonify [("error", JStr ("Merge failed: " +:+ str_exn e))] 500))
      files.
Proof. reflexivity. Qed.

(** What a request to the merge route whose uploads can be read leaves
    behind, by the status of the answer. *)
Lemma merge_route_run (uploads : list upload) (files : fs) :
  let out := mkstemp_name ".pdf" "merged_" (saved uploads files) in
  exists r files',
    pdf_merge_process (Ok uploads) files = (Ok r, files')
    /\ (status r = 400 \/ status r = 500 \/ status r = 200)
    /\ (status r = 200 ->
        content r = File out "merged.pdf"
        /\ (forall p, p ∈ saved_paths uploads -> files' !! p = None)
        /\ (out ∉ saved_paths uploads -> is_Some (files' !! out))
        /\ (forall q, q ∉ saved_paths uploads -> q <> out ->
              files' !! q = files !! q))
    /\ (status r = 500 ->
        ((exists e, save_uploads 0 uploads files = (Raise e, files'))
         \/ (save_uploads 0 uploads files
             = (Ok (saved_paths uploads), saved uploads files)
             /\ (2 <= length (saved_paths uploads))%nat
             /\ (forall p, p ∈ saved_paths uploads -> p <> out ->
                   is_Some (files' !! p))))
        /\ (forall q, q ∉ saved_paths uploads -> q <> out ->
              files' !! q = files !! q)).
Proof.
  intros out. rewrite pdf_merge_process_unfold. unfold try_except.
  destruct (bool_decide (uploads = []) || (length uploads <? 2)%nat).
  { eexists _, _. split; [reflexivity|]. cbn. split; [by left|]. split; intros; lia. }
  rewrite run_bind.
  destruct (save_uploads 0 uploads files) as [[paths|e] files1] eqn:Hsave.
  2:{ destruct (save_uploads_run _ _ _ _ _ Hsave) as [_ Hframe].
      eexists _, _. split; [reflexivity|]. cbn [status jsonify].
      split; [by right; left|]. split; [intros; lia|].
      intros _. split; [left; by exists e|].
      intros q Hq _. by apply Hframe. }
  destruct (save_uploads_run _ _ _ _ _ Hsave) as [Hok _].
  destruct (Hok paths eq_refl) as [-> ->].
  fold (saved_paths uploads). fold (saved uploads files).
  destruct (Nat.ltb_spec (length (saved_paths uploads)) 2) as [Hlt|Hge].
  { eexists _, _. split; [reflexivity|]. cbn. split; [by left|]. split; intros; lia. }
  rewrite run_bind. unfold lift, PDFMerger_init.
  destruct pypdf2_available.
  - rewrite run_bind.
    destruct (merge_pdfs_frame (saved uploads files) (saved_paths uploads) Hge)
      as (r & files2 & -> & Hr & Hframe).
    { apply Forall_forall. intros p Hp. by apply saved_inside. }
    fold out in Hr, Hframe. destruct r as [path|e].
    + destruct Hr as [-> Hout]. rewrite run_bind.
      destruct (remove_all_run (saved_paths uploads) files2)
        as (files3 & -> & Hgone & Hkept).
      eexists _, _. split; [reflexivity|]. cbn [status content].
      split; [by right; right|]. split; [|intros; lia].
      intros _. split; [done|]. split; [exact Hgone|]. split.
      * intros Hnin. by rewrite Hkept.
      * intros q Hq Hne. rewrite Hkept, Hframe by done. by apply saved_outside.
    + eexists _, _. split; [reflexivity|]. cbn [status jsonify].
      split; [by right; left|]. split; [intros; lia|].
      intros _. split; [right; split; [done|split; [done|]]|].
      * intros p Hp Hne. rewrite Hframe by done. by apply saved_inside.
      * intros q Hq Hne. rewrite Hframe by done. by apply saved_outside.
  - eexists _, _. split; [reflexivity|]. cbn [status jsonify].
    split; [by right; left|]. split; [intros; lia|].
    intros _. split; [right; split; [done|split; [done|]]|].
    + intros p Hp _. by apply saved_inside.
    + intros q Hq _. by apply saved_outside.
Qed.

(** X14. After a merge that succeeds the route has removed the uploads
    it saved: when the answer has status 200, the uploads of the
    request could be read, the answer is the merged file as download,
    no path of a saved upload holds a file any more, the merged file
    is there, and no other file has changed. *)
Theorem merge_route_cleans_up_on_success (request_files : result (list upload))
    (files files' : fs) (r : response) :
  pdf_merge_process request_files files = (Ok r, files') ->
  status r = 200 ->
  exists uploads,
    request_files = Ok uploads
    /\ let out := mkstemp_name ".pdf" "merged_" (saved uploads files) in
       content r = File out "merged.pdf"
       /\ (forall p, p ∈ saved_paths uploads -> files' !! p = None)
       /\ (out ∉ saved_paths uploads -> is_Some (files' !! out))
       /\ (forall q, q ∉ saved_paths uploads -> q <> out -> files' !! q = files !! q).
Proof.
  intros Hrun Hstatus. destruct request_files as [uploads|e].
  - exists uploads. split; [done|].
    destruct (merge_route_run uploads files) as (r0 & files0 & Hrun0 & _ & Hok & _).
    rewrite Hrun in Hrun0. injection Hrun0 as <- <-. by apply Hok.
  - rewrite merge_route_unreadable in Hrun. injection Hrun as <- <-.
    cbn in Hstatus. lia.
Qed.

(** X15. After a request that fails the route removes nothing it has
    saved.  When the answer has status 500, either reading the uploads
    raised and no file has changed; or saving an upload raised and the
    files are as the saving loop left them; or every accepted upload
    was saved, they are at least two, and each of them still holds a
    file, the clean-up coming after the merge in the [try] block.  In
    the last two cases no file other than the uploads and the merged
    output has changed. *)
Theorem merge_route_keeps_uploads_on_failure (request_files : result (list upload))
    (files files' : fs) (r : response) :
  pdf_merge_process request_files files = (Ok r, files') ->
  status r = 500 ->
  (exists e, request_files = Raise e /\ files' = files)
  \/ (exists uploads,
        request_files = Ok uploads
        /\ let out := mkstemp_name ".pdf" "merged_" (saved uploads files) in
           ((exists e, save_uploads 0 uploads files = (Raise e, files'))
            \/ (save_uploads 0 uploads files
                = (Ok (saved_paths uploads), saved uploads files)
                /\ (2 <= length (saved_paths uploads))%nat
                /\ (forall p, p ∈ saved_paths uploads -> p <> out ->
                      is_Some (files' !! p))))
           /\ (forall q, q ∉ saved_paths uploads -> q <> out ->
                 files' !! q = files !! q)).
Proof.
  intros Hrun Hstatus. destruct request_files as [uploads|e].
  - right. exists uploads. split; [done|].
    destruct (merge_route_run uploads files) as (r0 & files0 & Hrun0 & _ & _ & Hfail).
    rewrite Hrun in Hrun0. injection Hrun0 as <- <-. by apply Hfail.
  - left. exists e. split; [done|].
    rewrite merge_route_unreadable in Hrun. by injection Hrun as _ <-.
Qed.

End merge_route_facts.
Section upload_name_facts.
Import Py os tools_routes pdf_validation.

(** The tools whose uploads must be PDF files. *)
Definition pdf_tools : list string :=
  ["convert_from_pdf"; "extract_text"; "merge"; "split"; "compress"; "rotate";
   "protect"; "watermark"; "organize"; "unlock"; "ocr"; "compare"; "redact";
   "edit"; "sign"].

Lemma lower_ascii_dot (c : ascii) :
  Ascii.eqb (lower_ascii c) "." = Ascii.eqb c ".".
Proof. by destruct c as [[] [] [] [] [] [] [] []]. Qed.

Lemma contains_dot_lower (s : string) :
  contains "." (lower s) = contains "." s.
Proof.
  induction s as [|c s IH]; [done|]. cbn [contains lower].
  rewrite IH. f_equal. rewrite !(Ascii.eqb_sym "."). apply lower_ascii_dot.
Qed.

Lemma endswith_contains_dot (s : string) :
  endswith ".pdf" s = true -> contains "." s = true.
Proof.
  induction s as [|c s IH]; [done|]. cbn [endswith contains].
  rewrite orb_true_iff. intros [Heq|Htail].
  - apply String.eqb_eq in Heq. injection Heq as -> _. done.
  - rewrite (IH Htail). apply orb_true_r.
Qed.

(** What follows the last dot. *)
Lemma after_last_dot_no_dot (s : string) :
  contains "." s = false -> after_last_dot s = s.
Proof.
  intros H. unfold after_last_dot. by rewrite (split_no_sep "." s H).
Qed.

Lemma split_nonempty sep s : split sep s <> [].
Proof.
  induction s as [|c r IH]; [done|]. cbn.
  destruct (Ascii.eqb c sep); [done|]. by destruct (split sep r).
Qed.

Lemma split_two sep s :
  contains sep s = true -> exists h h' t, split sep s = h :: h' :: t.
Proof.
  induction s as [|c r IH]; [done|]. cbn [contains split].
  rewrite (Ascii.eqb_sym sep c).
  destruct (Ascii.eqb c sep); cbn [orb].
  - intros _. pose proof (split_nonempty sep r).
    destruct (split sep r) as [|h t]; [done|]. by eexists _, _, _.
  - intros Hr. destruct (IH Hr) as (h & h' & t & ->). by eexists _, _, _.
Qed.

Lemma after_last_dot_cons (c : ascii) (r : string) :
  after_last_dot (String c r)
  = if contains "." r then after_last_dot r
    else if Ascii.eqb c "." then r else String c r.
Proof.
  unfold after_last_dot. cbn [split].
  destruct (contains "." r) eqn:Hr.
  - destruct (split_two "." r Hr) as (h & h' & t & ->).
    by destruct (Ascii.eqb c ".").
  - rewrite (split_no_sep "." r Hr). by destruct (Ascii.eqb c ".").
Qed.

(** The name test of [allowed_file] for a PDF tool is the suffix test
    of [validate_pdf_file]. *)
Lemma pdf_name_test (name : string) :
  contains "." name && String.eqb (lower (after_last_dot name)) "pdf"
  = endswith ".pdf" (lower name).
Proof.
  induction name as [|c r IH]; [done|].
  rewrite after_last_dot_cons. cbn [contains lower endswith].
  destruct (contains "." r) eqn:Hr.
  - rewrite orb_true_r. cbn [andb] in *. rewrite IH.
    destruct (String.eqb_spec (String (lower_ascii c) (lower r)) ".pdf")
      as [Heq|_]; [|done].
    injection Heq as _ Heq.
    assert (contains "." (lower r) = false) by (by rewrite Heq).
    rewrite contains_dot_lower in H. congruence.
  - rewrite orb_false_r.
    assert (Htail : endswith ".pdf" (lower r) = false).
    { destruct (endswith ".pdf" (lower r)) eqn:He; [|done].
      apply endswith_contains_dot in He. rewrite contains_dot_lower in He.
      congruence. }
    rewrite Htail, orb_false_r.
    rewrite (Ascii.eqb_sym "." c), <- lower_ascii_dot.
    destruct (Ascii.eqb_spec (lower_ascii c) ".") as [Hc|Hc].
    + cbn [andb]. rewrite Hc. cbn.
      by destruct (String.eqb (lower r) "pdf").
    + cbn [andb]. symmetry. apply String.eqb_neq. intros [= ? _]. done.
Qed.

(** X16. For each of the PDF tools the upload filter accepts exactly
    the file names that end in ".pdf" in any letter case; this is the
    name test of [PDFMerger.validate_pdf_file], which never raises,
    leaves the files alone, and accepts no path that the filter would
    refuse. *)
Theorem pdf_tools_accept_pdf_suffix (tool name : string) (files : fs) :
  In tool pdf_tools ->
  allowed_file name (Some tool) = endswith ".pdf" (lower name)
  /\ exists valid,
       validate_pdf_file name files = (Ok valid, files)
       /\ (valid = true ->
           allowed_file name (Some tool) = true
           /\ exists bytes, files !! name = Some bytes
                            /\ slice_to 5 bytes = "%PDF-").
Proof.
  intros Hin.
  assert (Hallowed : allowed_file name (Some tool) = endswith ".pdf" (lower name)).
  { rewrite <- pdf_name_test. unfold allowed_file.
    destruct (contains "." name); [|done]. cbn [negb andb].
    unfold pdf_tools in Hin. cbn [In] in Hin.
    repeat (destruct Hin as [<-|Hin];
            [cbn; by rewrite orb_false_r|]).
    done. }
  split; [done|].
  unfold validate_pdf_file, try_except, path_exists. rewrite !run_bind.
  unfold get. unfold mret at 1, M_ret at 1, ret at 1.
  destruct (files !! name) as [bytes|] eqn:Hl.
  - rewrite bool_decide_eq_true_2 by eauto. cbn [negb].
    destruct (endswith ".pdf" (lower name)) eqn:Hs; cbn [negb].
    + unfold read_bytes. rewrite !run_bind. unfold get. rewrite Hl.
      eexists. split; [reflexivity|]. intros Hvalid.
      split; [done|]. exists bytes. split; [done|].
      by apply String.eqb_eq in Hvalid.
    + exists false. split; [reflexivity | discriminate].
  - rewrite bool_decide_eq_false_2 by (by intros [? ?]). cbn [negb].
    exists false. split; [reflexivity | discriminate].
Qed.

End upload_name_facts.
Section seo_audit_facts.
Import Py pyfloat seo_analyzer seo_audit.

(** A heading level is skipped: it is used and the level above is not. *)
Definition skipped (hs : headings) (i : nat) : bool :=
  (0 <? count hs i)%nat && (count hs (i - 1) =? 0)%nat.

(** X17. The heading hierarchy score lies between 40 and 100, so the
    floor of 0 is never met, and it is 100 exactly for a page with one
    [h1] and no skipped level. *)
Theorem hierarchy_score_perfect_iff (hs : headings) :
  40 <= _calculate_heading_hierarchy_score hs <= 100
  /\ (_calculate_heading_hierarchy_score hs = 100
      <-> h1 hs = 1%nat /\ forall i, In i (seq 2 5) -> skipped hs i = false).
Proof.
  assert (Hall : forall P : nat -> Prop,
            (forall i, In i (seq 2 5) -> P i)
            <-> P 2%nat /\ P 3%nat /\ P 4%nat /\ P 5%nat /\ P 6%nat).
  { intros P. cbn. split.
    - intros H. repeat split; apply H; tauto.
    - intros (? & ? & ? & ? & ?) i [<-|[<-|[<-|[<-|[<-|[]]]]]]; assumption. }
  rewrite Hall. unfold skipped.
  destruct hs as [c1 c2 c3 c4 c5 c6].
  destruct c1 as [|[|c1]], c2 as [|c2], c3 as [|c3], c4 as [|c4],
    c5 as [|c5], c6 as [|c6];
    (split; [vm_compute; split; discriminate|]);
    vm_compute; split;
    solve [ intros H; discriminate H
          | intros _; repeat split; reflexivity
          | intros (H1 & H2 & H3 & H4 & H5 & H6);
            first [discriminate H1 | discriminate H2 | discriminate H3
                  | discriminate H4 | discriminate H5 | discriminate H6]
          | reflexivity ].
Qed.

Definition is_critical (s : status) : bool :=
  match s with critical => true | _ => false end.

Definition is_warning (s : status) : bool :=
  match s with warning => true | _ => false end.

Definition is_good (s : status) : bool :=
  match s with good => true | _ => false end.

(** The findings that are not about the title, the meta description
    or the [h1] heading. *)
Definition only (title : string) (findings : list string) : bool :=
  forallb (String.eqb title) findings.

Lemma issues_only_content title meta ha alt_coverage content_result :
  only "Insufficient Content"
       (fst (_generate_recommendations title meta ha alt_coverage content_result))
  = tag_exists title && negb (tag_length title =? 0) && tag_exists meta
    && negb (is_critical (h1_status ha)).
Proof.
  unfold _generate_recommendations. cbn [fst].
  destruct (tag_exists title), (tag_length title =? 0), (tag_exists meta),
    (h1_status ha), (content_status content_result); reflexivity.
Qed.

Lemma warnings_only_images title meta ha alt_coverage content_result :
  only "Missing Image Alt Text"
       (snd (_generate_recommendations title meta ha alt_coverage content_result))
  = negb (60 <? tag_length title) && negb (tag_length title <? 30)
    && negb (tag_exists meta
             && ((160 <? tag_length meta) || (tag_length meta <? 120)))
    && negb (is_warning (h1_status ha)).
Proof.
  unfold _generate_recommendations. cbn [snd].
  destruct (60 <? tag_length title), (tag_length title <? 30), (tag_exists meta),
    (160 <? tag_length meta), (tag_length meta <? 120),
    (lt alt_coverage (Finite 90)), (h1_status ha); reflexivity.
Qed.

(** A tag analysis as [_analyze_title] and [_analyze_meta_description]
    build it, for the bounds [lo] and [hi] of a good length. *)
Definition built (lo hi : Z) (t : tag_analysis) : Prop :=
  0 <= tag_length t
  /\ (tag_exists t = false -> tag_length t = 0)
  /\ tag_status t
     = if negb (tag_exists t) || (tag_length t =? 0) then critical
       else if (tag_length t <? lo) || (hi <? tag_length t) then warning
       else good.

Lemma analyze_title_built title_tag : built 30 60 (_analyze_title title_tag).
Proof.
  destruct title_tag as [text|]; [|by repeat split].
  unfold built, _analyze_title, len. cbn.
  split; [lia|]. split; [done|].
  by destruct (_ =? 0).
Qed.

Lemma analyze_meta_built meta_desc :
  built 120 160 (_analyze_meta_description meta_desc).
Proof.
  destruct meta_desc as [attribute|]; [|by repeat split].
  unfold built, _analyze_meta_description, len. cbn.
  split; [lia|]. split; [done|].
  by destruct (_ =? 0).
Qed.

Lemma findings_of_built title meta ha :
  built 30 60 title -> built 120 160 meta ->
  is_good (tag_status title) && is_good (tag_status meta)
  && is_good (h1_status ha)
  = (tag_exists title && negb (tag_length title =? 0) && tag_exists meta
     && negb (is_critical (h1_status ha)))
    && (negb (60 <? tag_length title) && negb (tag_length title <? 30)
        && negb (tag_exists meta
                 && ((160 <? tag_length meta) || (tag_length meta <? 120)))
        && negb (is_warning (h1_status ha))).
Proof.
  intros (Ht0 & Htm & ->) (Hm0 & Hmm & ->).
  destruct (tag_exists title) eqn:Ete, (tag_exists meta) eqn:Eme;
    try (rewrite Htm by done); try (rewrite Hmm by done); cbn [negb orb andb];
    destruct (Z.eqb_spec (tag_length title) 0), (Z.ltb_spec (tag_length title) 30),
      (Z.ltb_spec 60 (tag_length title)),
      (Z.eqb_spec (tag_length meta) 0), (Z.ltb_spec (tag_length meta) 120),
      (Z.ltb_spec 160 (tag_length meta)), (h1_status ha);
    try reflexivity; try lia.
Qed.

(** X18. The technical score and the findings agree.  For any page,
    the technical score is 100 exactly when the report holds no
    finding about the title, the meta description or the [h1] heading:
    every critical issue is then the one about thin content and every
    warning the one about image texts. *)
Theorem technical_score_full_iff_no_findings
    (title_tag : option string) (meta_desc : option (option string))
    (hs : headings) (alt_coverage : float) (content_result : content_analysis)
    (speed_status : status) (sc : scores) :
  let title := _analyze_title title_tag in
  let meta := _analyze_meta_description meta_desc in
  let ha := _analyze_headings hs in
  let findings :=
    _generate_recommendations title meta ha alt_coverage content_result in
  _calculate_scores (tag_status title) (tag_status meta) ha
                    (content_status content_result) speed_status = Ok sc ->
  technical sc = 100
  <-> (forall f, In f (fst findings) -> f = "Insufficient Content")
      /\ (forall f, In f (snd findings) -> f = "Missing Image Alt Text").
Proof.
  intros title meta ha findings Hsc. subst findings.
  pose proof (analyze_title_built title_tag) as Ht. fold title in Ht.
  pose proof (analyze_meta_built meta_desc) as Hm. fold meta in Hm.
  clearbody title meta ha.
  rewrite calculate_scores_unfold in Hsc. cbn zeta in Hsc.
  destruct (weighted _ _ _) as [overall_score|e]; [|discriminate].
  cbn [mbind result_bind bind] in Hsc. injection Hsc as <-. cbn [technical].
  assert (Hbool : forall title0 l,
            (forall f, In f l -> f = title0) <-> only title0 l = true).
  { intros title0 l. unfold only. rewrite forallb_forall. split.
    - intros H f Hf. rewrite (H f Hf). apply String.eqb_refl.
    - intros H f Hf. symmetry. apply String.eqb_eq. by apply H. }
  rewrite !Hbool, issues_only_content, warnings_only_images.
  rewrite <- andb_true_iff, <- (findings_of_built title meta ha) by done.
  generalize (tag_status title) (tag_status meta) (h1_status ha).
  intros [] [] []; cbn; split; (lia || discriminate || reflexivity).
Qed.

End seo_audit_facts.
Section resize_more_facts.
Import Py pyfloat image_resizer.
Local Open Scope Q_scope.

Abbreviation iz := inject_Z.

(** X19. The preview predicts the resize: whenever [resize_image]
    computes a size and [get_resize_preview], asked with the same
    parameters, answers with a size, the two sizes are the same. *)
Theorem preview_agrees_with_resize (ow oh : Z) (width height : option Z)
    (percentage : option float) (maintain_aspect : bool) (quality : Z)
    (nw nh pw ph : Z) (enlarged kept : bool) :
  resize_image_size ow oh width height percentage maintain_aspect quality
  = Ok (nw, nh) ->
  get_resize_preview ow oh width height percentage maintain_aspect
  = Preview pw ph enlarged kept ->
  pw = nw /\ ph = nh /\ kept = maintain_aspect.
Proof.
  rewrite resize_image_size_unfold, get_resize_preview_unfold.
  destruct (negb _); [discriminate|].
  destruct (_ && _); [discriminate|].
  destruct (_ || _); [discriminate|].
  destruct (new_dimensions ow oh width height percentage maintain_aspect)
    as [[w h]|e]; [|discriminate].
  intros [= <- <-]. cbn [mbind result_bind bind].
  destruct (int_truediv _ _) as [size_change|e]; [|discriminate].
  cbn [bind]. by intros [= <- <- _ <-].
Qed.

Lemma trunc_lower (q : Q) (z : Z) : iz z <= q -> (0 <= z)%Z -> (z <= trunc q)%Z.
Proof.
  intros H Hz. unfold trunc.
  assert (Hn : (0 <= Qnum q)%Z).
  { unfold Qle in H. cbn in H. nia. }
  rewrite Z.quot_div_nonneg by lia.
  apply Z.div_le_lower_bound; [lia|].
  unfold Qle in H. cbn in H. lia.
Qed.

(** [int(x * p / 100)] for a whole percentage [p]: the products and
    the quotient are rounded, and still the result is the integer
    quotient. *)
Lemma scale_by_whole (x k : Z) :
  (0 < x < 2 ^ 40)%Z -> (1 <= k <= 500)%Z ->
  scale_by x (Finite (iz k)) = Ok (x * k / 100)%Z.
Proof.
  intros Hx Hk.
  destruct (of_int_small x ltac:(lia)) as (xf & Hof & Hxf).
  destruct (of_int_small 100 ltac:(lia)) as (hf & Hh & Hhf).
  unfold scale_by. rewrite Hof, Hh. cbn [mbind result_bind bind mul].
  set (N := (x * k)%Z).
  assert (HN : (0 < N < 2 ^ 49)%Z) by (unfold N; nia).
  assert (HP : xf * iz k == iz N).
  { unfold N. rewrite inject_Z_mult, Hxf. reflexivity. }
  assert (HNpos : 0 < iz N) by (apply inject_pos; lia).
  assert (HN1 : 1 <= iz N) by (change 1 with (iz 1); rewrite <- Zle_Qle; lia).
  assert (HN49 : iz N <= 2 ^ 49).
  { rewrite <- (pow2_Z 49) by lia. rewrite <- Zle_Qle. lia. }
  assert (Hnorm : normal (xf * iz k)).
  { apply (normal_between _ 0 49); [lia | lia | |]; rewrite HP.
    - exact HN1.
    - exact HN49. }
  rewrite (round64_normal _ Hnorm).
  assert (Hexact : round53 (xf * iz k) == iz N).
  { rewrite round53_exact; [exact HP | rewrite HP; exact HNpos |].
    exists N, 0%Z. split; [lia|]. rewrite HP. change (2 ^ 0) with 1. ring. }
  set (m := round53 (xf * iz k)) in *.
  cbn [div].
  assert (Hz : is_zero hf = false).
  { unfold is_zero. apply Z.eqb_neq. intros Hq.
    assert (hf == 0) by (unfold Qeq; cbn; rewrite Hq; ring).
    rewrite Hhf in H. discriminate H. }
  rewrite Hz. cbn [bind].
  assert (Hhf' : hf == 100) by (rewrite Hhf; reflexivity).
  assert (HV : m / hf == iz N / 100).
  { rewrite Hexact, Hhf'. reflexivity. }
  set (n0 := (N / 100)%Z).
  assert (Hdiv : (100 * n0 <= N <= 100 * n0 + 99)%Z).
  { unfold n0. pose proof (Z.div_mod N 100 ltac:(lia)).
    pose proof (Z.mod_pos_bound N 100 ltac:(lia)). lia. }
  assert (Hn0 : (0 <= n0 < 2 ^ 43)%Z).
  { unfold n0. split; [apply Z.div_pos; lia|].
    apply Z.div_lt_upper_bound; lia. }
  assert (HVlo : 2 ^ (-7) <= m / hf).
  { rewrite HV. change (2 ^ (-7)) with (1 # 128).
    apply Qle_shift_div_l; [reflexivity|]. lra. }
  assert (HVhi : m / hf <= 2 ^ 49).
  { rewrite HV. apply Qle_shift_div_r; [reflexivity|].
    pose proof (pow2_pos 49). lra. }
  assert (Hnormv : normal (m / hf))
    by (apply (normal_between _ (-7) 49); (lia || assumption)).
  pose proof (normal_positive _ Hnormv) as HVpos.
  rewrite (round64_normal _ Hnormv). cbn [mbind result_bind bind to_int].
  change (Z.quot (Qnum (round53 (m / hf))) (Zpos (Qden (round53 (m / hf)))))
    with (trunc (round53 (m / hf))).
  f_equal. fold N. fold n0.
  set (M := ((n0 + 1) * 128 - 1)%Z).
  assert (Hf : iz M * 2 ^ (-7) == iz (n0 + 1) - (1 # 128)).
  { assert (HM : (M + 1 = (n0 + 1) * 128)%Z) by (unfold M; lia).
    apply (f_equal iz) in HM. rewrite inject_Z_plus, inject_Z_mult in HM.
    change (iz 128) with 128 in HM. change (iz 1) with 1 in HM.
    assert (HM' : iz M + 1 == iz (n0 + 1) * 128) by (rewrite HM; reflexivity).
    change (2 ^ (-7)) with (1 # 128). lra. }
  assert (Hup : round53 (m / hf) <= iz M * 2 ^ (-7)).
  { apply round53_le; [assumption | exists M, (-7)%Z; split; [unfold M; lia | reflexivity] |].
    rewrite Hf, HV. apply Qle_shift_div_r; [reflexivity|].
    assert (H99 : iz N <= iz (100 * n0 + 99)) by (rewrite <- Zle_Qle; lia).
    rewrite inject_Z_plus, inject_Z_mult in H99.
    rewrite inject_Z_plus. change (iz 100) with 100 in H99.
    change (iz 99) with 99 in H99. change (iz 1) with 1. lra. }
  apply Z.le_antisymm.
  - apply trunc_upper.
    + apply Qlt_le_weak. by apply round53_positive.
    + rewrite Hf in Hup. lra.
  - destruct (Z.eq_dec n0 0%Z) as [->|Hne].
    + apply trunc_nonneg. apply Qlt_le_weak. by apply round53_positive.
    + apply trunc_lower; [|lia].
      apply round53_ge; [assumption | apply small_int_representable; lia |].
      rewrite HV. apply Qle_shift_div_l; [reflexivity|].
      assert (H100 : iz (100 * n0) <= iz N) by (rewrite <- Zle_Qle; lia).
      rewrite inject_Z_mult in H100. change (iz 100) with 100 in H100. lra.
Qed.

(** X20. Resizing by a whole percentage is exact: for an image whose
    sides are positive and below [2 ^ 40] and a percentage [k] from 1
    to 500, the new sides are the integer quotients of [side * k] by
    100, or 1 where that is 0, whatever width and height are passed
    along; at 100 percent the size stays as it is. *)
Theorem resize_by_whole_percentage (ow oh k : Z) (width height : option Z)
    (maintain_aspect : bool) (quality : Z) :
  (0 < ow < 2 ^ 40)%Z -> (0 < oh < 2 ^ 40)%Z ->
  (1 <= k <= 500)%Z -> (1 <= quality <= 100)%Z ->
  let resized :=
    resize_image_size ow oh width height (Some (Finite (iz k)))
                      maintain_aspect quality in
  resized = Ok (Z.max 1 (ow * k / 100), Z.max 1 (oh * k / 100))%Z
  /\ (k = 100%Z -> resized = Ok (ow, oh)).
Proof.
  intros How Hoh Hk Hq resized.
  assert (Hrun : resized = Ok (Z.max 1 (ow * k / 100), Z.max 1 (oh * k / 100))%Z).
  { unfold resized. rewrite resize_image_size_unfold.
    assert (Htruthy : truthy_float (Some (Finite (iz k))) = true).
    { cbn. unfold is_zero. cbn. destruct (Z.eqb_spec k 0); [lia | done]. }
    rewrite Htruthy, !orb_true_r. cbn [negb andb le lt].
    assert (H0 : Qle_bool (iz k) 0 = false).
    { destruct (Qle_bool (iz k) 0) eqn:E; [|done].
      apply Qle_bool_iff in E. change 0 with (iz 0) in E.
      rewrite <- Zle_Qle in E. lia. }
    assert (H500 : Qle_bool (iz k) 500 = true).
    { apply Qle_bool_iff. change 500 with (iz 500). rewrite <- Zle_Qle. lia. }
    rewrite H0, H500. cbn [negb orb].
    destruct (Z.ltb_spec quality 1); [lia|].
    destruct (Z.ltb_spec 100 quality); [lia|]. cbn [orb].
    unfold new_dimensions. rewrite Htruthy.
    rewrite !scale_by_whole by done. reflexivity. }
  split; [exact Hrun|].
  intros ->. rewrite Hrun. rewrite !Z.div_mul by lia.
  f_equal. f_equal; lia.
Qed.

End resize_more_facts.
Section extra_examples.
Import Py flask database ai_tools.

(** Five requests of a free user on a fresh day: three are served. *)
Lemma free_quota_closes_after_three_witness :
  exists w',
    serve (env_of (LoggedIn free_user) "Hello") hi_request 5 (world_of [])
    = (Ok [200; 200; 200; 403; 403], w')
    /\ count_today (env_of (LoggedIn free_user) "Hello") w' free_user = 3
    /\ length (usage w') = 3%nat.
Proof.
  apply (free_quota_closes_after_three
           (env_of (LoggedIn free_user) "Hello") free_user
           [("prompt", JStr "hi")] "hi" 5 (world_of []));
    (reflexivity || discriminate).
Defined.

(** The same user on a server whose local day is a day ahead of UTC. *)
Definition env_ahead : env :=
  {| current_user := LoggedIn free_user; today := 101;
     utcnow := {| dt_date := 100; dt_seconds := 82800 |};
     gemini := fun _ => "Hello"; db_query_ok := true; db_commit_ok := true |}.

Lemma quota_open_when_days_differ_witness :
  exists w',
    serve env_ahead hi_request 5 (world_of []) = (Ok [200; 200; 200; 200; 200], w')
    /\ count_today env_ahead w' free_user = 0
    /\ length (usage w') = 5%nat.
Proof.
  apply (quota_open_when_days_differ env_ahead free_user
           [("prompt", JStr "hi")] "hi" 5 (world_of []));
    (reflexivity || discriminate).
Defined.

(** A form tool whose service reports itself unavailable: the free
    user is charged all the same. *)
Lemma ai_tool_post_outcomes_witness :
  let e := env_of (LoggedIn free_user)
                  "AI service is currently unavailable. Please check configuration." in
  exists msg w',
    ai_tool_post e "paraphraser"
      (Ok (inr (tool_method "paraphrase_text" ["some text"; "formal"],
                "Style: formal, Length: 9")))
      "Paraphrasing failed. Please try again." (world_of [])
    = (Ok (jsonify [("success", JBool true);
                    ("result", JStr "AI service is currently unavailable. Please check configuration.");
                    ("message", JStr msg)] 200), w')
    /\ length (usage w') = 1%nat.
Proof.
  cbv zeta.
  destruct (ai_tool_post_outcomes
              (env_of (LoggedIn free_user)
                 "AI service is currently unavailable. Please check configuration.")
              (world_of []) free_user "paraphraser"
              (Ok (inr (tool_method "paraphrase_text" ["some text"; "formal"],
                        "Style: formal, Length: 9")))
              "Paraphrasing failed. Please try again." eq_refl)
    as (_ & _ & Hpast).
  destruct Hpast as (_ & _ & Hcall).
  { right. repeat split. }
  destruct (Hcall _ _ eq_refl) as (msg & w' & Hrun & _ & _ & Hfree).
  exists msg, w'. split; [exact Hrun|].
  rewrite Hfree; [reflexivity | reflexivity | discriminate | reflexivity].
Defined.

End extra_examples.

Section gemini_examples.
Import Py gemini_service.

(** An API that times out, then answers without text, then answers. *)
Definition flaky_api (k : nat) (prompt : string) : api_outcome :=
  match k with
  | 0%nat => ApiError (OSError "timed out")
  | 1%nat => Response None
  | 2%nat => Response (Some (" echo: " +:+ prompt +:+ " "))
  | _ => ApiError (OSError "quota exceeded")
  end.

Definition fresh_service : service :=
  {| client := true; api_calls := 0; sleeps := 0 |}.

Lemma generate_content_first_text_witness :
  _generate_content true true flaky_api "hi" 3 fresh_service
  = (Ok "echo: hi", {| client := true; api_calls := 3; sleeps := 1 |}).
Proof.
  apply (generate_content_first_text true true flaky_api "hi" 3 fresh_service 2
           " echo: hi ").
  - reflexivity.
  - vm_compute. lia.
  - intros [|[|j]] Hj; [reflexivity | reflexivity | lia].
  - reflexivity.
  - discriminate.
Defined.

Lemma generate_content_exhausted_witness :
  exists text s',
    _generate_content true true flaky_api "hi" 3
      {| client := true; api_calls := 3; sleeps := 0 |} = (Ok text, s')
    /\ text = "AI generation failed: quota exceeded"
    /\ api_calls s' = 6%nat
    /\ String.prefix "AI service is currently unavailable" text = false.
Proof.
  apply (generate_content_exhausted true true flaky_api "hi" 3
           {| client := true; api_calls := 3; sleeps := 0 |}).
  - reflexivity.
  - lia.
  - intros j _. reflexivity.
Defined.

End gemini_examples.

Section service_in_view_examples.
Import Py flask database ai_tools.

Lemma api_failure_is_charged_witness :
  exists text w',
    ai_generate (env_of (LoggedIn free_user) "AI generation failed: quota exceeded")
                hi_request (world_of [])
    = (Ok (jsonify [("output", JStr text)] 200), w')
    /\ text = "AI generation failed: quota exceeded"
    /\ length (usage w') = 1%nat.
Proof.
  apply (api_failure_is_charged true true flaky_api
           {| gemini_service.client := true; gemini_service.api_calls := 3;
              gemini_service.sleeps := 0 |}
           (env_of (LoggedIn free_user) "AI generation failed: quota exceeded")
           (world_of []) free_user [("prompt", JStr "hi")] "hi");
    (reflexivity || discriminate).
Defined.

End service_in_view_examples.

Section pdf_examples.
Import Py os flask pdf_toolkit pdf_pages tools_routes pdf_validation.

Lemma parse_page_ranges_round_trip_witness :
  _parse_page_ranges "1-3,5,7-10" 12 = Ok [(1, 3); (5, 5); (7, 10)].
Proof.
  apply (parse_page_ranges_round_trip 12 [Range 1 3; Page 5; Range 7 10]).
  - discriminate.
  - repeat constructor; cbn; lia.
Defined.

Lemma rotate_page_list_valid_witness :
  Forall (fun i => 0 <= i < 8) [0; 1; 2; 4; 6; 7].
Proof.
  refine (proj2 (rotate_page_list_valid "1-3, 5,7-10" 8 [0; 1; 2; 4; 6; 7] _) _).
  - vm_compute. reflexivity.
  - right. lia.
Defined.

Lemma pdf_tools_accept_pdf_suffix_witness :
  allowed_file "Report.v2.PDF" (Some "split") = endswith ".pdf" (lower "Report.v2.PDF").
Proof.
  refine (proj1 (pdf_tools_accept_pdf_suffix "split" "Report.v2.PDF" ∅ _)).
  cbn. tauto.
Defined.

(** A stand-in for the PDF libraries, to run [split_pdf] on: a
    document of three pages, of which any run of pages can be taken. *)
Definition three_pages : string -> string -> result nat :=
  fun _ bytes =>
    if String.prefix "%PDF-" bytes then Ok 3%nat
    else Raise (LibraryError "EOF marker not found").

Definition take_pages : string -> string -> Z -> Z -> result string :=
  fun _ bytes from_page to_page =>
    Ok (bytes +:+ "[" +:+ pretty from_page +:+ ".." +:+ pretty to_page +:+ "]").

Definition one_input : fs := <["/up/in.pdf" := "%PDF-x"]> ∅.

Lemma split_pdf_outputs_witness :
  exists files',
    split_pdf (libs := pypdf2_only) three_pages take_pages (fun _ => "/tmp/tmpsplit")
              "/up/in.pdf" "1-2,3" None one_input
    = (Ok ["/tmp/tmpsplit/pages_1-2.pdf"; "/tmp/tmpsplit/pages_3-3.pdf"], files')
    /\ is_Some (files' !! "/tmp/tmpsplit/pages_1-2.pdf")
    /\ is_Some (files' !! "/tmp/tmpsplit/pages_3-3.pdf")
    /\ files' !! "/up/in.pdf" = Some "%PDF-x".
Proof.
  assert (Hfst : fst (split_pdf (libs := pypdf2_only) three_pages take_pages
                        (fun _ => "/tmp/tmpsplit") "/up/in.pdf" "1-2,3" None one_input)
                 = Ok ["/tmp/tmpsplit/pages_1-2.pdf"; "/tmp/tmpsplit/pages_3-3.pdf"])
    by (vm_compute; reflexivity).
  destruct (split_pdf (libs := pypdf2_only) three_pages take_pages
              (fun _ => "/tmp/tmpsplit") "/up/in.pdf" "1-2,3" None one_input)
    as [r files'] eqn:Hrun.
  cbn [fst] in Hfst. subst r.
  destruct (proj2 (split_pdf_outputs (libs := pypdf2_only) three_pages take_pages
                     (fun _ => "/tmp/tmpsplit") "/up/in.pdf" "1-2,3" None
                     one_input files' _) Hrun)
    as (bytes & library & total & _ & _ & _ & Hall & Hframe).
  exists files'. split; [reflexivity|].
  apply Forall_cons in Hall as [Hfirst Hall]. apply Forall_cons in Hall as [Hsecond _].
  split; [exact Hfirst|]. split; [exact Hsecond|].
  rewrite Hframe; [reflexivity|].
  intros Hin. apply list_elem_of_In in Hin. vm_compute in Hin.
  destruct Hin as [Heq|[Heq|[]]]; discriminate Heq.
Defined.

(** Two uploads that merge, and two of which one is no PDF inside;
    the clock gives one time stamp to both, and every save succeeds. *)
Definition good_uploads : list upload :=
  [ {| filename := "a.pdf"; data := "%PDF-a" |};
    {| filename := "b.pdf"; data := "%PDF-b" |} ].

Definition bad_uploads : list upload :=
  [ {| filename := "a.pdf"; data := "%PDF-a" |};
    {| filename := "b.pdf"; data := "junk" |} ].

Lemma merge_route_cleans_up_on_success_witness :
  exists r files',
    pdf_merge_process (backend := toy_backend) (fun s => s) (fun _ => "t") "/up"
                      always_saved (Ok good_uploads) ∅ = (Ok r, files')
    /\ content r = File "/tmp/merged_0001.pdf" "merged.pdf"
    /\ files' !! "/up/t_a.pdf" = None
    /\ files' !! "/up/t_b.pdf" = None.
Proof.
  assert (Hfst : fst (pdf_merge_process (backend := toy_backend) (fun s => s)
                        (fun _ => "t") "/up" always_saved (Ok good_uploads) ∅)
                 = Ok {| status := 200;
                         content := File "/tmp/merged_0001.pdf" "merged.pdf" |})
    by (vm_compute; reflexivity).
  destruct (pdf_merge_process (backend := toy_backend) (fun s => s) (fun _ => "t")
              "/up" always_saved (Ok good_uploads) ∅) as [[r|e] files'] eqn:Hrun;
    [|discriminate Hfst].
  cbn [fst] in Hfst. injection Hfst as Hr.
  assert (Hstatus : status r = 200) by (rewrite Hr; reflexivity).
  destruct (merge_route_cleans_up_on_success (backend := toy_backend)
              (fun s => s) (fun _ => "t") "/up" always_saved (Ok good_uploads)
              ∅ files' r Hrun Hstatus)
    as (uploads & [= <-] & Hcontent & Hgone & _).
  exists r, files'. split; [reflexivity|]. split; [exact Hcontent|].
  split; apply Hgone; apply list_elem_of_In; vm_compute; tauto.
Defined.

Lemma merge_route_keeps_uploads_on_failure_witness :
  exists r files',
    pdf_merge_process (backend := toy_backend) (fun s => s) (fun _ => "t") "/up"
                      always_saved (Ok bad_uploads) ∅ = (Ok r, files')
    /\ status r = 500
    /\ is_Some (files' !! "/up/t_a.pdf")
    /\ is_Some (files' !! "/up/t_b.pdf").
Proof.
  assert (Hfst : match fst (pdf_merge_process (backend := toy_backend)
                                  (fun s => s) (fun _ => "t") "/up" always_saved
                                  (Ok bad_uploads) ∅) with
                 | Ok r => status r
                 | Raise _ => 0
                 end = 500)
    by (vm_compute; reflexivity).
  assert (Hsaved : is_ok (fst (save_uploads (fun s => s) (fun _ => "t") "/up"
                                 always_saved 0 bad_uploads ∅)) = true)
    by (vm_compute; reflexivity).
  destruct (pdf_merge_process (backend := toy_backend) (fun s => s) (fun _ => "t")
              "/up" always_saved (Ok bad_uploads) ∅) as [[r|e] files'] eqn:Hrun;
    [|discriminate Hfst].
  cbn [fst] in Hfst.
  destruct (merge_route_keeps_uploads_on_failure (backend := toy_backend)
              (fun s => s) (fun _ => "t") "/up" always_saved (Ok bad_uploads)
              ∅ files' r Hrun Hfst)
    as [(e & Hreq & _)|(uploads & [= <-] & [(e & Hfail)|(_ & _ & Hkept)] & _)].
  - discriminate Hreq.
  - rewrite Hfail in Hsaved. discriminate Hsaved.
  - exists r, files'. split; [reflexivity|]. split; [exact Hfst|].
    split; apply Hkept; (apply list_elem_of_In; vm_compute; tauto) || discriminate.
Defined.

End pdf_examples.

Section seo_examples.
Import Py pyfloat seo_analyzer seo_audit.

(** A page with a title of 40 characters, a description of 130, one
    [h1], 50 words and no image text. *)
Definition sample_title : string := "Forty characters of title, give or take.".

Definition sample_description : string :=
  String.concat "" (repeat "thirteen char" 10).

Lemma technical_score_full_iff_no_findings_witness :
  exists sc,
    _calculate_scores good good
      (_analyze_headings {| h1 := 1; h2 := 2; h3 := 0; h4 := 0; h5 := 0; h6 := 0 |})
      critical good = Ok sc
    /\ (technical sc = 100
        <-> (forall f, In f ["Insufficient Content"] -> f = "Insufficient Content")
            /\ (forall f, In f ["Missing Image Alt Text"] ->
                  f = "Missing Image Alt Text")).
Proof.
  eexists. split; [vm_compute; reflexivity|].
  apply (technical_score_full_iff_no_findings
           (Some sample_title) (Some (Some sample_description))
           {| h1 := 1; h2 := 2; h3 := 0; h4 := 0; h5 := 0; h6 := 0 |}
           (Finite 0)
           {| word_count := 50; char_count := 300; readability_score := 60;
              content_status := critical |}
           good).
  vm_compute. reflexivity.
Defined.

End seo_examples.

Section resize_examples.
Import Py pyfloat image_resizer.

Lemma preview_agrees_with_resize_witness :
  800 = 800 /\ 450 = 450 /\ true = true.
Proof.
  apply (preview_agrees_with_resize 1920 1080 (Some 800) None None true 95
           800 450 800 450 false true); vm_compute; reflexivity.
Defined.

Lemma resize_by_whole_percentage_witness :
  resize_image_size 1920 1080 (Some 10) (Some 10) (Some (Finite (inject_Z 50)))
                    true 95
  = Ok (960, 540).
Proof.
  refine (proj1 (resize_by_whole_percentage 1920 1080 50 (Some 10) (Some 10)
                   true 95 _ _ _ _)); lia.
Defined.

End resize_examples.
